(** * PNP markets skill: the scripts and the local market registry

    A shallow embedding of the TypeScript of the repository:
    - [scripts/create-market.ts] ([TOKENS], [initClient], [createMarket]),
    - [scripts/trade.ts] ([buyTokens], [sellTokens]),
    - [scripts/settle.ts] ([getSettlementStatus], [settleMarket]),
    - the two registry snippets of SKILL.md: the workflow that follows
      [createMarket] (market file, then [registry.json]) and
      [checkAndSettleDueMarkets].

    The [pnp-evm] client, [ethers.parseUnits], [Date.now] and
    [process.env] are the environment of the scripts: they are the fields
    of the class [Env], over an arbitrary type of chain states.  Every
    [await] of a client call is a step of a state-and-exception monad that
    records the call in a trace, so that "no settlement call is made" is a
    statement about the trace.

    What the model leaves out: [console.log] (but not the [toISOString]
    inside it, which can throw); the text of JSON, a file holding the
    value that [JSON.parse] returns; directories; characters outside
    ASCII; the rounding of numbers, which are exact integers here, hours
    and Unix seconds as the repository uses them. *)

From Stdlib Require Import ZArith QArith String Ascii List Lia Bool DecimalString.
From stdpp Require Import base option strings gmap.
Import ListNotations.

Local Open Scope string_scope.
Local Open Scope list_scope.
Local Open Scope Z_scope.

(** ** JavaScript strings and numbers

    Strings are byte strings; the case mapping and the white space are the
    ASCII ones.  Integers are exact ([Z]); [NaN] is [None]. *)

Module JS.

Definition code (c : ascii) : Z := Z.of_nat (nat_of_ascii c).

(** [!s] for a string: only the empty string is falsy. *)
Definition falsy (s : string) : bool :=
  match s with EmptyString => true | String _ _ => false end.

Definition upperChar (c : ascii) : ascii :=
  if (97 <=? code c) && (code c <=? 122)
  then ascii_of_nat (nat_of_ascii c - 32) else c.

(** [s.toUpperCase()] *)
Fixpoint toUpperCase (s : string) : string :=
  match s with
  | EmptyString => EmptyString
  | String c r => String (upperChar c) (toUpperCase r)
  end.

(** [s.startsWith(p)] *)
Definition startsWith (s p : string) : bool := String.prefix p s.

Definition isWhiteSpace (c : ascii) : bool :=
  ((9 <=? code c) && (code c <=? 13)) || (code c =? 32).

Fixpoint trimStart (s : string) : string :=
  match s with
  | String c r => if isWhiteSpace c then trimStart r else s
  | EmptyString => EmptyString
  end.

Definition digitVal (c : ascii) : option Z :=
  let n := code c in
  if (48 <=? n) && (n <=? 57) then Some (n - 48)
  else if (97 <=? n) && (n <=? 102) then Some (n - 87)
  else if (65 <=? n) && (n <=? 70) then Some (n - 55)
  else None.

Definition digitIn (radix : Z) (c : ascii) : option Z :=
  match digitVal c with
  | Some d => if d <? radix then Some d else None
  | None => None
  end.

(** The longest prefix of digits of [s] in [radix]: its value on top of
    [acc], the number of digits read, and what follows them. *)
Fixpoint readDigits (radix : Z) (s : string) (acc : Z) (n : nat)
  : Z * nat * string :=
  match s with
  | String c r =>
      match digitIn radix c with
      | Some d => readDigits radix r (acc * radix + d) (S n)
      | None => (acc, n, s)
      end
  | EmptyString => (acc, n, s)
  end.

(** An optional sign: the factor and the rest. *)
Definition readSign (s : string) : Z * string :=
  match s with
  | String "-" r => (-1, r)
  | String "+" r => (1, r)
  | _ => (1, s)
  end.

(** [parseInt(s)] with no radix argument: leading white space, a sign, a
    [0x] prefix for base 16, then digits; [None] is [NaN]. *)
Definition parseInt (s : string) : option Z :=
  let '(sign, s1) := readSign (trimStart s) in
  let '(radix, s2) :=
    if startsWith s1 "0x" || startsWith s1 "0X"
    then (16, substring 2 (String.length s1 - 2) s1) else (10, s1) in
  let '(v, n, _) := readDigits radix s2 0 0 in
  match n with O => None | S _ => Some (sign * v) end.

(** The value of [parseFloat]: the decimal literal is kept exact.  The
    scripts only test the result with [<= 0]. *)
Inductive number : Type :=
| NaN
| Infinity (negative : bool)
| Num (q : Q).

(** The exponent part [e[+-]digits] when it is well formed, [0] when it is
    absent or cut short. *)
Definition readExponent (s : string) : Z :=
  match s with
  | String c r =>
      if (code c =? 101) || (code c =? 69) then
        let '(sign, r1) := readSign r in
        let '(v, n, _) := readDigits 10 r1 0 0 in
        match n with O => 0 | S _ => sign * v end
      else 0
  | EmptyString => 0
  end.

(** [parseFloat(s)] *)
Definition parseFloat (s : string) : number :=
  let '(sign, s1) := readSign (trimStart s) in
  if startsWith s1 "Infinity" then Infinity (sign <? 0) else
  let '(ip, n1, s2) := readDigits 10 s1 0 0 in
  let '(m, n2, s3) :=
    match s2 with
    | String "." r => readDigits 10 r ip 0
    | _ => (ip, O, s2)
    end in
  match (n1 + n2)%nat with
  | O => NaN
  | S _ =>
      Num (inject_Z (sign * m) * Qpower (10 # 1) (readExponent s3 - Z.of_nat n2))
  end.

(** [x <= 0]: false on [NaN]. *)
Definition le0 (x : number) : bool :=
  match x with
  | NaN => false
  | Infinity negative => negative
  | Num q => Qle_bool q 0
  end.

(** Comparisons of a number with the result of [parseInt]: every
    comparison with [NaN] is false. *)
Definition geNaN (x : Z) (y : option Z) : bool :=
  match y with Some v => v <=? x | None => false end.

Definition ltNaN (x : Z) (y : option Z) : bool :=
  match y with Some v => x <? v | None => false end.

End JS.

(** ** Data model: the files under [markets/] *)

Inductive Outcome : Type := YES | NO.

Definition outcomeName (o : Outcome) : string :=
  match o with YES => "YES" | NO => "NO" end.

(** An element of [registry.markets]. *)
Record RegistryEntry : Type := mkEntry {
  conditionId : string;
  question : string;
  endTimeUnix : Z;
  isSettled : bool;
  winner : option Outcome
}.

Record Collateral : Type := mkCollateral {
  symbol : string;
  address : string;
  decimals : Z
}.

Record TradingRules : Type := mkRules {
  resolutionSource : string;
  resolutionCriteria : string;
  additionalNotes : string
}.

(** The [settlement] object of a market file.  A [Date] printed with
    [toISOString] is kept as its millisecond count. *)
Module Settlement.
Record t : Type := mk {
  isSettled : bool;
  settleTxHash : option string;
  winner : option Outcome;
  settledAt : option Z
}.
End Settlement.

(** The object written to [markets/<conditionId>.json]. *)
Module Market.
Record t : Type := mk {
  conditionId : string;
  question : string;
  createdAt : Z;
  endTime : Z;
  endTimeUnix : Z;
  collateral : Collateral;
  initialLiquidity : string;
  createTxHash : string;
  tradingRules : TradingRules;
  settlement : Settlement.t
}.

(** [marketData.settlement = s] *)
Definition setSettlement (m : t) (s : Settlement.t) : t :=
  mk (conditionId m) (question m) (createdAt m) (endTime m) (endTimeUnix m)
     (collateral m) (initialLiquidity m) (createTxHash m) (tradingRules m) s.
End Market.

(** [registry.json] and the market files.  No condition id names the
    registry file: the two kinds of path are kept apart. *)
Inductive Path : Type :=
| RegistryPath
| MarketPath (cid : string).

(** What a path holds: [Torn] is a file that was opened for writing and
    never received its text, so that [JSON.parse] rejects it. *)
Inductive FileData (A : Type) : Type :=
| Torn
| Whole (a : A).
Arguments Torn {A}.
Arguments Whole {A} a.

Record FS : Type := mkFS {
  registryFile : option (FileData (list RegistryEntry));
  marketFiles : gmap string (FileData Market.t)
}.

(** [fs.writeFileSync(path, text)] opens the path with flag [w], which
    creates or truncates it, and then writes the text: two steps on the
    disk. *)
Definition openTruncate (p : Path) (fs : FS) : FS :=
  match p with
  | RegistryPath => mkFS (Some Torn) (marketFiles fs)
  | MarketPath cid => mkFS (registryFile fs) (<[cid := Torn]> (marketFiles fs))
  end.

Definition fillRegistry (markets : list RegistryEntry) (fs : FS) : FS :=
  mkFS (Some (Whole markets)) (marketFiles fs).

Definition fillMarket (cid : string) (m : Market.t) (fs : FS) : FS :=
  mkFS (registryFile fs) (<[cid := Whole m]> (marketFiles fs)).

Definition writeRegistrySteps (markets : list RegistryEntry) : list (FS -> FS) :=
  [openTruncate RegistryPath; fillRegistry markets].

Definition writeMarketSteps (cid : string) (m : Market.t) : list (FS -> FS) :=
  [openTruncate (MarketPath cid); fillMarket cid m].

Definition runSteps (steps : list (FS -> FS)) (fs : FS) : FS :=
  fold_left (fun acc step => step acc) steps fs.

(** The disk when the process dies after [k] steps of a write. *)
Definition crashAfter (k : nat) (steps : list (FS -> FS)) (fs : FS) : FS :=
  runSteps (firstn k steps) fs.

(** ** The environment: the [pnp-evm] client, [ethers], the clock *)

(** A promise of the client, once awaited. *)
Inductive Reply (A : Type) : Type :=
| Rejected (reason : string)
| Fulfilled (a : A).
Arguments Rejected {A} reason.
Arguments Fulfilled {A} a.

(** What [client.market.getMarketInfo] resolves to. *)
Module Info.
Record t : Type := mk {
  question : string;
  endTime : string;
  isSettled : bool;
  collateral : string;
  reserve : string
}.
End Info.

Record Prices : Type := mkPrices {
  yesPricePercent : string;
  noPricePercent : string
}.

(** The argument of [client.market.createMarket]. *)
Module CreateArgs.
Record t : Type := mk {
  question : string;
  endTime : Z;
  initialLiquidity : Z;
  collateralToken : string
}.
End CreateArgs.

Class Env (W : Type) : Type := {
  PRIVATE_KEY : option string;
  Date_now : W -> Z * W;
  parseUnits : string -> Z -> option Z;
  market_getMarketInfo : string -> W -> Reply Info.t * W;
  market_getMarketPrices : string -> W -> Reply Prices * W;
  market_createMarket : CreateArgs.t -> W -> Reply (string * string) * W;
  market_settleMarket : string -> Z -> W -> Reply string * W;
  trading_getTokenId : string -> string -> W -> Reply Z * W;
  trading_buy : string -> Z -> string -> Z -> W -> Reply string * W;
  trading_sell : string -> Z -> string -> Z -> W -> Reply string * W;
  redemption_isResolved : string -> W -> Reply bool * W;
  redemption_getWinningToken : string -> W -> Reply string * W
}.

(** The calls that leave the process, and the writes to the disk. *)
Inductive Event : Type :=
| GetMarketInfo (cid : string)
| GetMarketPrices (cid : string)
| CreateMarket (args : CreateArgs.t)
| SettleMarket (cid : string) (tokenId : Z)
| GetTokenId (cid : string) (outcome : string)
| Buy (cid : string) (amountWei : Z) (outcome : string) (minOutWei : Z)
| Sell (cid : string) (amountWei : Z) (outcome : string) (minOutWei : Z)
| IsResolved (cid : string)
| GetWinningToken (cid : string)
| WriteFile (p : Path).

(** The errors the scripts throw, one constructor per message. *)
Inductive Error : Type :=
| PrivateKeyRequired
    (* "PRIVATE_KEY environment variable is required" *)
| ConditionIdRequired
    (* "conditionId is required" *)
| OutcomeInvalid
    (* "outcome must be YES or NO" *)
| AmountNotPositive
    (* "amount must be positive" *)
| TradingPeriodEnded
    (* "Market trading period has ended" *)
| MarketSettled
    (* "Market is already settled" *)
| AlreadySettled (winner : option Outcome)
    (* "Market is already settled. Winner: ..." *)
| CannotSettleYet (hours minutes : option Z)
    (* "Cannot settle yet. Trading ends in ...h ...m" *)
| QuestionRequired
    (* "question is required" *)
| DurationNotPositive
    (* "durationHours must be positive" *)
| LiquidityNotPositive
    (* "liquidity must be positive" *)
| UnknownToken (collateral : string)
    (* "Unknown token ... Use USDC, WETH, cbETH, or a 0x contract address." *)
| ClientRejected (reason : string)
    (* a rejected promise of the client *)
| ParseUnitsFailed (value : string)
    (* thrown by ethers.parseUnits *)
| InvalidTimeValue
    (* RangeError of toISOString *)
| NoSuchFile (p : Path)
    (* ENOENT of fs.readFileSync *)
| JsonSyntaxError (p : Path).
    (* SyntaxError of JSON.parse *)

Inductive Res (A : Type) : Type :=
| Ok (a : A)
| Throw (e : Error).
Arguments Ok {A} a.
Arguments Throw {A} e.

Record State (W : Type) : Type := mkState {
  world : W;
  files : FS;
  trace : list Event
}.
Arguments mkState {W} world files trace.
Arguments world {W} s.
Arguments files {W} s.
Arguments trace {W} s.

(** ** The monad of the scripts *)

Definition M (W A : Type) : Type := State W -> Res A * State W.

Definition ret {W A} (a : A) : M W A := fun s => (Ok a, s).

Definition throw {W A} (e : Error) : M W A := fun s => (Throw e, s).

Definition bind {W A B} (m : M W A) (k : A -> M W B) : M W B :=
  fun s =>
    match m s with
    | (Ok a, s') => k a s'
    | (Throw e, s') => (Throw e, s')
    end.

Notation "'let*' x := m 'in' k" := (bind m (fun x => k))
  (at level 10, x name, m at level 100, k at level 200).

(** [await call]: the call is recorded, the chain moves, and a rejected
    promise is thrown. *)
Definition await {W A} (ev : Event) (call : W -> Reply A * W) : M W A :=
  fun s =>
    let (r, w) := call (world s) in
    let s' := mkState w (files s) (trace s ++ [ev]) in
    match r with
    | Fulfilled a => (Ok a, s')
    | Rejected reason => (Throw (ClientRejected reason), s')
    end.

(** ** Parameters and results of the scripts *)

Record CreateMarketParams : Type := mkCreateParams {
  p_question : string;
  p_durationHours : Z;
  p_liquidity : string;
  p_collateral : option string;
  p_decimals : option Z
}.

Record CreateMarketResult : Type := mkCreated {
  r_conditionId : string;
  r_hash : string;
  r_endTime : Z
}.

Record TradeParams : Type := mkTrade {
  t_conditionId : string;
  t_outcome : string;
  t_amount : string;
  t_decimals : option Z;
  t_minOut : option string
}.

Inductive Action : Type := buy | sell.

Record TradeResult : Type := mkTradeResult {
  tr_hash : string;
  tr_action : Action;
  tr_outcome : string;
  tr_amount : string;
  tr_updatedPrices : string * string
}.

Module Status.
Record t : Type := mk {
  question : string;
  endTime : option Z;
  isSettled : bool;
  canSettle : bool;
  winner : option Outcome;
  timeLeftHours : option Z;
  timeLeftMinutes : option Z
}.
End Status.

Record SettleParams : Type := mkSettle {
  s_conditionId : string;
  s_outcome : string
}.

Record SettleResult : Type := mkSettled {
  sr_hash : string;
  sr_winner : string;
  sr_conditionId : string
}.

Section Scripts.

Context {W : Type} `{Env W}.

(** [Math.floor(Date.now() / 1000)] *)
Definition nowSeconds : M W Z :=
  fun s => let (ms, w) := Date_now (world s) in
           (Ok (ms / 1000), mkState w (files s) (trace s)).

(** [new Date().toISOString()] *)
Definition isoNow : M W Z :=
  fun s => let (ms, w) := Date_now (world s) in
           (Ok ms, mkState w (files s) (trace s)).

(** [new Date(ms).toISOString()]: a time value beyond 8.64e15 ms is an
    invalid date. *)
Definition toISOString (ms : Z) : M W Z :=
  if Z.abs ms <=? 8640000000000000 then ret ms else throw InvalidTimeValue.

(** [ethers.parseUnits(value, decimals)] *)
Definition parseUnitsOrThrow (value : string) (dec : Z) : M W Z :=
  match parseUnits value dec with
  | Some wei => ret wei
  | None => throw (ParseUnitsFailed value)
  end.

(** *** The disk *)

Definition existsRegistry : M W bool :=
  fun s => (Ok (bool_decide (is_Some (registryFile (files s)))), s).

(** [JSON.parse(fs.readFileSync(registryPath, "utf-8"))] *)
Definition readRegistry : M W (list RegistryEntry) :=
  fun s =>
    match registryFile (files s) with
    | Some (Whole markets) => (Ok markets, s)
    | Some Torn => (Throw (JsonSyntaxError RegistryPath), s)
    | None => (Throw (NoSuchFile RegistryPath), s)
    end.

(** [JSON.parse(fs.readFileSync(marketPath, "utf-8"))] *)
Definition readMarket (cid : string) : M W Market.t :=
  fun s =>
    match marketFiles (files s) !! cid with
    | Some (Whole m) => (Ok m, s)
    | Some Torn => (Throw (JsonSyntaxError (MarketPath cid)), s)
    | None => (Throw (NoSuchFile (MarketPath cid)), s)
    end.

Definition writeSteps (p : Path) (steps : list (FS -> FS)) : M W unit :=
  fun s => (Ok tt, mkState (world s) (runSteps steps (files s))
                           (trace s ++ [WriteFile p])).

(** [fs.writeFileSync(registryPath, JSON.stringify(registry, null, 2))] *)
Definition writeRegistry (markets : list RegistryEntry) : M W unit :=
  writeSteps RegistryPath (writeRegistrySteps markets).

(** [fs.writeFileSync(marketPath, JSON.stringify(marketData, null, 2))] *)
Definition writeMarket (cid : string) (m : Market.t) : M W unit :=
  writeSteps (MarketPath cid) (writeMarketSteps cid m).

(** *** create-market.ts *)

(** [TOKENS] *)
Definition TOKENS : list (string * (string * Z)) :=
  [ ("USDC", ("0x833589fCD6eDb6E08f4c7C32D4f71b54bdA02913", 6));
    ("WETH", ("0x4200000000000000000000000000000000000006", 18));
    ("cbETH", ("0x2Ae3F1Ec7F1F5012CFEab0185bfc7aa3cf0DEc22", 18)) ].

(** [TOKENS[key]] *)
Fixpoint lookupToken (table : list (string * (string * Z))) (key : string)
  : option (string * Z) :=
  match table with
  | [] => None
  | (k, v) :: rest => if String.eqb k key then Some v else lookupToken rest key
  end.

Definition initClient : M W unit :=
  match PRIVATE_KEY with
  | Some key => if JS.falsy key then throw PrivateKeyRequired else ret tt
  | None => throw PrivateKeyRequired
  end.

(** The part of [createMarket] after the collateral is resolved. *)
Definition submitMarket (params : CreateMarketParams)
    (collateralAddress : string) (dec : Z) : M W CreateMarketResult :=
  let* now := nowSeconds in
  let endTime := now + p_durationHours params * 3600 in
  let* liquidityWei := parseUnitsOrThrow (p_liquidity params) dec in
  let* _ := toISOString (endTime * 1000) in
  let args := CreateArgs.mk (p_question params) endTime liquidityWei
                            collateralAddress in
  let* created := await (CreateMarket args) (market_createMarket args) in
  ret (mkCreated (fst created) (snd created) endTime).

Definition createMarket (params : CreateMarketParams) : M W CreateMarketResult :=
  let collateral := default "USDC" (p_collateral params) in
  if JS.falsy (p_question params) then throw QuestionRequired else
  if (p_durationHours params =? 0) || (p_durationHours params <=? 0)
  then throw DurationNotPositive else
  if JS.falsy (p_liquidity params)
     || JS.le0 (JS.parseFloat (p_liquidity params))
  then throw LiquidityNotPositive else
  match lookupToken TOKENS (JS.toUpperCase collateral) with
  | Some knownToken =>
      submitMarket params (fst knownToken)
                   (default (snd knownToken) (p_decimals params))
  | None =>
      if JS.startsWith collateral "0x"
      then submitMarket params collateral (default 18 (p_decimals params))
      else throw (UnknownToken collateral)
  end.

(** *** trade.ts *)

Definition outcomeInvalid (outcome : string) : bool :=
  negb (String.eqb outcome "YES") && negb (String.eqb outcome "NO").

Definition buyTokens (params : TradeParams) : M W TradeResult :=
  let conditionId := t_conditionId params in
  let outcome := t_outcome params in
  let amount := t_amount params in
  let dec := default 6 (t_decimals params) in
  let minOut := default "0" (t_minOut params) in
  if JS.falsy conditionId then throw ConditionIdRequired else
  if outcomeInvalid outcome then throw OutcomeInvalid else
  if JS.falsy amount || JS.le0 (JS.parseFloat amount)
  then throw AmountNotPositive else
  let* info := await (GetMarketInfo conditionId)
                     (market_getMarketInfo conditionId) in
  let* now := nowSeconds in
  if JS.geNaN now (JS.parseInt (Info.endTime info))
  then throw TradingPeriodEnded else
  if Info.isSettled info then throw MarketSettled else
  let* amountWei := parseUnitsOrThrow amount dec in
  let* minOutWei := parseUnitsOrThrow minOut 18 in
  let* result := await (Buy conditionId amountWei outcome minOutWei)
                       (trading_buy conditionId amountWei outcome minOutWei) in
  let* newPrices := await (GetMarketPrices conditionId)
                          (market_getMarketPrices conditionId) in
  ret (mkTradeResult result buy outcome amount
         (yesPricePercent newPrices, noPricePercent newPrices)).

Definition sellTokens (params : TradeParams) : M W TradeResult :=
  let conditionId := t_conditionId params in
  let outcome := t_outcome params in
  let amount := t_amount params in
  let dec := default 18 (t_decimals params) in
  let minOut := default "0" (t_minOut params) in
  if JS.falsy conditionId then throw ConditionIdRequired else
  if outcomeInvalid outcome then throw OutcomeInvalid else
  if JS.falsy amount || JS.le0 (JS.parseFloat amount)
  then throw AmountNotPositive else
  let* info := await (GetMarketInfo conditionId)
                     (market_getMarketInfo conditionId) in
  let* now := nowSeconds in
  if JS.geNaN now (JS.parseInt (Info.endTime info))
  then throw TradingPeriodEnded else
  if Info.isSettled info then throw MarketSettled else
  let* amountWei := parseUnitsOrThrow amount dec in
  let* minOutWei := parseUnitsOrThrow minOut 6 in
  let* result := await (Sell conditionId amountWei outcome minOutWei)
                       (trading_sell conditionId amountWei outcome minOutWei) in
  let* newPrices := await (GetMarketPrices conditionId)
                          (market_getMarketPrices conditionId) in
  ret (mkTradeResult result sell outcome amount
         (yesPricePercent newPrices, noPricePercent newPrices)).

(** *** settle.ts *)

(** [yesTokenId.toString()] *)
Definition bigintToString (n : Z) : string := NilZero.string_of_int (Z.to_int n).

Definition getSettlementStatus (conditionId : string) : M W Status.t :=
  if JS.falsy conditionId then throw ConditionIdRequired else
  let* info := await (GetMarketInfo conditionId)
                     (market_getMarketInfo conditionId) in
  let* isSettled := await (IsResolved conditionId)
                          (redemption_isResolved conditionId) in
  let endTime := JS.parseInt (Info.endTime info) in
  let* now := nowSeconds in
  let canSettle := JS.geNaN now endTime && negb isSettled in
  let status w h m :=
    Status.mk (Info.question info) endTime isSettled canSettle w h m in
  if isSettled then
    let* winningToken := await (GetWinningToken conditionId)
                               (redemption_getWinningToken conditionId) in
    let* yesTokenId := await (GetTokenId conditionId "YES")
                             (trading_getTokenId conditionId "YES") in
    ret (status (Some (if String.eqb winningToken (bigintToString yesTokenId)
                       then YES else NO)) None None)
  else if JS.ltNaN now endTime then
    let remaining := default 0 endTime - now in
    ret (status None (Some (remaining / 3600))
                (Some (Z.rem remaining 3600 / 60)))
  else ret (status None None None).

Definition settleMarket (params : SettleParams) : M W SettleResult :=
  let conditionId := s_conditionId params in
  let outcome := s_outcome params in
  if JS.falsy conditionId then throw ConditionIdRequired else
  if outcomeInvalid outcome then throw OutcomeInvalid else
  let* status := getSettlementStatus conditionId in
  if Status.isSettled status
  then throw (AlreadySettled (Status.winner status)) else
  if negb (Status.canSettle status)
  then throw (CannotSettleYet (Status.timeLeftHours status)
                              (Status.timeLeftMinutes status)) else
  let* winningTokenId := await (GetTokenId conditionId outcome)
                               (trading_getTokenId conditionId outcome) in
  let* result := await (SettleMarket conditionId winningTokenId)
                       (market_settleMarket conditionId winningTokenId) in
  ret (mkSettled result outcome conditionId).

(** *** SKILL.md: the agent workflow after creating a market

    The directory [markets/] is created first; directories are not part of
    the model.  The literals of the snippet (question, collateral, rules)
    are arguments. *)

(** Steps 2 and 3: the market record and its file. *)
Definition writeMarketRecord (result : CreateMarketResult)
    (questionText : string) (coll : Collateral) (liquidity : string)
    (rules : TradingRules) : M W Market.t :=
  let* createdAt := isoNow in
  let* endTime := toISOString (r_endTime result * 1000) in
  let marketRecord :=
    Market.mk (r_conditionId result) questionText createdAt endTime
              (r_endTime result) coll liquidity (r_hash result) rules
              (Settlement.mk false None None None) in
  let* _ := writeMarket (r_conditionId result) marketRecord in
  ret marketRecord.

(** Step 4: [registry.markets.push(...)] and the write of [registry.json]. *)
Definition updateRegistry (result : CreateMarketResult)
    (marketRecord : Market.t) : M W unit :=
  let* present := existsRegistry in
  let* markets := if present then readRegistry else ret [] in
  writeRegistry
    (markets ++ [mkEntry (r_conditionId result) (Market.question marketRecord)
                         (r_endTime result) false None]).

Definition createAndRecord (params : CreateMarketParams) (coll : Collateral)
    (rules : TradingRules) : M W CreateMarketResult :=
  let* _ := initClient in
  let* result := createMarket params in
  let* marketRecord :=
    writeMarketRecord result (p_question params) coll (p_liquidity params)
                      rules in
  let* _ := updateRegistry result marketRecord in
  ret result.

(** *** SKILL.md: [checkAndSettleDueMarkets]

    [decide] is the agent decision point of the snippet, which reads
    [const winner = "YES"; // <- agent determines this]. *)

(** The body of the loop for an entry that passed the two [continue]s. *)
Definition settleDue (decide : Market.t -> Outcome) (entry : RegistryEntry)
  : M W RegistryEntry :=
  let* _ := toISOString (endTimeUnix entry * 1000) in
  let* marketData := readMarket (conditionId entry) in
  let winner := decide marketData in
  let* result := settleMarket (mkSettle (conditionId entry)
                                        (outcomeName winner)) in
  let* settledAt := isoNow in
  let* _ := writeMarket (conditionId entry)
              (Market.setSettlement marketData
                 (Settlement.mk true (Some (sr_hash result)) (Some winner)
                                (Some settledAt))) in
  ret (mkEntry (conditionId entry) (question entry) (endTimeUnix entry)
               true (Some winner)).

(** One turn of [for (const entry of registry.markets)]: the entry as the
    turn leaves it. *)
Definition scanEntry (decide : Market.t -> Outcome) (now : Z)
    (entry : RegistryEntry) : M W RegistryEntry :=
  if isSettled entry then ret entry else
  if endTimeUnix entry >? now then ret entry else
  settleDue decide entry.

Fixpoint scanLoop (decide : Market.t -> Outcome) (now : Z)
    (markets : list RegistryEntry) : M W (list RegistryEntry) :=
  match markets with
  | [] => ret []
  | entry :: rest =>
      let* entry' := scanEntry decide now entry in
      let* rest' := scanLoop decide now rest in
      ret (entry' :: rest')
  end.

Definition checkAndSettleDueMarkets (decide : Market.t -> Outcome) : M W unit :=
  let* present := existsRegistry in
  if negb present then ret tt else
  let* markets := readRegistry in
  let* now := nowSeconds in
  let* _ := initClient in
  let* markets' := scanLoop decide now markets in
  writeRegistry markets'.

(** The entries the loop does not skip, in the order of the index. *)
Fixpoint findDue (markets : list RegistryEntry) (now : Z) : list RegistryEntry :=
  match markets with
  | [] => []
  | entry :: rest =>
      if isSettled entry then findDue rest now
      else if endTimeUnix entry >? now then findDue rest now
      else entry :: findDue rest now
  end.

(** The loop over a list of due entries, each of them settled in turn. *)
Fixpoint settleAll (decide : Market.t -> Outcome) (due : list RegistryEntry)
  : M W unit :=
  match due with
  | [] => ret tt
  | entry :: rest =>
      let* _ := settleDue decide entry in
      settleAll decide rest
  end.

End Scripts.

(** ** A small chain to run the scripts on

    An in-memory client: a clock, the markets it knows with their end time
    as the client prints it, and the markets it has resolved with their
    winning token.  Token ids are 1 for YES and 2 for NO. *)

Record Chain : Type := mkChain {
  clock : Z;
  known : list (string * string);
  resolved : list (string * Z)
}.

Fixpoint assoc {A} (key : string) (l : list (string * A)) : option A :=
  match l with
  | [] => None
  | (k, v) :: rest => if String.eqb k key then Some v else assoc key rest
  end.

Definition demoInfo (cid : string) (w : Chain) : Reply Info.t * Chain :=
  match assoc cid (known w) with
  | Some e =>
      (Fulfilled (Info.mk "Q" e (bool_decide (is_Some (assoc cid (resolved w))))
                          "0x833589fCD6eDb6E08f4c7C32D4f71b54bdA02913" "100"), w)
  | None => (Rejected "Market doesn't exist", w)
  end.

Definition demoSettle (cid : string) (tokenId : Z) (w : Chain)
  : Reply string * Chain :=
  match assoc cid (known w), assoc cid (resolved w) with
  | Some _, None =>
      (Fulfilled "0xsettle", mkChain (clock w) (known w) ((cid, tokenId) :: resolved w))
  | _, _ => (Rejected "Cannot settle", w)
  end.

Definition demoCreate (args : CreateArgs.t) (w : Chain)
  : Reply (string * string) * Chain :=
  let cid := String.append "0x" (bigintToString (Z.of_nat (List.length (known w)))) in
  (Fulfilled (cid, "0xcreate"),
   mkChain (clock w)
           ((cid, bigintToString (CreateArgs.endTime args)) :: known w)
           (resolved w)).

Definition demoUnits (value : string) (dec : Z) : option Z :=
  match JS.readDigits 10 value 0 0 with
  | (v, S _, EmptyString) => Some (v * 10 ^ dec)
  | _ => None
  end.

#[local] Instance demoEnv : Env Chain := {|
  PRIVATE_KEY := Some "0xkey";
  Date_now := fun w => (clock w, w);
  parseUnits := demoUnits;
  market_getMarketInfo := demoInfo;
  market_getMarketPrices := fun _ w => (Fulfilled (mkPrices "50" "50"), w);
  market_createMarket := demoCreate;
  market_settleMarket := demoSettle;
  trading_getTokenId := fun _ outcome w =>
    (Fulfilled (if String.eqb outcome "YES" then 1 else 2), w);
  trading_buy := fun _ _ _ _ w => (Fulfilled "0xbuy", w);
  trading_sell := fun _ _ _ _ w => (Fulfilled "0xsell", w);
  redemption_isResolved := fun cid w =>
    (Fulfilled (bool_decide (is_Some (assoc cid (resolved w)))), w);
  redemption_getWinningToken := fun cid w =>
    match assoc cid (resolved w) with
    | Some tokenId => (Fulfilled (bigintToString tokenId), w)
    | None => (Rejected "Market not settled", w)
    end
|}.

Definition usdc : Collateral :=
  mkCollateral "USDC" "0x833589fCD6eDb6E08f4c7C32D4f71b54bdA02913" 6.

Definition demoRules : TradingRules :=
  mkRules "CoinGecko ETH/USD spot price"
          "Resolves YES if ETH/USD >= $10,000 at any point before endTime. NO otherwise."
          EmptyString.

Definition demoRecord (cid : string) (endUnix : Z) (st : Settlement.t) : Market.t :=
  Market.mk cid "Q1" 0 (endUnix * 1000) endUnix usdc "100" "0xcreate" demoRules st.

Definition unsettled : Settlement.t := Settlement.mk false None None None.

(** The placeholder of the snippet: [winner = "YES"]. *)
Definition alwaysYes (_ : Market.t) : Outcome := YES.

(** ** Classes of events *)

Definition isChainRead (ev : Event) : bool :=
  match ev with
  | GetMarketInfo _ | IsResolved _ | GetWinningToken _ | GetTokenId _ _ => true
  | _ => false
  end.

Definition isSettleOf (cid : string) (ev : Event) : bool :=
  match ev with SettleMarket c _ => String.eqb c cid | _ => false end.

Definition isTrade (ev : Event) : bool :=
  match ev with Buy _ _ _ _ | Sell _ _ _ _ => true | _ => false end.

Definition isRegistryWrite (ev : Event) : bool :=
  match ev with WriteFile RegistryPath => true | _ => false end.

Definition isThrow {A} (r : Res A) : bool :=
  match r with Throw _ => true | Ok _ => false end.

(** ** Runs

    [wp m s Q]: the run of [m] from [s] ends in a result and a state that
    satisfy [Q]. *)
Definition wp {W A} (m : M W A) (s : State W) (Q : Res A -> State W -> Prop) : Prop :=
  Q (fst (m s)) (snd (m s)).

(** ** Input of [createMarket]

    The collateral symbols the scripts document, in any case. *)
Definition knownSymbol (c : string) : bool :=
  existsb (fun name => String.eqb (JS.toUpperCase c) (JS.toUpperCase name))
          ["USDC"; "WETH"; "cbETH"].

(** The collateral argument with its default. *)
Definition collateralOf (params : CreateMarketParams) : string :=
  default "USDC" (p_collateral params).

(** An input [createMarket] must refuse: no question, a duration or a
    liquidity that is not positive, a collateral that is neither a known
    symbol nor a [0x] address. *)
Definition invalidInput (params : CreateMarketParams) : Prop :=
  p_question params = EmptyString
  \/ p_durationHours params <= 0
  \/ p_liquidity params = EmptyString
  \/ JS.le0 (JS.parseFloat (p_liquidity params)) = true
  \/ (knownSymbol (collateralOf params) = false
      /\ JS.startsWith (collateralOf params) "0x" = false).

(** The errors of the block that [createMarket] opens with [// Validate]
    and of the collateral resolution. *)
Definition validationError (e : Error) : bool :=
  match e with
  | QuestionRequired | DurationNotPositive | LiquidityNotPositive
  | UnknownToken _ => true
  | _ => false
  end.

(** ** Traces of a run *)

(** The events a run from [s] to [s'] added to the trace. *)
Definition emitted {W} (s s' : State W) (evs : list Event) : Prop :=
  trace s' = trace s ++ evs.

Definition noneOf (p : Event -> bool) (evs : list Event) : bool :=
  forallb (fun ev => negb (p ev)) evs.

(** ** Input of [buyTokens] and [sellTokens] *)

(** The parameters pass the three checks that open both functions. *)
Definition tradeParamsPass (params : TradeParams) : bool :=
  negb (JS.falsy (t_conditionId params))
  && negb (outcomeInvalid (t_outcome params))
  && negb (JS.falsy (t_amount params)
           || JS.le0 (JS.parseFloat (t_amount params))).

(** A trade that the pre-flight check refuses: an error, no [buy] or
    [sell] sent; [ended] tells the two messages apart. *)
Definition refusedTrade {W} (params : TradeParams) (ended : bool)
    (s : State W) (run : Res TradeResult * State W) : Prop :=
  exists e evs,
    fst run = Throw e
    /\ emitted s (snd run) evs
    /\ noneOf isTrade evs = true
    /\ (tradeParamsPass params = true ->
        e = if ended then TradingPeriodEnded else MarketSettled).

(** ** The chain between two calls *)

(** The states the environment can reach in one call of the scripts. *)
Inductive envStep {W} `{Env W} : W -> W -> Prop :=
| step_now w : envStep w (snd (Date_now w))
| step_info cid w : envStep w (snd (market_getMarketInfo cid w))
| step_prices cid w : envStep w (snd (market_getMarketPrices cid w))
| step_create args w : envStep w (snd (market_createMarket args w))
| step_settle cid tokenId w : envStep w (snd (market_settleMarket cid tokenId w))
| step_tokenId cid outcome w : envStep w (snd (trading_getTokenId cid outcome w))
| step_buy cid a o m w : envStep w (snd (trading_buy cid a o m w))
| step_sell cid a o m w : envStep w (snd (trading_sell cid a o m w))
| step_resolved cid w : envStep w (snd (redemption_isResolved cid w))
| step_winning cid w : envStep w (snd (redemption_getWinningToken cid w)).

(** Somewhere after [w] the client answered that [cid] is not resolved. *)
Definition answeredUnresolved {W} `{Env W} (cid : string) (w : W) : Prop :=
  exists wq, rtc envStep w wq
             /\ fst (redemption_isResolved cid wq) = Fulfilled false.

(** How a call of [settleMarket] for [cid] can end, by what it emitted:
    it threw after reads only, or it sent the settlement as its last call,
    having been told that the market is not resolved. *)
Definition settleOutcome {W} `{Env W} {A} (cid : string) (w : W)
    (r : Res A) (evs : list Event) : Prop :=
  (isThrow r = true /\ forallb isChainRead evs = true)
  \/ (exists pre tokenId,
        evs = pre ++ [SettleMarket cid tokenId]
        /\ forallb isChainRead pre = true
        /\ answeredUnresolved cid w).

(** ** One turn of the loop *)

(** [marketData] with the settlement object the loop assigns. *)
Definition settledRecord (m : Market.t) (txHash : string) (winner : Outcome)
    (at_ : Z) : Market.t :=
  Market.setSettlement m
    (Settlement.mk true (Some txHash) (Some winner) (Some at_)).

(** The entry as the loop mutates it. *)
Definition settledEntry (entry : RegistryEntry) (winner : Outcome) : RegistryEntry :=
  mkEntry (conditionId entry) (question entry) (endTimeUnix entry) true
          (Some winner).

(** How the turn of a due entry ends: [settleDue] threw and the disk is
    as before, or it settled the market on the chain and wrote its file
    right after. *)
Definition dueTurn {W} `{Env W} (decide : Market.t -> Outcome)
    (entry : RegistryEntry) (s : State W) (r : Res RegistryEntry)
    (s' : State W) : Prop :=
  let cid := conditionId entry in
  rtc envStep (world s) (world s')
  /\ exists evs,
       emitted s s' evs
       /\ ((isThrow r = true /\ files s' = files s
            /\ settleOutcome cid (world s) r evs)
           \/ (exists pre tokenId m txHash at_,
                 r = Ok (settledEntry entry (decide m))
                 /\ evs = pre ++ [SettleMarket cid tokenId;
                                  WriteFile (MarketPath cid)]
                 /\ forallb isChainRead pre = true
                 /\ answeredUnresolved cid (world s)
                 /\ marketFiles (files s) !! cid = Some (Whole m)
                 /\ files s'
                    = fillMarket cid (settledRecord m txHash (decide m) at_)
                                 (files s))).

(** ** Due entries

    An entry is due when it is not settled and its end time is not after
    [now]. *)
Definition isDue (now : Z) (entry : RegistryEntry) : bool :=
  negb (isSettled entry) && (endTimeUnix entry <=? now).

(** ** Market records on the disk *)

(** [winner] is null exactly when [isSettled] is false. *)
Definition settlementOk (st : Settlement.t) : Prop :=
  Settlement.winner st = None <-> Settlement.isSettled st = false.

Definition recordsOk (fs : FS) : Prop :=
  forall cid m, marketFiles fs !! cid = Some (Whole m) ->
                settlementOk (Market.settlement m).

(** The market file of [cid] holds a record with [isSettled = true]. *)
Definition settledIn (fs : FS) (cid : string) : Prop :=
  exists m, marketFiles fs !! cid = Some (Whole m)
            /\ Settlement.isSettled (Market.settlement m) = true.

(** ** The trace of the loop *)

(** The markets for which a settlement was sent, in the order of the
    trace. *)
Fixpoint settledIds (evs : list Event) : list string :=
  match evs with
  | [] => []
  | SettleMarket cid _ :: rest => cid :: settledIds rest
  | _ :: rest => settledIds rest
  end.

(** The settlements of a run that ended with [r] are those of [due], one
    for each entry and in that order; a run that threw sent them for the
    first entries of [due] only. *)
Definition inOrder {A} (due : list RegistryEntry) (r : Res A)
    (evs : list Event) : Prop :=
  match r with
  | Ok _ => settledIds evs = map conditionId due
  | Throw _ => exists k, settledIds evs = firstn k (map conditionId due)
  end.

(** Every [settleMarket] of the chain is followed at once by the write of
    the file of that market. *)
Fixpoint persisted (evs : list Event) : bool :=
  match evs with
  | [] => true
  | SettleMarket cid _ :: rest =>
      match rest with
      | WriteFile (MarketPath cid') :: _ => String.eqb cid cid' && persisted rest
      | _ => false
      end
  | _ :: rest => persisted rest
  end.

(** The same for a run that ended with [r]: a run that threw may end on
    the settlement call that was rejected. *)
Definition persistedUpTo {A} (r : Res A) (evs : list Event) : Prop :=
  match r with
  | Ok _ => persisted evs = true
  | Throw _ =>
      persisted evs = true
      \/ exists body cid tokenId,
           evs = body ++ [SettleMarket cid tokenId] /\ persisted body = true
  end.

(** An entry of the index before and after a loop that completed. *)
Definition turned (now : Z) (entry entry' : RegistryEntry) : Prop :=
  if isDue now entry then exists winner, entry' = settledEntry entry winner
  else entry' = entry.

(** What a run of the loop over [markets] from [s] to [s'] does. *)
Definition loopRun {W} `{Env W} (now : Z) (markets : list RegistryEntry)
    (s : State W) (r : Res (list RegistryEntry)) (s' : State W) : Prop :=
  rtc envStep (world s) (world s')
  /\ registryFile (files s') = registryFile (files s)
  /\ (forall cid, settledIn (files s) cid -> settledIn (files s') cid)
  /\ (recordsOk (files s) -> recordsOk (files s'))
  /\ (forall markets', r = Ok markets' -> Forall2 (turned now) markets markets')
  /\ exists evs,
       emitted s s' evs
       /\ noneOf isRegistryWrite evs = true
       /\ persistedUpTo r evs
       /\ (forall cid, In (WriteFile (MarketPath cid)) evs ->
                       settledIn (files s') cid)
       /\ (forall cid tokenId, In (SettleMarket cid tokenId) evs ->
                               answeredUnresolved cid (world s))
       /\ (isThrow r = false ->
           forall entry, In entry markets -> isDue now entry = true ->
                         exists tokenId,
                           In (SettleMarket (conditionId entry) tokenId) evs).

(** ** Settlement on the chain is final

    Over the chain states [I], whatever call the scripts make keeps the
    chain in [I], and [isResolved(cid)] never answers [false] there: this
    is a chain that has [cid] resolved and does not go back on it. *)
Definition settledForGood {W} `{Env W} (cid : string) (I : W -> Prop) : Prop :=
  (forall w w', I w -> envStep w w' -> I w')
  /\ (forall w, I w -> fst (redemption_isResolved cid w) <> Fulfilled false).

(** The small chain has resolved [cid]. *)
Definition demoSettled (cid : string) (w : Chain) : Prop :=
  is_Some (assoc cid (resolved w)).

(** ** Operations on the registry *)

Inductive Operation : Type :=
| OpCreate (params : CreateMarketParams) (coll : Collateral) (rules : TradingRules)
| OpScan (decide : Market.t -> Outcome)
| OpBuy (params : TradeParams)
| OpSell (params : TradeParams)
| OpSettle (params : SettleParams)
| OpStatus (cid : string).

(** The state an operation leaves, whether it returns or throws. *)
Definition perform {W} `{Env W} (op : Operation) (s : State W) : State W :=
  match op with
  | OpCreate params coll rules => snd (createAndRecord params coll rules s)
  | OpScan decide => snd (checkAndSettleDueMarkets decide s)
  | OpBuy params => snd (buyTokens params s)
  | OpSell params => snd (sellTokens params s)
  | OpSettle params => snd (settleMarket params s)
  | OpStatus cid => snd (getSettlementStatus cid s)
  end.

(** The condition id is assigned by the chain at creation and is unique:
    a creation returns an id that has no market file yet. *)
Definition freshId {W} `{Env W} (op : Operation) (s : State W) : Prop :=
  match op with
  | OpCreate params _ _ =>
      forall result s1, createMarket params s = (Ok result, s1) ->
                        marketFiles (files s) !! r_conditionId result = None
  | _ => True
  end.

(** A run of operations, one after the other. *)
Fixpoint performAll {W} `{Env W} (ops : list Operation) (s : State W)
  : State W :=
  match ops with
  | [] => s
  | op :: rest => performAll rest (perform op s)
  end.

(** Every creation of the run returned an id that was fresh when it was
    made. *)
Fixpoint freshIds {W} `{Env W} (ops : list Operation) (s : State W) : Prop :=
  match ops with
  | [] => True
  | op :: rest => freshId op s /\ freshIds rest (perform op s)
  end.

(** ** Concrete runs

    The clock reads 2000 s.  Market [0xabc] ended at 1000 s and is due.
    Market [0xdef] ends at 3000 s. *)

Definition chain0 : Chain :=
  mkChain 2000000 [("0xabc", "1000"); ("0xdef", "3000")] [].

Definition entry0 : RegistryEntry := mkEntry "0xabc" "Q1" 1000 false None.

Definition disk0 : FS :=
  mkFS (Some (Whole [entry0]))
       {[ "0xabc" := Whole (demoRecord "0xabc" 1000 unsettled) ]}.

Definition fresh : State Chain := mkState chain0 disk0 [].

(** The state in which the process dies after the loop of the scan wrote
    the market file and before [registry.json] is written. *)
Definition crashed : State Chain := snd (scanLoop alwaysYes 2000 [entry0] fresh).

(** The state after a scan that completed. *)
Definition scanned : State Chain := snd (checkAndSettleDueMarkets alwaysYes fresh).

(** A chain that has resolved [0xdef] before its end time. *)
Definition chainEarly : Chain :=
  mkChain 2000000 [("0xdef", "3000")] [("0xdef", 1)].

(** An index with two due entries, the second without a market file. *)
Definition ghost : RegistryEntry := mkEntry "0xghost" "Q3" 1500 false None.

Definition halfway : State Chain :=
  mkState chain0
          (mkFS (Some (Whole [entry0; ghost]))
                {[ "0xabc" := Whole (demoRecord "0xabc" 1000 unsettled) ]})
          [].

(** The small chain with a creation that answers the id [0xabc] again. *)
Definition sameIdEnv : Env Chain := {|
  PRIVATE_KEY := @PRIVATE_KEY _ demoEnv;
  Date_now := @Date_now _ demoEnv;
  parseUnits := @parseUnits _ demoEnv;
  market_getMarketInfo := @market_getMarketInfo _ demoEnv;
  market_getMarketPrices := @market_getMarketPrices _ demoEnv;
  market_createMarket := fun _ w => (Fulfilled ("0xabc", "0xagain"), w);
  market_settleMarket := @market_settleMarket _ demoEnv;
  trading_getTokenId := @trading_getTokenId _ demoEnv;
  trading_buy := @trading_buy _ demoEnv;
  trading_sell := @trading_sell _ demoEnv;
  redemption_isResolved := @redemption_isResolved _ demoEnv;
  redemption_getWinningToken := @redemption_getWinningToken _ demoEnv
|}.
(** ** trade.ts: [getMarketInfo] *)

(** The [MarketInfo] that the helper of trade.ts returns. *)
Module MarketInfo.
Record t : Type := mk {
  question : string;
  endTime : string;
  isSettled : bool;
  yesPrice : string;
  noPrice : string;
  reserve : string;
  collateral : string
}.
End MarketInfo.

Section TradeInfo.

Context {W : Type} `{Env W}.

Definition getMarketInfo (conditionId : string) : M W MarketInfo.t :=
  if JS.falsy conditionId then throw ConditionIdRequired else
  let* info := await (GetMarketInfo conditionId)
                     (market_getMarketInfo conditionId) in
  let* prices := await (GetMarketPrices conditionId)
                       (market_getMarketPrices conditionId) in
  ret (MarketInfo.mk (Info.question info) (Info.endTime info)
                     (Info.isSettled info) (yesPricePercent prices)
                     (noPricePercent prices) (Info.reserve info)
                     (Info.collateral info)).

End TradeInfo.

(** ** redeem.ts and lifecycle.ts

    [client.redemption.redeem] is one more call of the client, with its
    own event and, for [redeemWinnings], one more error message.  The
    scripts above run unchanged inside the larger monad: [lift] runs them
    and files their events, in order, in the larger trace. *)

Class RedeemEnv (W : Type) : Type := {
  redemption_redeem : string -> W -> Reply string * W
}.

Inductive RedeemEvent : Type :=
| Base (ev : Event)
| Redeem (cid : string).

Inductive RedeemError : Type :=
| ScriptError (e : Error)
| NotYetSettled (question : string).
    (* "Market is not yet settled. Question: ... Cannot redeem." *)

Inductive RRes (A : Type) : Type :=
| ROk (a : A)
| RThrow (e : RedeemError).
Arguments ROk {A} a.
Arguments RThrow {A} e.

Record RState (W : Type) : Type := mkRState {
  rworld : W;
  rfiles : FS;
  rtrace : list RedeemEvent
}.
Arguments mkRState {W} rworld rfiles rtrace.
Arguments rworld {W} r.
Arguments rfiles {W} r.
Arguments rtrace {W} r.

Definition RM (W A : Type) : Type := RState W -> RRes A * RState W.

Definition rret {W A} (a : A) : RM W A := fun rs => (ROk a, rs).

Definition rthrow {W A} (e : RedeemError) : RM W A := fun rs => (RThrow e, rs).

Definition rbind {W A B} (m : RM W A) (k : A -> RM W B) : RM W B :=
  fun rs =>
    match m rs with
    | (ROk a, rs') => k a rs'
    | (RThrow e, rs') => (RThrow e, rs')
    end.

Notation "'let+' x := m 'in' k" := (rbind m (fun x => k))
  (at level 10, x name, m at level 100, k at level 200).

(** A script of the smaller monad, run from the current chain and disk. *)
Definition lift {W A} (m : M W A) : RM W A :=
  fun rs =>
    let (r, s) := m (mkState (rworld rs) (rfiles rs) []) in
    let rs' := mkRState (world s) (files s)
                        (rtrace rs ++ map Base (trace s)) in
    match r with
    | Ok a => (ROk a, rs')
    | Throw e => (RThrow (ScriptError e), rs')
    end.

Record RedeemResult : Type := mkRedeemed {
  rr_hash : string;
  rr_conditionId : string;
  rr_winner : Outcome;
  rr_question : string
}.

(** The summary that lifecycle.ts prints at the end. *)
Record Summary : Type := mkSummary {
  sum_conditionId : string;
  sum_createTx : string;
  sum_buyTx : string;
  sum_sellTx : string;
  sum_endTime : Z
}.

Section Redeem.

Context {W : Type} `{Env W} `{RedeemEnv W}.

(** [await client.redemption.redeem(conditionId)] *)
Definition awaitRedeem (cid : string) : RM W string :=
  fun rs =>
    let (r, w) := redemption_redeem cid (rworld rs) in
    let rs' := mkRState w (rfiles rs) (rtrace rs ++ [Redeem cid]) in
    match r with
    | Fulfilled a => (ROk a, rs')
    | Rejected reason => (RThrow (ScriptError (ClientRejected reason)), rs')
    end.

Definition redeemWinnings (conditionId : string) : RM W RedeemResult :=
  if JS.falsy conditionId then rthrow (ScriptError ConditionIdRequired) else
  let+ isSettled := lift (await (IsResolved conditionId)
                                (redemption_isResolved conditionId)) in
  if negb isSettled then
    let+ info := lift (await (GetMarketInfo conditionId)
                             (market_getMarketInfo conditionId)) in
    rthrow (NotYetSettled (Info.question info))
  else
  let+ info := lift (await (GetMarketInfo conditionId)
                           (market_getMarketInfo conditionId)) in
  let+ winningToken := lift (await (GetWinningToken conditionId)
                                   (redemption_getWinningToken conditionId)) in
  let+ yesTokenId := lift (await (GetTokenId conditionId "YES")
                                 (trading_getTokenId conditionId "YES")) in
  let winner := if String.eqb winningToken (bigintToString yesTokenId)
                then YES else NO in
  let+ result := awaitRedeem conditionId in
  rret (mkRedeemed result conditionId winner (Info.question info)).

(** [main] of lifecycle.ts; a result [RThrow] is the branch of [catch],
    which prints the message and exits with status 1. *)
Definition lifecycle : RM W Summary :=
  let+ _ := lift initClient in
  let+ market := lift (createMarket
      (mkCreateParams "Will ETH reach $10k by Dec 2025?" 168 "100"
                      (Some "USDC") None)) in
  let conditionId := r_conditionId market in
  let+ info := lift (getMarketInfo conditionId) in
  let+ buyResult := lift (buyTokens
      (mkTrade conditionId "YES" "10" (Some 6) None)) in
  let+ sellResult := lift (sellTokens
      (mkTrade conditionId "YES" "2" (Some 18) None)) in
  let+ status := lift (getSettlementStatus conditionId) in
  let+ _ :=
    if Status.canSettle status then
      let+ settleResult := lift (settleMarket (mkSettle conditionId "YES")) in
      let+ redeemResult := redeemWinnings conditionId in
      rret tt
    else rret tt in
  let+ endTime := lift (toISOString (r_endTime market * 1000)) in
  rret (mkSummary conditionId (r_hash market) (tr_hash buyResult)
                  (tr_hash sellResult) endTime).

End Redeem.

#[local] Instance demoRedeem : RedeemEnv Chain := {|
  redemption_redeem := fun cid w =>
    match assoc cid (resolved w) with
    | Some _ => (Fulfilled "0xredeem", w)
    | None => (Rejected "Market not settled", w)
    end
|}.

Definition isRedeem (ev : RedeemEvent) : bool :=
  match ev with Redeem _ => true | Base _ => false end.

(** The error of the first of the three opening checks of [buyTokens] and
    [sellTokens] that fails. *)
Definition tradeParamError (params : TradeParams) : Error :=
  if JS.falsy (t_conditionId params) then ConditionIdRequired
  else if outcomeInvalid (t_outcome params) then OutcomeInvalid
  else AmountNotPositive.

(** How [createMarket] resolves the collateral argument [c], with the
    explicit [decimals] if there are any: the address and the decimals of
    USDC or WETH when [c] is that symbol in any case, [c] itself with 18
    decimals when it starts with [0x]. *)
Definition resolvesTo (c : string) (explicit : option Z)
    (collateralAddress : string) (dec : Z) : Prop :=
  (JS.toUpperCase c = "USDC"
   /\ collateralAddress = "0x833589fCD6eDb6E08f4c7C32D4f71b54bdA02913"
   /\ dec = default 6 explicit)
  \/ (JS.toUpperCase c = "WETH"
      /\ collateralAddress = "0x4200000000000000000000000000000000000006"
      /\ dec = default 18 explicit)
  \/ (JS.startsWith c "0x" = true
      /\ collateralAddress = c
      /\ dec = default 18 explicit).

(** [process.env.PRIVATE_KEY] is set and not empty. *)
Definition keyPresent {W} `{Env W} : Prop :=
  exists key, PRIVATE_KEY = Some key /\ JS.falsy key = false.

(** The small chain without a private key in the environment. *)
Definition noKeyEnv : Env Chain := {|
  PRIVATE_KEY := None;
  Date_now := @Date_now _ demoEnv;
  parseUnits := @parseUnits _ demoEnv;
  market_getMarketInfo := @market_getMarketInfo _ demoEnv;
  market_getMarketPrices := @market_getMarketPrices _ demoEnv;
  market_createMarket := @market_createMarket _ demoEnv;
  market_settleMarket := @market_settleMarket _ demoEnv;
  trading_getTokenId := @trading_getTokenId _ demoEnv;
  trading_buy := @trading_buy _ demoEnv;
  trading_sell := @trading_sell _ demoEnv;
  redemption_isResolved := @redemption_isResolved _ demoEnv;
  redemption_getWinningToken := @redemption_getWinningToken _ demoEnv
|}.

(** The entries of an index keep their identity: same condition id,
    question and end time, in the same order. *)
Definition sameMarkets (markets markets' : list RegistryEntry) : Prop :=
  Forall2 (fun entry entry' =>
             conditionId entry' = conditionId entry
             /\ question entry' = question entry
             /\ endTimeUnix entry' = endTimeUnix entry
             /\ (isSettled entry = true -> entry' = entry))
          markets markets'.

(** The record that the workflow writes for a created market. *)
Definition createdRecord (result : CreateMarketResult)
    (params : CreateMarketParams) (coll : Collateral) (rules : TradingRules)
    (createdAt : Z) : Market.t :=
  Market.mk (r_conditionId result) (p_question params) createdAt
            (r_endTime result * 1000) (r_endTime result) coll
            (p_liquidity params) (r_hash result) rules
            (Settlement.mk false None None None).

(** Its row in the index. *)
Definition createdEntry (result : CreateMarketResult)
    (params : CreateMarketParams) : RegistryEntry :=
  mkEntry (r_conditionId result) (p_question params) (r_endTime result)
          false None.

(** [rwp m rs Q]: the run of [m] from [rs] ends in a result and a state
    that satisfy [Q]. *)
Definition rwp {W A} (m : RM W A) (rs : RState W)
    (Q : RRes A -> RState W -> Prop) : Prop :=
  Q (fst (m rs)) (snd (m rs)).

(** Every redemption in [evs] comes after a settlement of the same market
    in [evs]. *)
Definition settledBeforeRedeem (evs : list RedeemEvent) : Prop :=
  forall cid, In (Redeem cid) evs ->
    exists pre tokenId post,
      evs = pre ++ Base (SettleMarket cid tokenId) :: post
      /\ In (Redeem cid) post.

(** The trace grew from [rs0] to [rs] by events of the smaller scripts. *)
Definition baseSince {W} (rs0 rs : RState W) : Prop :=
  exists evs, rtrace rs = rtrace rs0 ++ map Base evs.

(** The small chain with a price read that is always rejected. *)
Definition noPricesEnv : Env Chain := {|
  PRIVATE_KEY := @PRIVATE_KEY _ demoEnv;
  Date_now := @Date_now _ demoEnv;
  parseUnits := @parseUnits _ demoEnv;
  market_getMarketInfo := @market_getMarketInfo _ demoEnv;
  market_getMarketPrices := fun _ w => (Rejected "over rate limit", w);
  market_createMarket := @market_createMarket _ demoEnv;
  market_settleMarket := @market_settleMarket _ demoEnv;
  trading_getTokenId := @trading_getTokenId _ demoEnv;
  trading_buy := @trading_buy _ demoEnv;
  trading_sell := @trading_sell _ demoEnv;
  redemption_isResolved := @redemption_isResolved _ demoEnv;
  redemption_getWinningToken := @redemption_getWinningToken _ demoEnv
|}.

(** More concrete runs: a market whose end time the client prints as a
    word, an index without its market file, a torn index, and the
    parameters of a creation. *)
Definition chainWord : Chain := mkChain 2000000 [("0xbad", "soon")] [].

Definition orphanIndex : State Chain :=
  mkState chain0 (mkFS (Some (Whole [entry0])) ∅) [].

Definition tornIndex : State Chain :=
  mkState chain0 (mkFS (Some Torn) ∅) [].

Definition params0 : CreateMarketParams :=
  mkCreateParams "Will it?" 168 "100" None None.

Definition created0 : CreateMarketResult := mkCreated "0x2" "0xcreate" 606800.

Definition buy0 : TradeParams := mkTrade "0xdef" "YES" "10" None None.

Definition rfresh : RState Chain := mkRState chain0 disk0 [].

(** ** [parseInt], [parseFloat], [toUpperCase] on examples *)

Example parseInt_decimal : JS.parseInt "1735689599" = Some 1735689599.
Proof. reflexivity. Qed.

Example parseInt_prefix : JS.parseInt "  -42abc" = Some (-42).
Proof. reflexivity. Qed.

Example parseInt_hex : JS.parseInt "0x1F" = Some 31.
Proof. reflexivity. Qed.

Example parseInt_nan : JS.parseInt "soon" = None.
Proof. reflexivity. Qed.

Example parseFloat_100 : JS.le0 (JS.parseFloat "100") = false.
Proof. reflexivity. Qed.

Example parseFloat_neg : JS.le0 (JS.parseFloat "-0.5e1") = true.
Proof. reflexivity. Qed.

Example parseFloat_zero : JS.le0 (JS.parseFloat "0.00") = true.
Proof. reflexivity. Qed.

Example parseFloat_nan : JS.parseFloat "abc" = JS.NaN.
Proof. reflexivity. Qed.

Example toUpperCase_cbETH : JS.toUpperCase "cbETH" = "CBETH".
Proof. reflexivity. Qed.

(** ** Reasoning about runs *)

Section Logic.

Context {W : Type} `{Env W}.

Lemma wp_ret {A} (a : A) (s : State W) Q : Q (Ok a) s -> wp (ret a) s Q.
Proof. exact id. Qed.

Lemma wp_throw {A} e (s : State W) (Q : Res A -> State W -> Prop) :
  Q (Throw e) s -> wp (throw e) s Q.
Proof. exact id. Qed.

Lemma wp_bind {A B} (m : M W A) (k : A -> M W B) s Q :
  wp m s (fun r s1 => match r with
                      | Ok a => wp (k a) s1 Q
                      | Throw e => Q (Throw e) s1
                      end) ->
  wp (bind m k) s Q.
Proof. unfold wp, bind. destruct (m s) as [[a|e] s1]; exact id. Qed.

Lemma wp_mono {A} (m : M W A) s (Q Q' : Res A -> State W -> Prop) :
  wp m s Q -> (forall r s1, Q r s1 -> Q' r s1) -> wp m s Q'.
Proof. unfold wp. auto. Qed.

Lemma wp_await {A} ev (call : W -> Reply A * W) s Q :
  (forall r w, call (world s) = (r, w) ->
     Q (match r with
        | Fulfilled a => Ok a
        | Rejected reason => Throw (ClientRejected reason)
        end)
       (mkState w (files s) (trace s ++ [ev]))) ->
  wp (await ev call) s Q.
Proof.
  intros HQ. unfold wp, await.
  destruct (call (world s)) as [r w] eqn:E.
  specialize (HQ r w eq_refl). destruct r; exact HQ.
Qed.

Lemma wp_nowSeconds (s : State W) Q :
  (forall ms w, Date_now (world s) = (ms, w) ->
     Q (Ok (ms / 1000)) (mkState w (files s) (trace s))) ->
  wp nowSeconds s Q.
Proof.
  intros HQ. unfold wp, nowSeconds.
  destruct (Date_now (world s)) as [ms w]. apply HQ. reflexivity.
Qed.

Lemma wp_isoNow (s : State W) Q :
  (forall ms w, Date_now (world s) = (ms, w) ->
     Q (Ok ms) (mkState w (files s) (trace s))) ->
  wp isoNow s Q.
Proof.
  intros HQ. unfold wp, isoNow.
  destruct (Date_now (world s)) as [ms w]. apply HQ. reflexivity.
Qed.

Lemma wp_readMarket cid (s : State W) Q :
  (forall m, marketFiles (files s) !! cid = Some (Whole m) -> Q (Ok m) s) ->
  (marketFiles (files s) !! cid = Some Torn ->
     Q (Throw (JsonSyntaxError (MarketPath cid))) s) ->
  (marketFiles (files s) !! cid = None ->
     Q (Throw (NoSuchFile (MarketPath cid))) s) ->
  wp (readMarket cid) s Q.
Proof.
  intros H1 H2 H3. unfold wp, readMarket.
  destruct (marketFiles (files s) !! cid) as [[|m]|] eqn:E; simpl;
    [apply H2 | apply H1 | apply H3]; reflexivity.
Qed.

Lemma wp_existsRegistry (s : State W) Q :
  Q (Ok (bool_decide (is_Some (registryFile (files s))))) s ->
  wp existsRegistry s Q.
Proof. exact id. Qed.

Lemma wp_readRegistry (s : State W) Q :
  (forall markets, registryFile (files s) = Some (Whole markets) ->
                   Q (Ok markets) s) ->
  (registryFile (files s) = Some Torn ->
     Q (Throw (JsonSyntaxError RegistryPath)) s) ->
  (registryFile (files s) = None -> Q (Throw (NoSuchFile RegistryPath)) s) ->
  wp readRegistry s Q.
Proof.
  intros H1 H2 H3. unfold wp, readRegistry.
  destruct (registryFile (files s)) as [[|markets]|] eqn:E; simpl;
    [apply H2 | apply H1 | apply H3]; reflexivity.
Qed.

Lemma wp_writeSteps p steps (s : State W) Q :
  Q (Ok tt) (mkState (world s) (runSteps steps (files s))
                     (trace s ++ [WriteFile p])) ->
  wp (writeSteps p steps) s Q.
Proof. exact id. Qed.

Lemma runSteps_writeMarket cid m fs :
  runSteps (writeMarketSteps cid m) fs = fillMarket cid m fs.
Proof.
  unfold runSteps, writeMarketSteps, fillMarket; simpl.
  by rewrite insert_insert_eq.
Qed.

Lemma runSteps_writeRegistry markets fs :
  runSteps (writeRegistrySteps markets) fs = fillRegistry markets fs.
Proof. reflexivity. Qed.

End Logic.

(** One step of a run: the rule of the head of the program. *)
Ltac wp_step :=
  lazymatch goal with
  | |- wp (bind _ _) _ _ => apply wp_bind
  | |- wp (ret _) _ _ => apply wp_ret
  | |- wp (throw _) _ _ => apply wp_throw
  | |- wp (await _ _) _ _ =>
      let r := fresh "r" in let w := fresh "w" in let E := fresh "Ecall" in
      apply wp_await; intros [r|r] w E
  | |- wp nowSeconds _ _ =>
      let ms := fresh "ms" in let w := fresh "w" in let E := fresh "Enow" in
      apply wp_nowSeconds; intros ms w E
  | |- wp isoNow _ _ =>
      let ms := fresh "ms" in let w := fresh "w" in let E := fresh "Enow" in
      apply wp_isoNow; intros ms w E
  | |- wp (readMarket _) _ _ =>
      let m := fresh "m" in let E := fresh "Efile" in
      apply wp_readMarket; [intros m E | intros E | intros E]
  | |- wp existsRegistry _ _ => apply wp_existsRegistry
  | |- wp readRegistry _ _ =>
      let l := fresh "markets" in let E := fresh "Eindex" in
      apply wp_readRegistry; [intros l E | intros E | intros E]
  | |- wp (toISOString _) _ _ => unfold toISOString
  | |- wp (writeSteps _ _) _ _ => apply wp_writeSteps
  | |- wp (writeMarket _ _) _ _ => apply wp_writeSteps
  | |- wp (writeRegistry _) _ _ => apply wp_writeSteps
  | |- wp (if ?b then _ else _) _ _ => destruct b eqn:?
  | |- wp (match ?x with _ => _ end) _ _ => destruct x eqn:?
  end.

Ltac wp_simpl :=
  cbn beta iota zeta;
  cbn [fst snd Status.isSettled Status.canSettle Status.winner
       Status.timeLeftHours Status.timeLeftMinutes].

Ltac wp_run := wp_simpl; repeat (wp_step; wp_simpl).

(** ** [createMarket]: validation *)

Lemma upperChar_not_c (a : ascii) : Ascii.eqb "c" (JS.upperChar a) = false.
Proof. destruct a as [[] [] [] [] [] [] [] []]; reflexivity. Qed.

Lemma toUpperCase_not_cbETH (c : string) :
  String.eqb "cbETH" (JS.toUpperCase c) = false.
Proof.
  destruct c as [|a c]; [reflexivity|].
  cbn [String.eqb JS.toUpperCase]. now rewrite upperChar_not_c.
Qed.

Lemma lookupToken_unknown (c : string) :
  knownSymbol c = false -> lookupToken TOKENS (JS.toUpperCase c) = None.
Proof.
  unfold knownSymbol. cbn [existsb]. intros Hk.
  apply orb_false_elim in Hk as [H1 Hk].
  apply orb_false_elim in Hk as [H2 _].
  change (JS.toUpperCase "USDC") with "USDC" in H1.
  change (JS.toUpperCase "WETH") with "WETH" in H2.
  cbn [lookupToken TOKENS].
  rewrite (String.eqb_sym "USDC"), H1, (String.eqb_sym "WETH"), H2.
  now rewrite toUpperCase_not_cbETH.
Qed.

Section CreateMarket.

Context {W : Type} `{Env W}.

Lemma falsy_empty (x : string) : JS.falsy x = true <-> x = EmptyString.
Proof. destruct x; simpl; split; congruence. Qed.

(** C7: [createMarket] refuses every invalid input (no question, a
    duration or liquidity that is not positive, a collateral that is
    neither USDC, WETH or cbETH in any case nor a [0x] address) with one of
    its validation errors, and leaves the state as it found it: the client
    is not called, [createMarket] of the chain least of all.  When the
    collateral is the only fault the error is [UnknownToken]. *)
Theorem createMarket_rejects_invalid_input (params : CreateMarketParams)
    (s : State W) :
  invalidInput params ->
  (exists e, createMarket params s = (Throw e, s) /\ validationError e = true)
  /\ (p_question params <> EmptyString -> 0 < p_durationHours params ->
      p_liquidity params <> EmptyString ->
      JS.le0 (JS.parseFloat (p_liquidity params)) = false ->
      createMarket params s = (Throw (UnknownToken (collateralOf params)), s)).
Proof.
  intros Hbad. unfold createMarket. fold (collateralOf params).
  split.
  - destruct (JS.falsy (p_question params)) eqn:Eq;
      [eexists; split; reflexivity|].
    destruct ((p_durationHours params =? 0) || (p_durationHours params <=? 0))
      eqn:Ed; [eexists; split; reflexivity|].
    destruct (JS.falsy (p_liquidity params)
              || JS.le0 (JS.parseFloat (p_liquidity params))) eqn:El;
      [eexists; split; reflexivity|].
    apply orb_false_elim in Ed as [_ Ed]. apply Z.leb_gt in Ed.
    apply orb_false_elim in El as [El1 El2].
    destruct Hbad as [Hq | [Hd | [Hl | [Hl | [Hk Hx]]]]].
    + apply falsy_empty in Hq. congruence.
    + lia.
    + apply falsy_empty in Hl. congruence.
    + congruence.
    + rewrite (lookupToken_unknown _ Hk), Hx.
      eexists; split; reflexivity.
  - intros Hq Hd Hl Hp.
    destruct (JS.falsy (p_question params)) eqn:Eq;
      [apply falsy_empty in Eq; contradiction|].
    replace ((p_durationHours params =? 0) || (p_durationHours params <=? 0))
      with false
      by (symmetry; apply orb_false_intro; [apply Z.eqb_neq | apply Z.leb_gt]; lia).
    destruct (JS.falsy (p_liquidity params)) eqn:El;
      [apply falsy_empty in El; contradiction|].
    rewrite Hp. cbn [orb].
    destruct Hbad as [Hq' | [Hd' | [Hl' | [Hl' | [Hk Hx]]]]];
      [contradiction | lia | contradiction | congruence |].
    now rewrite (lookupToken_unknown _ Hk), Hx.
Qed.

End CreateMarket.

(** Scenario E: [collateral = "DOGE"]. *)
Lemma createMarket_rejects_invalid_input_witness :
  invalidInput (mkCreateParams "Q1" 168 "100" (Some "DOGE") None)
  /\ createMarket (W := Chain)
       (mkCreateParams "Q1" 168 "100" (Some "DOGE") None)
       (mkState (mkChain 0 [] []) (mkFS None ∅) [])
     = (Throw (UnknownToken "DOGE"), mkState (mkChain 0 [] []) (mkFS None ∅) []).
Proof.
  assert (Hbad : invalidInput (mkCreateParams "Q1" 168 "100" (Some "DOGE") None))
    by (do 4 right; split; reflexivity).
  split; [exact Hbad|].
  apply (createMarket_rejects_invalid_input
           (mkCreateParams "Q1" 168 "100" (Some "DOGE") None)
           (mkState (mkChain 0 [] []) (mkFS None ∅) []) Hbad);
    cbn; [discriminate | lia | discriminate | reflexivity].
Defined.

(** The table is read at the upper-cased symbol, which no key in mixed
    case meets: [cbETH] itself is refused. *)
Example createMarket_cbETH :
  createMarket (W := Chain)
    (mkCreateParams "Q1" 168 "100" (Some "cbETH") None)
    (mkState (mkChain 0 [] []) (mkFS None ∅) [])
  = (Throw (UnknownToken "cbETH"), mkState (mkChain 0 [] []) (mkFS None ∅) []).
Proof. reflexivity. Qed.

(** ** [buyTokens], [sellTokens]: the pre-flight check *)

Lemma emitted_nil {W} (s : State W) : emitted s s [].
Proof. unfold emitted. now rewrite app_nil_r. Qed.

(** Brings the trace of the state reached to the form [trace s ++ evs]. *)
Ltac emitted_now :=
  unfold emitted; cbn [trace world files fst snd]; rewrite <- ?app_assoc;
  first [reflexivity | symmetry; apply app_nil_r].

Section Trade.

Context {W : Type} `{Env W}.

Ltac preflight_run Hinfo Hnow Hcond :=
  wp_run;
  repeat match goal with
         | E : market_getMarketInfo _ (world _) = _ |- _ =>
             cbn [world] in E; rewrite Hinfo in E; inversion E; subst; clear E
         | E : Date_now (world _) = _ |- _ =>
             cbn [world] in E; rewrite Hnow in E; inversion E; subst; clear E
         end;
  cbn beta iota zeta in *;
  try (exfalso; destruct Hcond; congruence);
  do 2 eexists; (split; [reflexivity|]);
  (split; [emitted_now|]); (split; [reflexivity|]).

Ltac trade_message Hcond :=
  let Hpass := fresh "Hpass" in
  let P1 := fresh "P" in let P2 := fresh "P" in let P3 := fresh "P" in
  cbn [fst snd]; unfold tradeParamsPass; intros Hpass;
  apply andb_prop in Hpass as [Hpass P3];
  apply andb_prop in Hpass as [P1 P2];
  apply negb_true_iff in P1, P2, P3;
  repeat match goal with
         | E : ?b = _ |- context [if ?b then _ else _] => rewrite E
         end;
  congruence.

(** C9: [buyTokens] and [sellTokens] check the market before they trade.
    When the client answers [getMarketInfo] and the clock read after it is
    at or past the end time the answer carries, or the answer says the
    market is settled, each of them throws and sends no [buy] and no
    [sell]; with parameters that pass the opening checks the message is
    "Market trading period has ended" in the first case and "Market is
    already settled" otherwise. *)
Theorem trade_preflight (params : TradeParams) (s : State W)
    (info : Info.t) (w1 w2 : W) (ms : Z) :
  market_getMarketInfo (t_conditionId params) (world s) = (Fulfilled info, w1) ->
  Date_now w1 = (ms, w2) ->
  JS.geNaN (ms / 1000) (JS.parseInt (Info.endTime info)) = true
  \/ Info.isSettled info = true ->
  let ended := JS.geNaN (ms / 1000) (JS.parseInt (Info.endTime info)) in
  refusedTrade params ended s (buyTokens params s)
  /\ refusedTrade params ended s (sellTokens params s).
Proof.
  intros Hinfo Hnow Hcond ended. subst ended.
  split.
  - change (wp (buyTokens params) s
              (fun r s' => refusedTrade params
                 (JS.geNaN (ms / 1000) (JS.parseInt (Info.endTime info)))
                 s (r, s'))).
    unfold buyTokens, refusedTrade. cbn beta iota zeta.
    preflight_run Hinfo Hnow Hcond; trade_message Hcond.
  - change (wp (sellTokens params) s
              (fun r s' => refusedTrade params
                 (JS.geNaN (ms / 1000) (JS.parseInt (Info.endTime info)))
                 s (r, s'))).
    unfold sellTokens, refusedTrade. cbn beta iota zeta.
    preflight_run Hinfo Hnow Hcond; trade_message Hcond.
Qed.

End Trade.

(** ** [settleMarket] *)

(** Closes [rtc envStep w0 w] from the equations of the calls made. *)
Ltac env_steps :=
  cbn [world] in *;
  repeat match goal with
         | E : ?f ?w = (_, ?w') |- rtc envStep _ ?w' =>
             apply rtc_r with w;
             [ clear E
             | replace w' with (snd (f w)) by (rewrite E; reflexivity);
               constructor ]
         end;
  first [apply rtc_refl | assumption | idtac].

Section Settle.

Context {W : Type} `{Env W}.

Lemma settleMarket_cases (params : SettleParams) (s : State W) :
  wp (settleMarket params) s (fun r s' =>
    files s' = files s
    /\ rtc envStep (world s) (world s')
    /\ exists evs, emitted s s' evs
                   /\ settleOutcome (s_conditionId params) (world s) r evs).
Proof.
  unfold settleMarket, getSettlementStatus.
  wp_run.
  all: cbn [files world] in *.
  all: split; [reflexivity|].
  all: split; [env_steps|].
  all: eexists; split; [emitted_now|].
  all: cbn [app].
  all: try (left; split; reflexivity).
  all: right.
  all: match goal with
       | |- exists pre tokenId, ?evs = _ /\ _ =>
           exists (removelast evs); eexists; split; [reflexivity|]
       end.
  all: split; [reflexivity|].
  all: match goal with
       | E : redemption_isResolved _ ?wq = (Fulfilled false, _) |- _ =>
           exists wq; split; [clear E; env_steps | now rewrite E]
       end.
Qed.

Lemma falsy_false (x : string) : x <> EmptyString -> JS.falsy x = false.
Proof. destruct x; simpl; congruence. Qed.

(** An entry the loop skips leaves the state alone. *)
Lemma scanEntry_not_due decide now (entry : RegistryEntry) (s : State W) :
  now < endTimeUnix entry -> scanEntry decide now entry s = (Ok entry, s).
Proof.
  intros Hlt. unfold scanEntry.
  destruct (isSettled entry); [reflexivity|].
  apply Z.gtb_lt in Hlt. now rewrite Hlt.
Qed.

Lemma scanEntry_settled decide now (entry : RegistryEntry) (s : State W) :
  isSettled entry = true -> scanEntry decide now entry s = (Ok entry, s).
Proof. intros Hs. unfold scanEntry. now rewrite Hs. Qed.

(** C6, amended: for a market that the chain reports with an end time
    strictly after the clock and as not resolved, [settleMarket] throws
    "Cannot settle yet" with the time left, after its two reads and
    without any settlement call; and the scan does not call [settleMarket]
    for an entry whose [endTimeUnix] is after [now]: it skips the entry. *)
Theorem settleMarket_not_due (params : SettleParams) (s : State W)
    (info : Info.t) (w1 w2 w3 : W) (ms endTime : Z) :
  let cid := s_conditionId params in
  cid <> EmptyString ->
  outcomeInvalid (s_outcome params) = false ->
  market_getMarketInfo cid (world s) = (Fulfilled info, w1) ->
  redemption_isResolved cid w1 = (Fulfilled false, w2) ->
  Date_now w2 = (ms, w3) ->
  JS.parseInt (Info.endTime info) = Some endTime ->
  ms / 1000 < endTime ->
  settleMarket params s
  = (Throw (CannotSettleYet
              (Some ((endTime - ms / 1000) / 3600))
              (Some (Z.rem (endTime - ms / 1000) 3600 / 60))),
     mkState w3 (files s) (trace s ++ [GetMarketInfo cid; IsResolved cid]))
  /\ forall decide now entry,
       now < endTimeUnix entry -> scanEntry decide now entry s = (Ok entry, s).
Proof.
  intros cid Hcid Hout Hinfo Hres Hnow Hend Hlt. subst cid.
  split; [|intros; now apply scanEntry_not_due].
  unfold settleMarket, getSettlementStatus.
  rewrite (falsy_false _ Hcid), Hout.
  unfold bind at 1. unfold bind at 1. unfold await at 1. rewrite Hinfo.
  unfold bind at 1. unfold await at 1. cbn [world]. rewrite Hres.
  unfold bind at 1. unfold nowSeconds at 1. cbn [world]. rewrite Hnow.
  rewrite Hend. cbn [JS.geNaN JS.ltNaN negb andb].
  apply Z.ltb_lt in Hlt as Hltb. rewrite Hltb.
  replace (endTime <=? ms / 1000) with false by (symmetry; apply Z.leb_gt; lia).
  cbn. rewrite <- app_assoc. reflexivity.
Qed.

(** What [settleMarket] does on a market the chain reports resolved: the
    four reads of [getSettlementStatus], then "Market is already settled". *)
Lemma settleMarket_resolved (params : SettleParams) (s : State W)
    (info : Info.t) (w1 w2 w3 w4 w5 : W) (ms yesId : Z) (token : string) :
  let cid := s_conditionId params in
  cid <> EmptyString ->
  outcomeInvalid (s_outcome params) = false ->
  market_getMarketInfo cid (world s) = (Fulfilled info, w1) ->
  redemption_isResolved cid w1 = (Fulfilled true, w2) ->
  Date_now w2 = (ms, w3) ->
  redemption_getWinningToken cid w3 = (Fulfilled token, w4) ->
  trading_getTokenId cid "YES" w4 = (Fulfilled yesId, w5) ->
  settleMarket params s
  = (Throw (AlreadySettled
              (Some (if String.eqb token (bigintToString yesId)
                     then YES else NO))),
     mkState w5 (files s)
             (trace s ++ [GetMarketInfo cid; IsResolved cid;
                          GetWinningToken cid; GetTokenId cid "YES"])).
Proof.
  intros cid Hcid Hout Hinfo Hres Hnow Hwin Hyes. subst cid.
  unfold settleMarket, getSettlementStatus.
  rewrite (falsy_false _ Hcid), Hout.
  unfold bind at 1. unfold bind at 1. unfold await at 1. rewrite Hinfo.
  unfold bind at 1. unfold await at 1. cbn [world]. rewrite Hres.
  unfold bind at 1. unfold nowSeconds at 1. cbn [world]. rewrite Hnow.
  unfold bind at 1. unfold await at 1. cbn [world]. rewrite Hwin.
  unfold bind at 1. unfold await at 1. cbn [world]. rewrite Hyes.
  cbn. rewrite <- !app_assoc. reflexivity.
Qed.

End Settle.

(** ** The loop of [checkAndSettleDueMarkets] *)

Section Scan.

Context {W : Type} `{Env W}.

Lemma settleDue_cases decide (entry : RegistryEntry) (s : State W) :
  wp (settleDue decide entry) s (fun r s' => dueTurn decide entry s r s').
Proof.
  unfold settleDue, dueTurn.
  wp_run.
  2-4: split; [apply rtc_refl|]; exists []; split; [apply emitted_nil|];
       left; split; [reflexivity|]; split; [reflexivity|];
       left; split; reflexivity.
  eapply wp_mono; [apply settleMarket_cases|].
  cbn [s_conditionId].
  intros [res|e] s1 (Hfiles & Hsteps & evs & Hev & Hout); cycle 1.
  - split; [assumption|]. exists evs. split; [assumption|].
    left. split; [reflexivity|]. split; [assumption|]. assumption.
  - destruct Hout as [[Hthrow _] | (pre & tok & -> & Hpre & Hans)];
      [discriminate Hthrow|].
    wp_run.
    split; [env_steps|].
    exists (pre ++ [SettleMarket (conditionId entry) tok;
                    WriteFile (MarketPath (conditionId entry))]).
    split.
    { unfold emitted in *. cbn [trace]. rewrite Hev, <- !app_assoc.
      reflexivity. }
    right. exists pre, tok, m, (sr_hash res), ms.
    split; [reflexivity|]. split; [reflexivity|]. split; [assumption|].
    split; [assumption|]. split; [assumption|].
    cbn [files]. now rewrite runSteps_writeMarket, Hfiles.
Qed.

Lemma findDue_filter (markets : list RegistryEntry) (now : Z) :
  findDue markets now = List.filter (isDue now) markets.
Proof.
  induction markets as [|entry rest IH]; [reflexivity|].
  cbn [findDue List.filter]. unfold isDue at 1.
  destruct (isSettled entry); cbn [negb andb]; [exact IH|].
  rewrite Z.gtb_ltb, Z.leb_antisym.
  destruct (now <? endTimeUnix entry); cbn [negb]; [exact IH|].
  now rewrite IH.
Qed.

(** The loop is the settlement, in turn, of the entries of [findDue]. *)
Lemma scanLoop_findDue decide now (markets : list RegistryEntry) (s : State W) :
  (let* _ := scanLoop decide now markets in ret tt) s
  = settleAll decide (findDue markets now) s.
Proof.
  revert s. induction markets as [|entry rest IH]; intros s; [reflexivity|].
  cbn [scanLoop findDue]. unfold scanEntry.
  assert (Hskip :
    (let* _ := (let* entry' := ret entry in
                let* rest' := scanLoop decide now rest in
                ret (entry' :: rest')) in ret tt) s
    = settleAll decide (findDue rest now) s).
  { rewrite <- IH. unfold bind, ret.
    destruct (scanLoop decide now rest s) as [[l|e] s1]; reflexivity. }
  destruct (isSettled entry); [exact Hskip|].
  destruct (endTimeUnix entry >? now); [exact Hskip|].
  cbn [settleAll]. unfold bind at 1 2 4.
  destruct (settleDue decide entry s) as [[entry'|e] s1]; [|reflexivity].
  rewrite <- IH. unfold bind, ret.
  destruct (scanLoop decide now rest s1) as [[l|e] s2]; reflexivity.
Qed.

(** C3: the entries that the scan takes up are exactly the entries of the
    index that are not settled and whose [endTimeUnix] is at most [now],
    each as often as the index holds it and in the order of the index; and
    the loop of the scan is the settlement of those entries, one after the
    other. *)
Theorem findDue_exact (markets : list RegistryEntry) (now : Z) :
  findDue markets now = List.filter (isDue now) markets
  /\ (forall entry, In entry (findDue markets now) <->
        In entry markets /\ isSettled entry = false
        /\ endTimeUnix entry <= now)
  /\ (forall decide (s : State W),
        (let* _ := scanLoop decide now markets in ret tt) s
        = settleAll decide (findDue markets now) s).
Proof.
  split; [apply findDue_filter|]. split.
  - intros entry. rewrite findDue_filter, filter_In. unfold isDue.
    rewrite andb_true_iff, negb_true_iff, Z.leb_le. tauto.
  - intros decide s. apply scanLoop_findDue.
Qed.

(** *** Traces *)

Lemma reads_In (evs : list Event) (ev : Event) :
  forallb isChainRead evs = true -> In ev evs -> isChainRead ev = true.
Proof. intros Hall Hin. now apply (proj1 (forallb_forall _ _) Hall). Qed.

Lemma reads_no_registry_write (evs : list Event) :
  forallb isChainRead evs = true -> noneOf isRegistryWrite evs = true.
Proof.
  intros Hall. apply forallb_forall. intros ev Hin.
  apply (reads_In _ _ Hall) in Hin. now destruct ev.
Qed.

Lemma persisted_reads (pre l : list Event) :
  forallb isChainRead pre = true -> persisted (pre ++ l) = persisted l.
Proof.
  induction pre as [|ev pre IH]; [reflexivity|].
  cbn [forallb]. intros [Hev Hpre]%andb_prop.
  destruct ev; try discriminate Hev; cbn [app persisted]; auto.
Qed.

Lemma persisted_app (a b : list Event) :
  persisted a = true -> persisted (a ++ b) = persisted b.
Proof.
  induction a as [|ev a IH]; [reflexivity|].
  intros Ha.
  destruct ev; cbn [app persisted] in *; try (apply IH; exact Ha).
  destruct a as [|[| | | | | | | | |[|cid']] a']; try discriminate Ha.
  apply andb_prop in Ha as [Heq Ha].
  cbn [app]. rewrite Heq. cbn [andb]. apply IH. exact Ha.
Qed.

Lemma persisted_block (pre : list Event) cid tokenId :
  forallb isChainRead pre = true ->
  persisted (pre ++ [SettleMarket cid tokenId; WriteFile (MarketPath cid)])
  = true.
Proof.
  intros Hpre. rewrite (persisted_reads _ _ Hpre). cbn.
  now rewrite String.eqb_refl.
Qed.

(** *** Files *)

Lemma settledIn_fill cid m txHash winner at_ fs :
  settledIn (fillMarket cid (settledRecord m txHash winner at_) fs) cid.
Proof.
  eexists. split; [cbn; apply lookup_insert_eq | reflexivity].
Qed.

Lemma settledIn_fill_mono cid m txHash winner at_ fs c :
  settledIn fs c ->
  settledIn (fillMarket cid (settledRecord m txHash winner at_) fs) c.
Proof.
  intros Hc. destruct (decide (c = cid)) as [->|Hne];
    [apply settledIn_fill|].
  destruct Hc as (m0 & Hm0 & Hs). exists m0. split; [|exact Hs].
  cbn. now rewrite lookup_insert_ne.
Qed.

Lemma recordsOk_fill cid m txHash winner at_ fs :
  recordsOk fs ->
  recordsOk (fillMarket cid (settledRecord m txHash winner at_) fs).
Proof.
  intros Hok c m0. cbn.
  destruct (decide (cid = c)) as [->|Hne].
  - rewrite lookup_insert_eq. intros [= <-].
    unfold settlementOk; cbn. split; discriminate.
  - rewrite lookup_insert_ne by exact Hne. apply Hok.
Qed.

(** *** The loop, turn by turn *)

Lemma isDue_guards now (entry : RegistryEntry) :
  isDue now entry
  = negb (isSettled entry) && negb (endTimeUnix entry >? now).
Proof. unfold isDue. now rewrite Z.gtb_ltb, Z.leb_antisym. Qed.

Lemma answeredUnresolved_earlier cid (w w1 : W) :
  rtc envStep w w1 -> answeredUnresolved cid w1 -> answeredUnresolved cid w.
Proof.
  intros Hsteps (wq & Hq & Hans). exists wq. split; [|exact Hans].
  now apply rtc_trans with w1.
Qed.

Lemma loopRun_nil now (s : State W) : loopRun now [] s (Ok []) s.
Proof.
  unfold loopRun. split; [apply rtc_refl|]. split; [reflexivity|].
  split; [auto|]. split; [auto|].
  split; [intros ? [= <-]; constructor|].
  exists []. split; [apply emitted_nil|]. split; [reflexivity|].
  split; [reflexivity|]. split; [intros ? []|]. split; [intros ? ? []|].
  intros _ ? [].
Qed.

Lemma loopRun_skip now entry rest (s s' : State W) r :
  isDue now entry = false ->
  loopRun now rest s r s' ->
  loopRun now (entry :: rest) s
          (match r with Ok l => Ok (entry :: l) | Throw e => Throw e end) s'.
Proof.
  intros Hdue (Hsteps & Hreg & Hmono & Hok & Hres & evs & Hev & Hnone & Hpers
               & Hwrites & Hans & Hall).
  unfold loopRun. do 4 (split; [assumption|]).
  split.
  { intros markets' Hr. destruct r as [l|e]; [|discriminate Hr].
    injection Hr as <-. constructor; [|now apply Hres].
    unfold turned. now rewrite Hdue. }
  exists evs. split; [assumption|]. split; [assumption|].
  split; [now destruct r|]. split; [assumption|]. split; [assumption|].
  intros Hr e [<-|Hin] He; [congruence|].
  apply Hall; [now destruct r | assumption | assumption].
Qed.

Lemma loopRun_abort decide now entry rest (s s1 : State W) e :
  dueTurn decide entry s (Throw e) s1 ->
  loopRun now (entry :: rest) s (Throw e) s1.
Proof.
  intros (Hsteps & evs & Hev & Hcases).
  destruct Hcases as [(_ & Hfiles & Hout) | (? & ? & ? & ? & ? & Hr & _)];
    [|discriminate Hr].
  unfold loopRun. split; [assumption|]. rewrite Hfiles.
  split; [reflexivity|]. split; [auto|]. split; [auto|].
  split; [intros ? [=]|].
  exists evs. split; [assumption|].
  destruct Hout as [[_ Hreads] | (pre & tok & -> & Hpre & Hans)].
  - split; [now apply reads_no_registry_write|].
    split; [left; rewrite <- (app_nil_r evs); now rewrite persisted_reads|].
    split; [intros c Hin; now apply (reads_In _ _ Hreads) in Hin|].
    split; [intros c t Hin; now apply (reads_In _ _ Hreads) in Hin|].
    intros [=].
  - split.
    { pose proof (reads_no_registry_write _ Hpre) as Hn.
      unfold noneOf in *. rewrite forallb_app, Hn. reflexivity. }
    split.
    { right. exists pre, (conditionId entry), tok. split; [reflexivity|].
      rewrite <- (app_nil_r pre). now rewrite persisted_reads. }
    split.
    { intros c [Hin|[Hin|[]]]%in_app_or;
        [now apply (reads_In _ _ Hpre) in Hin | discriminate Hin]. }
    split.
    { intros c t [Hin|[Hin|[]]]%in_app_or;
        [now apply (reads_In _ _ Hpre) in Hin|].
      injection Hin as <- _. exact Hans. }
    intros [=].
Qed.

Lemma loopRun_settle decide now entry entry' rest (s s1 s' : State W) r :
  isDue now entry = true ->
  dueTurn decide entry s (Ok entry') s1 ->
  loopRun now rest s1 r s' ->
  loopRun now (entry :: rest) s
          (match r with Ok l => Ok (entry' :: l) | Throw e => Throw e end) s'.
Proof.
  intros Hdue (Hsteps1 & evs1 & Hev1 & Hcases)
         (Hsteps & Hreg & Hmono & Hok & Hres & evs & Hev & Hnone & Hpers
          & Hwrites & Hans & Hall).
  destruct Hcases as [(Hthrow & _) |
    (pre & tok & m & txHash & at_ & Hr & -> & Hpre & Hans1 & Hm & Hfiles)];
    [discriminate Hthrow|].
  injection Hr as ->.
  assert (Hblock := persisted_block pre (conditionId entry) tok Hpre).
  unfold loopRun.
  split; [now apply rtc_trans with (world s1)|].
  split; [rewrite Hreg, Hfiles; reflexivity|].
  split.
  { intros c Hc. apply Hmono. rewrite Hfiles. now apply settledIn_fill_mono. }
  split.
  { intros Hs. apply Hok. rewrite Hfiles. now apply recordsOk_fill. }
  split.
  { intros markets' Hr. destruct r as [l|e]; [|discriminate Hr].
    injection Hr as <-. constructor; [|now apply Hres].
    unfold turned. rewrite Hdue. now exists (decide m). }
  exists ((pre ++ [SettleMarket (conditionId entry) tok;
                   WriteFile (MarketPath (conditionId entry))]) ++ evs).
  split.
  { unfold emitted in *. rewrite Hev, Hev1. now rewrite <- !app_assoc. }
  split.
  { pose proof (reads_no_registry_write _ Hpre) as Hn.
    unfold noneOf in *. rewrite !forallb_app, Hn, Hnone. reflexivity. }
  split.
  { destruct r as [l|e]; cbn [persistedUpTo] in *.
    - now rewrite persisted_app.
    - destruct Hpers as [Hp | (body & c & t & -> & Hbody)].
      + left. now rewrite persisted_app.
      + right. eexists _, c, t. split; [apply app_assoc|].
        now rewrite persisted_app. }
  split.
  { intros c [[Hin|[Hin|[Hin|[]]]]%in_app_or | Hin]%in_app_or.
    - now apply (reads_In _ _ Hpre) in Hin.
    - discriminate Hin.
    - injection Hin as <-. apply Hmono. rewrite Hfiles. apply settledIn_fill.
    - now apply Hwrites. }
  split.
  { intros c t [[Hin|[Hin|[Hin|[]]]]%in_app_or | Hin]%in_app_or.
    - now apply (reads_In _ _ Hpre) in Hin.
    - injection Hin as <- _. exact Hans1.
    - discriminate Hin.
    - apply answeredUnresolved_earlier with (world s1); [assumption|].
      now apply Hans with t. }
  intros Hr e [<-|Hin] He.
  - exists tok. apply in_or_app. left. apply in_or_app. right. now left.
  - destruct (Hall ltac:(now destruct r) e Hin He) as [t Ht].
    exists t. apply in_or_app. now right.
Qed.

Lemma scanLoop_run decide now (markets : list RegistryEntry) (s : State W) :
  wp (scanLoop decide now markets) s (loopRun now markets s).
Proof.
  revert s. induction markets as [|entry rest IH]; intros s.
  { apply wp_ret, loopRun_nil. }
  cbn [scanLoop]. apply wp_bind. unfold scanEntry.
  pose proof (isDue_guards now entry) as Hdue.
  destruct (isSettled entry) eqn:Hset;
    [|destruct (endTimeUnix entry >? now) eqn:Hend]; cbn in Hdue.
  1-2: apply wp_ret, wp_bind;
       eapply wp_mono; [apply IH|];
       intros r s' Hrun;
       apply (loopRun_skip now entry rest s s' r Hdue) in Hrun;
       destruct r; [apply wp_ret|]; exact Hrun.
  eapply wp_mono; [apply settleDue_cases|].
  intros [entry'|e] s1 Hturn.
  - apply wp_bind. eapply wp_mono; [apply IH|].
    intros r s' Hrun.
    apply (loopRun_settle decide now entry entry' rest s s1 s' r Hdue Hturn)
      in Hrun.
    destruct r; [apply wp_ret|]; exact Hrun.
  - now apply loopRun_abort with decide.
Qed.

(** *** The whole scan *)

(** The scan over an index that is on the disk: the client could not be
    made, or the loop ran and the index was written if the loop completed. *)
Lemma scan_run decide (s : State W) (markets : list RegistryEntry) :
  registryFile (files s) = Some (Whole markets) ->
  let s0 := mkState (snd (Date_now (world s))) (files s) (trace s) in
  let now := fst (Date_now (world s)) / 1000 in
  checkAndSettleDueMarkets decide s = (Throw PrivateKeyRequired, s0)
  \/ exists rl s1,
       loopRun now markets s0 rl s1
       /\ checkAndSettleDueMarkets decide s
          = match rl with
            | Throw e => (Throw e, s1)
            | Ok markets' =>
                (Ok tt, mkState (world s1) (fillRegistry markets' (files s1))
                                (trace s1 ++ [WriteFile RegistryPath]))
            end.
Proof.
  intros Hreg s0 now.
  pose proof (scanLoop_run decide now markets s0) as Hrun. unfold wp in Hrun.
  remember (checkAndSettleDueMarkets decide s) as run eqn:Erun.
  unfold checkAndSettleDueMarkets, bind, existsRegistry, readRegistry,
    nowSeconds, initClient, writeRegistry, writeSteps in Erun.
  rewrite Hreg in Erun.
  rewrite bool_decide_eq_true_2 in Erun by (eexists; reflexivity).
  cbn beta iota zeta delta [negb] in Erun. rewrite Hreg in Erun.
  cbn beta iota zeta in Erun.
  subst s0 now. destruct (Date_now (world s)) as [ms w]. cbn [fst snd] in *.
  unfold throw, ret in Erun.
  destruct PRIVATE_KEY as [key|]; [destruct (JS.falsy key)|];
    try (left; exact Erun).
  right. cbn beta iota zeta in Erun.
  destruct (scanLoop decide (ms / 1000) markets
              (mkState w (files s) (trace s))) as [[l|e] s1];
    eexists _, s1; (split; [exact Hrun|]); exact Erun.
Qed.

Lemma scan_no_index decide (s : State W) :
  registryFile (files s) = None ->
  checkAndSettleDueMarkets decide s = (Ok tt, s).
Proof.
  intros Hreg. unfold checkAndSettleDueMarkets, bind, existsRegistry.
  rewrite Hreg. reflexivity.
Qed.

Lemma scan_torn_index decide (s : State W) :
  registryFile (files s) = Some Torn ->
  checkAndSettleDueMarkets decide s = (Throw (JsonSyntaxError RegistryPath), s).
Proof.
  intros Hreg. unfold checkAndSettleDueMarkets, bind, existsRegistry, readRegistry.
  rewrite Hreg. cbn. rewrite Hreg. reflexivity.
Qed.

Lemma settledIn_fillRegistry markets fs cid :
  settledIn (fillRegistry markets fs) cid <-> settledIn fs cid.
Proof. reflexivity. Qed.

(** *** The order of the settlements *)

Lemma settledIds_app (a b : list Event) :
  settledIds (a ++ b) = settledIds a ++ settledIds b.
Proof.
  induction a as [|ev a IH]; [reflexivity|].
  destruct ev; cbn [app settledIds]; now rewrite IH.
Qed.

Lemma settledIds_reads (evs : list Event) :
  forallb isChainRead evs = true -> settledIds evs = [].
Proof.
  induction evs as [|ev evs IH]; [reflexivity|].
  cbn [forallb]. intros [Hev Hevs]%andb_prop.
  destruct ev; try discriminate Hev; cbn [settledIds]; auto.
Qed.

Lemma settleAll_order decide (due : list RegistryEntry) (s : State W) :
  wp (settleAll decide due) s (fun r s' =>
    exists evs, emitted s s' evs /\ inOrder due r evs).
Proof.
  revert s. induction due as [|entry rest IH]; intros s.
  { apply wp_ret. exists []. split; [apply emitted_nil|reflexivity]. }
  cbn [settleAll]. apply wp_bind.
  eapply wp_mono; [apply settleDue_cases|].
  intros [entry'|e] s1 (_ & evs & Hev & Hcases).
  - destruct Hcases as [(Hthrow & _) |
      (pre & tok & m & txHash & at_ & _ & -> & Hpre & _)];
      [discriminate Hthrow|].
    eapply wp_mono; [apply IH|].
    intros r s' (evs' & Hev' & Hids).
    exists ((pre ++ [SettleMarket (conditionId entry) tok;
                     WriteFile (MarketPath (conditionId entry))]) ++ evs').
    split; [unfold emitted in *; now rewrite Hev', Hev, <- !app_assoc|].
    unfold inOrder in *.
    rewrite !settledIds_app, (settledIds_reads _ Hpre).
    cbn [settledIds app map].
    destruct r as [[]|e].
    + now rewrite Hids.
    + destruct Hids as [k ->]. now exists (S k).
  - destruct Hcases as [(_ & _ & Hout) | (? & ? & ? & ? & ? & Hr & _)];
      [|discriminate Hr].
    exists evs. split; [assumption|].
    destruct Hout as [[_ Hreads] | (pre & tok & -> & Hpre & _)].
    + exists 0%nat. now apply settledIds_reads.
    + exists 1%nat. rewrite settledIds_app, (settledIds_reads _ Hpre).
      reflexivity.
Qed.

Lemma scanLoop_order decide now (markets : list RegistryEntry) (s : State W) :
  wp (scanLoop decide now markets) s (fun r s' =>
    exists evs, emitted s s' evs /\ inOrder (findDue markets now) r evs).
Proof.
  pose proof (scanLoop_findDue decide now markets s) as Hlink.
  pose proof (settleAll_order decide (findDue markets now) s) as Horder.
  unfold wp in *. rewrite <- Hlink in Horder. unfold bind, ret in Horder.
  destruct (scanLoop decide now markets s) as [[l|e] s1]; exact Horder.
Qed.

Lemma emitted_same (s s' : State W) (evs evs' : list Event) :
  emitted s s' evs -> emitted s s' evs' -> evs = evs'.
Proof.
  unfold emitted. intros -> Heq. now apply app_inv_head in Heq.
Qed.

(** A settlement in a trace where every settlement is persisted has the
    write of its market file right behind it. *)
Lemma persisted_In (evs : list Event) cid tokenId :
  persisted evs = true ->
  In (SettleMarket cid tokenId) evs ->
  exists pre post,
    evs = pre ++ SettleMarket cid tokenId :: WriteFile (MarketPath cid) :: post.
Proof.
  induction evs as [|ev evs IH]; [intros _ []|].
  intros Hp [->|Hin].
  - cbn [persisted] in Hp.
    destruct evs as [|[| | | | | | | | |[|cid']] post]; try discriminate Hp.
    apply andb_prop in Hp as [Heq _]. apply String.eqb_eq in Heq as <-.
    now exists [], post.
  - assert (Hrest : persisted evs = true).
    { destruct ev; cbn [persisted] in Hp; try exact Hp.
      destruct evs as [|[| | | | | | | | |[|cid']] post]; try discriminate Hp.
      now apply andb_prop in Hp as [_ Hp]. }
    destruct (IH Hrest Hin) as (pre & post & ->).
    now exists (ev :: pre), post.
Qed.

(** The scan over an index on the disk, with the order of its
    settlements. *)
Lemma scan_run_order decide (s : State W) (markets : list RegistryEntry) :
  registryFile (files s) = Some (Whole markets) ->
  let s0 := mkState (snd (Date_now (world s))) (files s) (trace s) in
  let now := fst (Date_now (world s)) / 1000 in
  checkAndSettleDueMarkets decide s = (Throw PrivateKeyRequired, s0)
  \/ exists rl s1,
       loopRun now markets s0 rl s1
       /\ (exists evs, emitted s0 s1 evs
                       /\ inOrder (findDue markets now) rl evs)
       /\ checkAndSettleDueMarkets decide s
          = match rl with
            | Throw e => (Throw e, s1)
            | Ok markets' =>
                (Ok tt, mkState (world s1) (fillRegistry markets' (files s1))
                                (trace s1 ++ [WriteFile RegistryPath]))
            end.
Proof.
  intros Hreg s0 now.
  pose proof (scanLoop_run decide now markets s0) as Hrun. unfold wp in Hrun.
  pose proof (scanLoop_order decide now markets s0) as Hord.
  unfold wp in Hord.
  remember (checkAndSettleDueMarkets decide s) as run eqn:Erun.
  unfold checkAndSettleDueMarkets, bind, existsRegistry, readRegistry,
    nowSeconds, initClient, writeRegistry, writeSteps in Erun.
  rewrite Hreg in Erun.
  rewrite bool_decide_eq_true_2 in Erun by (eexists; reflexivity).
  cbn beta iota zeta delta [negb] in Erun. rewrite Hreg in Erun.
  cbn beta iota zeta in Erun.
  subst s0 now. destruct (Date_now (world s)) as [ms w]. cbn [fst snd] in *.
  unfold throw, ret in Erun.
  destruct PRIVATE_KEY as [key|]; [destruct (JS.falsy key)|];
    try (left; exact Erun).
  right. cbn beta iota zeta in Erun.
  destruct (scanLoop decide (ms / 1000) markets
              (mkState w (files s) (trace s))) as [[l|e] s1];
    eexists _, s1; (split; [exact Hrun|]); (split; [exact Hord|]); exact Erun.
Qed.


(** *** A market the chain has resolved *)

Lemma final_reach cid (I : W -> Prop) (w w' : W) :
  settledForGood cid I -> I w -> rtc envStep w w' -> I w'.
Proof.
  intros [Hstep _] Hw Hsteps. induction Hsteps; [assumption|].
  apply IHHsteps. now apply Hstep with x.
Qed.

Lemma final_not_answered cid (I : W -> Prop) (w : W) :
  settledForGood cid I -> I w -> ~ answeredUnresolved cid w.
Proof.
  intros Hfinal Hw (wq & Hq & Hans).
  apply (proj2 Hfinal wq); [|exact Hans].
  now apply (final_reach cid I w).
Qed.

Lemma no_settle_of cid (w : W) (evs : list Event) :
  ~ answeredUnresolved cid w ->
  (forall c tokenId, In (SettleMarket c tokenId) evs -> answeredUnresolved c w) ->
  noneOf (isSettleOf cid) evs = true.
Proof.
  intros Hno Hans. apply forallb_forall. intros ev Hin.
  destruct ev; try reflexivity. cbn.
  destruct (String.eqb_spec cid0 cid) as [->|]; [|reflexivity].
  exfalso. apply Hno. now apply Hans with tokenId.
Qed.

Lemma settleMarket_final cid (I : W -> Prop) (params : SettleParams)
    (s : State W) :
  settledForGood cid I -> s_conditionId params = cid -> I (world s) ->
  let run := settleMarket params s in
  isThrow (fst run) = true
  /\ exists evs, emitted s (snd run) evs /\ forallb isChainRead evs = true.
Proof.
  intros Hfinal Hcid Hw run. subst run.
  destruct (settleMarket_cases params s) as (_ & _ & evs & Hev & Hout).
  destruct Hout as [[Hthrow Hreads] | (pre & tok & _ & _ & Hans)].
  - split; [assumption|]. now exists evs.
  - exfalso. rewrite Hcid in Hans.
    now apply (final_not_answered cid I (world s)).
Qed.

Lemma loop_final cid (I : W -> Prop) now markets (s s' : State W) r :
  settledForGood cid I -> I (world s) ->
  loopRun now markets s r s' ->
  I (world s')
  /\ registryFile (files s') = registryFile (files s)
  /\ (settledIn (files s) cid -> settledIn (files s') cid)
  /\ (exists evs, emitted s s' evs
                  /\ noneOf (isSettleOf cid) evs = true
                  /\ noneOf isRegistryWrite evs = true)
  /\ (forall entry, In entry markets -> conditionId entry = cid ->
                    isDue now entry = true -> isThrow r = true).
Proof.
  intros Hfinal Hw (Hsteps & Hreg & Hmono & _ & _ & evs & Hev & Hnone & _ & _
                    & Hans & Hall).
  pose proof (final_not_answered cid I (world s) Hfinal Hw) as Hno.
  pose proof (no_settle_of cid (world s) evs Hno Hans) as Hnos.
  split; [now apply (final_reach cid I (world s))|].
  split; [assumption|]. split; [apply Hmono|].
  split; [now exists evs|].
  intros entry Hin Hcid Hdue.
  destruct (isThrow r) eqn:Hr; [reflexivity|exfalso].
  destruct (Hall eq_refl entry Hin Hdue) as [tok Htok].
  apply (proj1 (forallb_forall _ _) Hnos) in Htok.
  cbn in Htok. rewrite Hcid, String.eqb_refl in Htok. discriminate Htok.
Qed.

(** No scan settles again a market the chain has resolved, and the chain
    still has it resolved afterwards. *)
Lemma scan_final cid (I : W -> Prop) decide (s : State W) :
  settledForGood cid I -> I (world s) ->
  let run := checkAndSettleDueMarkets decide s in
  I (world (snd run))
  /\ exists evs, emitted s (snd run) evs
                 /\ noneOf (isSettleOf cid) evs = true.
Proof.
  intros Hfinal Hw run. subst run.
  destruct (registryFile (files s)) as [[|markets]|] eqn:Hreg.
  - rewrite (scan_torn_index decide s Hreg). cbn [snd].
    split; [assumption|]. exists []. split; [apply emitted_nil|reflexivity].
  - assert (Hw0 : I (snd (Date_now (world s))))
      by (apply (proj1 Hfinal (world s)); [assumption|constructor]).
    destruct (scan_run decide s markets Hreg) as [-> | (rl & s1 & Hrun & ->)].
    { cbn [snd world]. split; [assumption|]. exists [].
      split; [unfold emitted; cbn [trace]; now rewrite app_nil_r|reflexivity]. }
    apply (loop_final cid I) in Hrun as (Hw1 & _ & _ & (evs & Hev & Hnos & _) & _);
      [|assumption|assumption].
    unfold emitted in Hev. cbn [trace] in Hev.
    destruct rl as [markets'|e]; cbn [snd world].
    + split; [assumption|]. exists (evs ++ [WriteFile RegistryPath]).
      split; [unfold emitted; cbn [trace]; now rewrite Hev, app_assoc|].
      unfold noneOf in *. now rewrite forallb_app, Hnos.
    + split; [assumption|]. now exists evs.
  - rewrite (scan_no_index decide s Hreg). cbn [snd].
    split; [assumption|]. exists []. split; [apply emitted_nil|reflexivity].
Qed.



(** *** [registry.json]: append and save *)

(** C2, amended: the registry update after a creation never fails on a
    condition id that the index already holds.  It pushes the new entry
    at the end of the index, or of an empty index when there is no file,
    and writes the index back: every entry that was there stays in place
    unchanged, so nothing is overwritten, and an id can come to be in the
    index twice. *)
Theorem updateRegistry_pushes (result : CreateMarketResult)
    (marketRecord : Market.t) (s : State W) (markets : list RegistryEntry) :
  registryFile (files s) = Some (Whole markets)
  \/ (registryFile (files s) = None /\ markets = []) ->
  updateRegistry result marketRecord s
  = (Ok tt,
     mkState (world s)
       (fillRegistry
          (markets ++ [mkEntry (r_conditionId result)
                               (Market.question marketRecord)
                               (r_endTime result) false None])
          (files s))
       (trace s ++ [WriteFile RegistryPath])).
Proof.
  intros Hreg.
  unfold updateRegistry, bind, existsRegistry, readRegistry, ret,
    writeRegistry, writeSteps.
  destruct Hreg as [Hreg | [Hreg ->]]; rewrite Hreg.
  - rewrite bool_decide_eq_true_2 by (eexists; reflexivity).
    cbn beta iota zeta. rewrite Hreg. reflexivity.
  - reflexivity.
Qed.

(** C5, amended: the index is saved in place by one [fs.writeFileSync],
    with no temporary file and no atomic replace.  A process that dies
    before the call leaves the old index, one that dies after it the new
    index, and one that dies between the truncation and the text leaves a
    torn [registry.json], which [JSON.parse] rejects; the market files are
    not touched. *)
Theorem writeRegistry_crash (markets : list RegistryEntry) (fs : FS) (k : nat) :
  let fs' := crashAfter k (writeRegistrySteps markets) fs in
  marketFiles fs' = marketFiles fs
  /\ ((k = 0%nat /\ registryFile fs' = registryFile fs)
      \/ (k = 1%nat /\ registryFile fs' = Some Torn)
      \/ ((2 <= k)%nat /\ registryFile fs' = Some (Whole markets)))
  /\ (forall s : State W,
        files (snd (writeRegistry markets s))
        = crashAfter 2 (writeRegistrySteps markets) (files s)).
Proof.
  cbn zeta. split; [|split].
  - destruct k as [|[|[|k]]]; reflexivity.
  - destruct k as [|[|[|k]]]; [left | right; left | right; right ..];
      (split; [lia || reflexivity | reflexivity]).
  - reflexivity.
Qed.

(** *** Market records across the operations *)

Lemma wp_eqn {A} (m : M W A) (s : State W) (Q : Res A -> State W -> Prop) :
  (forall r s1, m s = (r, s1) -> Q r s1) -> wp m s Q.
Proof. intros HQ. unfold wp. destruct (m s) as [r s1]. now apply HQ. Qed.

Lemma buyTokens_files params (s : State W) :
  files (snd (buyTokens params s)) = files s.
Proof.
  change (wp (buyTokens params) s (fun _ s' => files s' = files s)).
  unfold buyTokens, parseUnitsOrThrow. wp_run; reflexivity.
Qed.

Lemma sellTokens_files params (s : State W) :
  files (snd (sellTokens params s)) = files s.
Proof.
  change (wp (sellTokens params) s (fun _ s' => files s' = files s)).
  unfold sellTokens, parseUnitsOrThrow. wp_run; reflexivity.
Qed.

Lemma getSettlementStatus_files cid (s : State W) :
  files (snd (getSettlementStatus cid s)) = files s.
Proof.
  change (wp (getSettlementStatus cid) s (fun _ s' => files s' = files s)).
  unfold getSettlementStatus. wp_run; reflexivity.
Qed.

Lemma settleMarket_files params (s : State W) :
  files (snd (settleMarket params s)) = files s.
Proof. apply (settleMarket_cases params s). Qed.

Lemma createMarket_files params (s : State W) :
  files (snd (createMarket params s)) = files s.
Proof.
  change (wp (createMarket params) s (fun _ s' => files s' = files s)).
  unfold createMarket, submitMarket, parseUnitsOrThrow. wp_run; reflexivity.
Qed.

Lemma writeMarketRecord_files result questionText coll liquidity rules
    (s : State W) :
  wp (writeMarketRecord result questionText coll liquidity rules) s
     (fun r s' =>
        match r with
        | Ok m =>
            Market.settlement m = Settlement.mk false None None None
            /\ marketFiles (files s')
               = <[r_conditionId result := Whole m]> (marketFiles (files s))
        | Throw _ => files s' = files s
        end).
Proof.
  unfold writeMarketRecord. wp_run; try reflexivity.
  split; [reflexivity|]. cbn [files]. now rewrite runSteps_writeMarket.
Qed.

Lemma updateRegistry_marketFiles result m (s : State W) :
  wp (updateRegistry result m) s
     (fun _ s' => marketFiles (files s') = marketFiles (files s)).
Proof. unfold updateRegistry. wp_run; reflexivity. Qed.

(** The market files after the workflow of a creation: as before, or with
    the file of the new market, whose record is not settled. *)
Lemma createAndRecord_files params coll rules (s : State W) :
  let s' := snd (createAndRecord params coll rules s) in
  marketFiles (files s') = marketFiles (files s)
  \/ exists result s1 m,
       createMarket params s = (Ok result, s1)
       /\ Market.settlement m = Settlement.mk false None None None
       /\ marketFiles (files s')
          = <[r_conditionId result := Whole m]> (marketFiles (files s)).
Proof.
  cbn zeta.
  change (wp (createAndRecord params coll rules) s (fun _ s' =>
    marketFiles (files s') = marketFiles (files s)
    \/ exists result s1 m,
         createMarket params s = (Ok result, s1)
         /\ Market.settlement m = Settlement.mk false None None None
         /\ marketFiles (files s')
            = <[r_conditionId result := Whole m]> (marketFiles (files s)))).
  unfold createAndRecord, initClient.
  wp_run; try (left; reflexivity).
  all: apply wp_eqn; intros [result|e] s1 Hcreate.
  all: pose proof (createMarket_files params s) as Hfiles;
       rewrite Hcreate in Hfiles; cbn [snd] in Hfiles.
  all: try (left; now rewrite Hfiles).
  all: apply wp_bind; eapply wp_mono; [apply writeMarketRecord_files|].
  all: intros [m|e] s2 Hrec; [|left; now rewrite Hrec, Hfiles].
  all: destruct Hrec as [Hunsettled Hrec].
  all: apply wp_bind; eapply wp_mono; [apply updateRegistry_marketFiles|].
  all: intros [[]|e] s3 Hupd; [apply wp_ret|].
  all: right; exists result, s1, m; (split; [exact Hcreate|]);
       (split; [exact Hunsettled|]); now rewrite Hupd, Hrec, Hfiles.
Qed.

(** Every operation keeps [winner] null exactly when [isSettled] is
    false, in every record. *)
Lemma perform_recordsOk op (s : State W) :
  recordsOk (files s) -> recordsOk (files (perform op s)).
Proof.
  destruct op as [params coll rules|decide|params|params|params|cid];
    cbn [perform].
  - destruct (createAndRecord_files params coll rules s)
      as [Hsame | (result & s1 & m & Hcreate & Hm & Hnew)].
    + unfold recordsOk. now rewrite Hsame.
    + unfold recordsOk. rewrite Hnew. intros Hok c m0.
      destruct (decide (r_conditionId result = c)) as [->|Hne].
      * rewrite lookup_insert_eq. intros [= <-]. rewrite Hm.
        unfold settlementOk. cbn. tauto.
      * rewrite lookup_insert_ne by exact Hne. apply Hok.
  - destruct (registryFile (files s)) as [[|markets]|] eqn:Hreg.
    + now rewrite (scan_torn_index decide s Hreg).
    + destruct (scan_run decide s markets Hreg)
        as [-> | (rl & s1 & Hrun & ->)]; [cbn [snd files]; auto|].
      destruct Hrun as (_ & _ & _ & Hok & _).
      cbn [files] in *. destruct rl; cbn [snd files]; auto.
    + now rewrite (scan_no_index decide s Hreg).
  - now rewrite buyTokens_files.
  - now rewrite sellTokens_files.
  - now rewrite settleMarket_files.
  - now rewrite getSettlementStatus_files.
Qed.

(** A settled record stays settled under every operation but a creation
    that is answered with the id of that record. *)
Lemma perform_settledIn op (s : State W) cid :
  settledIn (files s) cid ->
  settledIn (files (perform op s)) cid
  \/ (exists params coll rules result s1,
        op = OpCreate params coll rules
        /\ createMarket params s = (Ok result, s1)
        /\ r_conditionId result = cid).
Proof.
  intros Hcid.
  destruct op as [params coll rules|decide|params|params|params|c];
    cbn [perform].
  - destruct (createAndRecord_files params coll rules s)
      as [Hsame | (result & s1 & m & Hcreate & Hm & Hnew)].
    + left. unfold settledIn. now rewrite Hsame.
    + destruct (decide (r_conditionId result = cid)) as [Heq|Hne].
      * right. now exists params, coll, rules, result, s1.
      * left. destruct Hcid as (m0 & Hm0 & Hs). exists m0.
        split; [|exact Hs]. rewrite Hnew. now rewrite lookup_insert_ne.
  - left. destruct (registryFile (files s)) as [[|markets]|] eqn:Hreg.
    + now rewrite (scan_torn_index decide s Hreg).
    + destruct (scan_run decide s markets Hreg)
        as [-> | (rl & s1 & Hrun & ->)]; [cbn [snd files]; auto|].
      destruct Hrun as (_ & _ & Hmono & _).
      cbn [files] in *. destruct rl; cbn [snd files];
        [apply settledIn_fillRegistry|]; now apply Hmono.
    + now rewrite (scan_no_index decide s Hreg).
  - left. now rewrite buyTokens_files.
  - left. now rewrite sellTokens_files.
  - left. now rewrite settleMarket_files.
  - left. now rewrite getSettlementStatus_files.
Qed.

Lemma performAll_app (ops1 ops2 : list Operation) (s : State W) :
  performAll (ops1 ++ ops2) s = performAll ops2 (performAll ops1 s).
Proof.
  revert s. induction ops1 as [|op ops1 IH]; intros s; [reflexivity|].
  cbn [app performAll]. apply IH.
Qed.

Lemma performAll_recordsOk (ops : list Operation) (s : State W) :
  recordsOk (files s) -> recordsOk (files (performAll ops s)).
Proof.
  revert s. induction ops as [|op ops IH]; intros s Hok; [exact Hok|].
  cbn [performAll]. now apply IH, perform_recordsOk.
Qed.

Lemma performAll_settledIn (ops : list Operation) (s : State W) cid :
  freshIds ops s ->
  settledIn (files s) cid -> settledIn (files (performAll ops s)) cid.
Proof.
  revert s. induction ops as [|op ops IH]; intros s Hfresh Hcid; [exact Hcid|].
  destruct Hfresh as [Hop Hrest]. cbn [performAll]. apply IH; [exact Hrest|].
  destruct (perform_settledIn op s cid Hcid)
    as [Hkept | (params & coll & rules & result & s1 & -> & Hcreate & <-)];
    [exact Hkept|].
  destruct Hcid as (m & Hm & _).
  rewrite (Hop result s1 Hcreate) in Hm. discriminate Hm.
Qed.

(** C8: across the operations of the repository (the workflow of a
    creation, the scan, the trade and settle scripts), whatever ids the
    chain answers, every market record on the disk keeps [winner] null
    exactly when [isSettled] is false.  A record that is settled at some
    point of a run is settled at every later point, so that [isSettled]
    goes from false to true once and never back, when the creations that
    follow are answered with ids that have no market file yet.  One
    operation alone keeps every settled record settled unless it is a
    creation answered with the id of that record. *)
Theorem records_settle_once (ops1 ops2 : list Operation) (s : State W) :
  recordsOk (files s) ->
  recordsOk (files (performAll ops1 s))
  /\ (freshIds ops2 (performAll ops1 s) ->
      forall cid, settledIn (files (performAll ops1 s)) cid ->
                  settledIn (files (performAll (ops1 ++ ops2) s)) cid)
  /\ (forall op cid,
        settledIn (files s) cid ->
        settledIn (files (perform op s)) cid
        \/ (exists params coll rules result s1,
              op = OpCreate params coll rules
              /\ createMarket params s = (Ok result, s1)
              /\ r_conditionId result = cid)).
Proof.
  intros Hok. split; [now apply performAll_recordsOk|]. split.
  - intros Hfresh cid Hcid. rewrite performAll_app.
    now apply performAll_settledIn.
  - intros op cid. apply perform_settledIn.
Qed.

End Scan.

(** ** The scripts on the small chain *)

Lemma demo_settled_cons cid c tokenId (w : Chain) :
  demoSettled cid w ->
  demoSettled cid (mkChain (clock w) (known w) ((c, tokenId) :: resolved w)).
Proof.
  unfold demoSettled. cbn [resolved assoc].
  destruct (String.eqb c cid); [eauto|auto].
Qed.

Lemma demo_final (cid : string) : settledForGood cid (demoSettled cid).
Proof.
  split.
  - intros w w' Hw Hstep.
    destruct Hstep; cbn [snd Date_now market_getMarketInfo
      market_getMarketPrices market_createMarket market_settleMarket
      trading_getTokenId trading_buy trading_sell redemption_isResolved
      redemption_getWinningToken demoEnv]; try exact Hw.
    + unfold demoInfo. destruct (assoc cid0 (known w)); exact Hw.
    + unfold demoSettle.
      destruct (assoc cid0 (known w)); [|exact Hw].
      destruct (assoc cid0 (resolved w)); [exact Hw|].
      now apply demo_settled_cons.
    + destruct (assoc cid0 (resolved w)); exact Hw.
  - intros w Hw. cbn. unfold demoSettled in Hw.
    rewrite bool_decide_eq_true_2 by exact Hw. discriminate.
Qed.

(** Scenario A and the order of the index. *)
Example updateRegistry_first :
  registryFile
    (files (snd (updateRegistry (mkCreated "0xabc" "0xcreate" 1000)
                   (demoRecord "0xabc" 1000 unsettled)
                   (mkState chain0 (mkFS None ∅) []))))
  = Some (Whole [entry0]).
Proof. reflexivity. Qed.

(** Scenario B. *)
Example findDue_scenario :
  findDue [entry0] 2000 = [entry0]
  /\ findDue [settledEntry entry0 YES] 2000 = []
  /\ findDue [mkEntry "0xdef" "Q2" 3000 false None] 2000 = [].
Proof. repeat split. Qed.



(** C2 as stated fails: the id [0xabc] is in the index and the update
    succeeds, after which the index holds it twice. *)
Lemma updateRegistry_pushes_counterexample :
  registryFile (files fresh) = Some (Whole [entry0])
  /\ fst (updateRegistry (mkCreated "0xabc" "0xagain" 5000)
            (demoRecord "0xabc" 5000 unsettled) fresh) = Ok tt
  /\ registryFile
       (files (snd (updateRegistry (mkCreated "0xabc" "0xagain" 5000)
                      (demoRecord "0xabc" 5000 unsettled) fresh)))
     = Some (Whole [entry0; mkEntry "0xabc" "Q1" 5000 false None]).
Proof. repeat split. Qed.

Lemma updateRegistry_pushes_witness :
  registryFile (files fresh) = Some (Whole [entry0])
  /\ updateRegistry (mkCreated "0x1" "0xcreate" 5000)
       (demoRecord "0x1" 5000 unsettled) fresh
     = (Ok tt,
        mkState chain0
          (fillRegistry [entry0; mkEntry "0x1" "Q1" 5000 false None] disk0)
          [WriteFile RegistryPath]).
Proof.
  split; [reflexivity|].
  apply (updateRegistry_pushes (mkCreated "0x1" "0xcreate" 5000)
           (demoRecord "0x1" 5000 unsettled) fresh [entry0]).
  left. reflexivity.
Defined.



(** C5 as stated fails: a process that dies inside the write leaves a torn
    index, which the next scan cannot read. *)
Lemma writeRegistry_crash_counterexample :
  registryFile disk0 = Some (Whole [entry0])
  /\ registryFile
       (crashAfter 1 (writeRegistrySteps [settledEntry entry0 YES]) disk0)
     = Some Torn
  /\ fst (checkAndSettleDueMarkets alwaysYes
            (mkState chain0
               (crashAfter 1 (writeRegistrySteps [settledEntry entry0 YES])
                           disk0) []))
     = Throw (JsonSyntaxError RegistryPath).
Proof. repeat split. Qed.

(** C6 as stated fails: the end time 3000 is after the clock 2000, and
    [settleMarket] answers "Market is already settled", because the chain
    reports the market resolved. *)
Lemma settleMarket_not_due_counterexample :
  JS.parseInt "3000" = Some 3000
  /\ fst (settleMarket (mkSettle "0xdef" "YES") (mkState chainEarly disk0 []))
     = Throw (AlreadySettled (Some YES))
  /\ forall hours minutes,
       fst (settleMarket (mkSettle "0xdef" "YES") (mkState chainEarly disk0 []))
       <> Throw (CannotSettleYet hours minutes).
Proof. repeat split. intros hours minutes. discriminate. Qed.

(** Scenario D. *)
Lemma settleMarket_not_due_witness :
  settleMarket (mkSettle "0xdef" "YES") fresh
  = (Throw (CannotSettleYet (Some 0) (Some 16)),
     mkState chain0 disk0 [GetMarketInfo "0xdef"; IsResolved "0xdef"]).
Proof.
  apply (settleMarket_not_due (mkSettle "0xdef" "YES") fresh
           (Info.mk "Q" "3000" false
                    "0x833589fCD6eDb6E08f4c7C32D4f71b54bdA02913" "100")
           chain0 chain0 chain0 2000000 3000);
    [discriminate | reflexivity | reflexivity | reflexivity | reflexivity
    | reflexivity | reflexivity].
Defined.

(** C8 as stated fails: a creation that the chain answers with the id
    of a settled market writes its record anew, with [isSettled] false. *)
Lemma records_settle_once_counterexample :
  settledIn (files scanned) "0xabc"
  /\ fst (@createAndRecord Chain sameIdEnv params0 usdc demoRules scanned)
     = Ok (mkCreated "0xabc" "0xagain" 606800)
  /\ ~ settledIn
         (files (@perform Chain sameIdEnv (OpCreate params0 usdc demoRules)
                   scanned))
         "0xabc".
Proof.
  split; [eexists; split; reflexivity|]. split; [reflexivity|].
  intros (m & Hm & Hs). vm_compute in Hm. injection Hm as <-.
  discriminate Hs.
Qed.

Lemma records_settle_once_witness :
  recordsOk (files fresh)
  /\ freshIds [OpCreate params0 usdc demoRules; OpScan alwaysYes] scanned
  /\ recordsOk (files scanned)
  /\ settledIn
       (files (performAll [OpScan alwaysYes; OpCreate params0 usdc demoRules;
                           OpScan alwaysYes] fresh))
       "0xabc".
Proof.
  assert (Hok : recordsOk (files fresh)).
  { intros cid m Hm. cbn [fresh files disk0 marketFiles] in Hm.
    apply lookup_singleton_Some in Hm as [_ [= <-]].
    unfold settlementOk. cbn. tauto. }
  assert (Hfresh : freshIds [OpCreate params0 usdc demoRules; OpScan alwaysYes]
                            scanned).
  { split; [|split; exact I].
    intros result s1 Hcreate. apply (f_equal fst) in Hcreate.
    vm_compute in Hcreate. injection Hcreate as <-. reflexivity. }
  assert (Hset : settledIn (files scanned) "0xabc")
    by (eexists; split; reflexivity).
  destruct (records_settle_once [OpScan alwaysYes]
              [OpCreate params0 usdc demoRules; OpScan alwaysYes] fresh Hok)
    as (Hok' & Hkeep & _).
  split; [exact Hok|]. split; [exact Hfresh|]. split; [exact Hok'|].
  exact (Hkeep Hfresh "0xabc" Hset).
Defined.

Lemma trade_preflight_witness :
  refusedTrade (mkTrade "0xabc" "YES" "10" None None) true fresh
               (buyTokens (mkTrade "0xabc" "YES" "10" None None) fresh)
  /\ refusedTrade (mkTrade "0xabc" "YES" "10" None None) true fresh
                  (sellTokens (mkTrade "0xabc" "YES" "10" None None) fresh).
Proof.
  apply (trade_preflight (mkTrade "0xabc" "YES" "10" None None) fresh
           (Info.mk "Q" "1000" false
                    "0x833589fCD6eDb6E08f4c7C32D4f71b54bdA02913" "100")
           chain0 chain0 2000000);
    [reflexivity | reflexivity | left; reflexivity].
Defined.



(** * More of the scripts *)

(** ** trade.ts *)

Section TradeMore.

Context {W : Type} `{Env W}.

(** X1: [getMarketInfo] of trade.ts only reads.  It never touches the
    disk.  On an empty condition id it throws "conditionId is required"
    without any call.  Otherwise it asks the client [getMarketInfo] and,
    when that is answered, [getMarketPrices] on the chain as the first
    call left it: it returns exactly when both are answered, joining the
    two answers, and when one of them is rejected it throws the reason of
    that rejection, after that call and no other. *)
Theorem getMarketInfo_reads (cid : string) (s : State W) :
  let run := getMarketInfo cid s in
  files (snd run) = files s
  /\ match fst run with
     | Ok mi =>
         cid <> EmptyString
         /\ exists info prices w1,
              market_getMarketInfo cid (world s) = (Fulfilled info, w1)
              /\ market_getMarketPrices cid w1 = (Fulfilled prices, world (snd run))
              /\ emitted s (snd run) [GetMarketInfo cid; GetMarketPrices cid]
              /\ mi = MarketInfo.mk (Info.question info) (Info.endTime info)
                        (Info.isSettled info) (yesPricePercent prices)
                        (noPricePercent prices) (Info.reserve info)
                        (Info.collateral info)
     | Throw e =>
         (cid = EmptyString /\ e = ConditionIdRequired /\ (snd run) = s)
         \/ (cid <> EmptyString
             /\ exists reason,
                  e = ClientRejected reason
                  /\ ((market_getMarketInfo cid (world s)
                       = (Rejected reason, world (snd run))
                       /\ emitted s (snd run) [GetMarketInfo cid])
                      \/ (exists info w1,
                            market_getMarketInfo cid (world s)
                            = (Fulfilled info, w1)
                            /\ market_getMarketPrices cid w1
                               = (Rejected reason, world (snd run))
                            /\ emitted s (snd run)
                                 [GetMarketInfo cid; GetMarketPrices cid])))
     end
  /\ (cid <> EmptyString ->
      forall info prices w1 w2,
        market_getMarketInfo cid (world s) = (Fulfilled info, w1) ->
        market_getMarketPrices cid w1 = (Fulfilled prices, w2) ->
        run = (Ok (MarketInfo.mk (Info.question info) (Info.endTime info)
                     (Info.isSettled info) (yesPricePercent prices)
                     (noPricePercent prices) (Info.reserve info)
                     (Info.collateral info)),
               mkState w2 (files s)
                 (trace s ++ [GetMarketInfo cid; GetMarketPrices cid]))).
Proof.
  cbn zeta. apply and_assoc. split.
  - change (wp (getMarketInfo cid) s (fun r s' =>
    files s' = files s
    /\ match r with
       | Ok mi =>
           cid <> EmptyString
           /\ exists info prices w1,
                market_getMarketInfo cid (world s) = (Fulfilled info, w1)
                /\ market_getMarketPrices cid w1 = (Fulfilled prices, world s')
                /\ emitted s s' [GetMarketInfo cid; GetMarketPrices cid]
                /\ mi = MarketInfo.mk (Info.question info) (Info.endTime info)
                          (Info.isSettled info) (yesPricePercent prices)
                          (noPricePercent prices) (Info.reserve info)
                          (Info.collateral info)
       | Throw e =>
           (cid = EmptyString /\ e = ConditionIdRequired /\ s' = s)
           \/ (cid <> EmptyString
               /\ exists reason,
                    e = ClientRejected reason
                    /\ ((market_getMarketInfo cid (world s)
                         = (Rejected reason, world s')
                         /\ emitted s s' [GetMarketInfo cid])
                        \/ (exists info w1,
                              market_getMarketInfo cid (world s)
                              = (Fulfilled info, w1)
                              /\ market_getMarketPrices cid w1
                                 = (Rejected reason, world s')
                              /\ emitted s s'
                                   [GetMarketInfo cid; GetMarketPrices cid])))
       end)).
    unfold getMarketInfo. wp_run; (split; [reflexivity|]).
    + left. apply falsy_empty in Heqb. auto.
    + right. split; [intros ->; discriminate Heqb|].
      exists r. split; [reflexivity|]. left. cbn [world].
      split; [assumption | emitted_now].
    + right. split; [intros ->; discriminate Heqb|].
      exists r0. split; [reflexivity|]. right. exists r, w. cbn [world].
      split; [assumption|]. split; [assumption | emitted_now].
    + split; [intros ->; discriminate Heqb|].
      exists r, r0, w. cbn [world] in *.
      split; [assumption|]. split; [assumption|].
      split; [emitted_now | reflexivity].
  - intros Hcid info prices w1 w2 Hinfo Hprices.
    unfold getMarketInfo. rewrite (falsy_false cid Hcid).
    unfold bind, await, ret. rewrite Hinfo. cbn [world files trace].
    rewrite Hprices. cbn [files trace]. now rewrite <- app_assoc.
Qed.

(** X2: [buyTokens] and [sellTokens] refuse bad parameters before they
    call anything.  With an empty condition id, an outcome other than
    YES and NO, or an amount that is empty or at most 0, both throw the
    message of the first check that fails and leave chain, disk and trace
    as they were. *)
Theorem trade_rejects_invalid_params (params : TradeParams) (s : State W) :
  tradeParamsPass params = false ->
  buyTokens params s = (Throw (tradeParamError params), s)
  /\ sellTokens params s = (Throw (tradeParamError params), s).
Proof.
  unfold tradeParamsPass, tradeParamError, buyTokens, sellTokens.
  cbn zeta. intros Hbad.
  destruct (JS.falsy (t_conditionId params)); [split; reflexivity|].
  destruct (outcomeInvalid (t_outcome params)); [split; reflexivity|].
  destruct (JS.falsy (t_amount params)
            || JS.le0 (JS.parseFloat (t_amount params)));
    [split; reflexivity | discriminate Hbad].
Qed.

(** X3: a trade that returns sent exactly one order.  When [buyTokens]
    returns, what it added to the trace is [getMarketInfo], one [buy] and
    [getMarketPrices], in that order; the amount is the argument scaled by
    [decimals] (6 when absent) and the minimum output is scaled by 18.
    [sellTokens] is the same with one [sell], 18 for the amount and 6 for
    the minimum output.  The result repeats the outcome and the amount. *)
Theorem trade_sends_one_order (params : TradeParams) (s : State W) :
  (forall res, fst (buyTokens params s) = Ok res ->
     exists amountWei minOutWei,
       parseUnits (t_amount params) (default 6 (t_decimals params))
       = Some amountWei
       /\ parseUnits (default "0" (t_minOut params)) 18 = Some minOutWei
       /\ emitted s (snd (buyTokens params s))
            [GetMarketInfo (t_conditionId params);
             Buy (t_conditionId params) amountWei (t_outcome params) minOutWei;
             GetMarketPrices (t_conditionId params)]
       /\ tr_action res = buy /\ tr_outcome res = t_outcome params
       /\ tr_amount res = t_amount params)
  /\ (forall res, fst (sellTokens params s) = Ok res ->
        exists amountWei minOutWei,
          parseUnits (t_amount params) (default 18 (t_decimals params))
          = Some amountWei
          /\ parseUnits (default "0" (t_minOut params)) 6 = Some minOutWei
          /\ emitted s (snd (sellTokens params s))
               [GetMarketInfo (t_conditionId params);
                Sell (t_conditionId params) amountWei (t_outcome params)
                     minOutWei;
                GetMarketPrices (t_conditionId params)]
          /\ tr_action res = sell /\ tr_outcome res = t_outcome params
          /\ tr_amount res = t_amount params).
Proof.
  split.
  - change (wp (buyTokens params) s (fun r s' =>
      forall res, r = Ok res ->
        exists amountWei minOutWei,
          parseUnits (t_amount params) (default 6 (t_decimals params))
          = Some amountWei
          /\ parseUnits (default "0" (t_minOut params)) 18 = Some minOutWei
          /\ emitted s s'
               [GetMarketInfo (t_conditionId params);
                Buy (t_conditionId params) amountWei (t_outcome params)
                    minOutWei;
                GetMarketPrices (t_conditionId params)]
          /\ tr_action res = buy /\ tr_outcome res = t_outcome params
          /\ tr_amount res = t_amount params)).
    unfold buyTokens, parseUnitsOrThrow. wp_run; intros res Hres;
      try discriminate Hres.
    injection Hres as <-. eexists _, _.
    split; [reflexivity|]. split; [reflexivity|].
    split; [emitted_now|]. repeat split.
  - change (wp (sellTokens params) s (fun r s' =>
      forall res, r = Ok res ->
        exists amountWei minOutWei,
          parseUnits (t_amount params) (default 18 (t_decimals params))
          = Some amountWei
          /\ parseUnits (default "0" (t_minOut params)) 6 = Some minOutWei
          /\ emitted s s'
               [GetMarketInfo (t_conditionId params);
                Sell (t_conditionId params) amountWei (t_outcome params)
                     minOutWei;
                GetMarketPrices (t_conditionId params)]
          /\ tr_action res = sell /\ tr_outcome res = t_outcome params
          /\ tr_amount res = t_amount params)).
    unfold sellTokens, parseUnitsOrThrow. wp_run; intros res Hres;
      try discriminate Hres.
    injection Hres as <-. eexists _, _.
    split; [reflexivity|]. split; [reflexivity|].
    split; [emitted_now|]. repeat split.
Qed.

Lemma tradeParamsPass_true (params : TradeParams) :
  tradeParamsPass params = true ->
  JS.falsy (t_conditionId params) = false
  /\ outcomeInvalid (t_outcome params) = false
  /\ JS.falsy (t_amount params) || JS.le0 (JS.parseFloat (t_amount params))
     = false.
Proof.
  unfold tradeParamsPass.
  intros [[H1 H2]%andb_prop H3]%andb_prop.
  now rewrite !negb_true_iff in *.
Qed.

(** X4: a trade can have gone through when the script throws.  When the
    client fulfils [buy] and then rejects the price read that follows it,
    [buyTokens] throws that rejection: the order is in the trace and the
    chain is in the state after it.  The same holds for [sellTokens]. *)
Theorem trade_throws_after_order (params : TradeParams) (s : State W)
    (info : Info.t) (w1 w2 w3 w4 : W) (ms amountWei minOutWei : Z)
    (txHash reason : string) :
  let cid := t_conditionId params in
  tradeParamsPass params = true ->
  market_getMarketInfo cid (world s) = (Fulfilled info, w1) ->
  Date_now w1 = (ms, w2) ->
  JS.geNaN (ms / 1000) (JS.parseInt (Info.endTime info)) = false ->
  Info.isSettled info = false ->
  market_getMarketPrices cid w3 = (Rejected reason, w4) ->
  (parseUnits (t_amount params) (default 6 (t_decimals params))
   = Some amountWei ->
   parseUnits (default "0" (t_minOut params)) 18 = Some minOutWei ->
   trading_buy cid amountWei (t_outcome params) minOutWei w2
   = (Fulfilled txHash, w3) ->
   buyTokens params s
   = (Throw (ClientRejected reason),
      mkState w4 (files s)
        (trace s ++ [GetMarketInfo cid;
                     Buy cid amountWei (t_outcome params) minOutWei;
                     GetMarketPrices cid])))
  /\ (parseUnits (t_amount params) (default 18 (t_decimals params))
      = Some amountWei ->
      parseUnits (default "0" (t_minOut params)) 6 = Some minOutWei ->
      trading_sell cid amountWei (t_outcome params) minOutWei w2
      = (Fulfilled txHash, w3) ->
      sellTokens params s
      = (Throw (ClientRejected reason),
         mkState w4 (files s)
           (trace s ++ [GetMarketInfo cid;
                        Sell cid amountWei (t_outcome params) minOutWei;
                        GetMarketPrices cid]))).
Proof.
  intros cid Hpass Hinfo Hnow Hend Hset Hprices. subst cid.
  apply tradeParamsPass_true in Hpass as (P1 & P2 & P3).
  split; intros Ha Hm Horder.
  - unfold buyTokens. cbn zeta. rewrite P1, P2, P3.
    unfold bind at 1. unfold await at 1. rewrite Hinfo.
    unfold bind at 1. unfold nowSeconds at 1. cbn [world]. rewrite Hnow.
    rewrite Hend, Hset.
    unfold bind at 1. unfold parseUnitsOrThrow at 1. rewrite Ha.
    unfold ret at 1.
    unfold bind at 1. unfold parseUnitsOrThrow at 1. rewrite Hm.
    unfold ret at 1.
    unfold bind at 1. unfold await at 1. cbn [world]. rewrite Horder.
    unfold bind at 1. unfold await at 1. cbn [world]. rewrite Hprices.
    cbn [files trace]. rewrite <- !app_assoc. reflexivity.
  - unfold sellTokens. cbn zeta. rewrite P1, P2, P3.
    unfold bind at 1. unfold await at 1. rewrite Hinfo.
    unfold bind at 1. unfold nowSeconds at 1. cbn [world]. rewrite Hnow.
    rewrite Hend, Hset.
    unfold bind at 1. unfold parseUnitsOrThrow at 1. rewrite Ha.
    unfold ret at 1.
    unfold bind at 1. unfold parseUnitsOrThrow at 1. rewrite Hm.
    unfold ret at 1.
    unfold bind at 1. unfold await at 1. cbn [world]. rewrite Horder.
    unfold bind at 1. unfold await at 1. cbn [world]. rewrite Hprices.
    cbn [files trace]. rewrite <- !app_assoc. reflexivity.
Qed.

(** X5: an end time that [parseInt] cannot read ([NaN]) closes the market
    for settlement and leaves it open for trade.  [settleMarket] on such a
    market, not resolved, throws "Cannot settle yet" with no time left to
    name, whatever the clock reads; the pre-flight check of [buyTokens]
    passes it, whatever the clock reads, and the order is sent. *)
Theorem unparsable_end_time (cid : string) (s : State W) (info : Info.t)
    (w1 : W) :
  cid <> EmptyString ->
  market_getMarketInfo cid (world s) = (Fulfilled info, w1) ->
  JS.parseInt (Info.endTime info) = None ->
  (forall outcome w2 w3 ms,
      outcomeInvalid outcome = false ->
      redemption_isResolved cid w1 = (Fulfilled false, w2) ->
      Date_now w2 = (ms, w3) ->
      settleMarket (mkSettle cid outcome) s
      = (Throw (CannotSettleYet None None),
         mkState w3 (files s) (trace s ++ [GetMarketInfo cid; IsResolved cid])))
  /\ (forall params w2 ms amountWei minOutWei,
        t_conditionId params = cid ->
        tradeParamsPass params = true ->
        Info.isSettled info = false ->
        Date_now w1 = (ms, w2) ->
        parseUnits (t_amount params) (default 6 (t_decimals params))
        = Some amountWei ->
        parseUnits (default "0" (t_minOut params)) 18 = Some minOutWei ->
        In (Buy cid amountWei (t_outcome params) minOutWei)
           (trace (snd (buyTokens params s)))).
Proof.
  intros Hcid Hinfo Hnan. split.
  - intros outcome w2 w3 ms Hout Hres Hnow.
    unfold settleMarket, getSettlementStatus. cbn [s_conditionId s_outcome].
    rewrite (falsy_false _ Hcid), Hout.
    unfold bind at 1. unfold bind at 1. unfold await at 1. rewrite Hinfo.
    unfold bind at 1. unfold await at 1. cbn [world]. rewrite Hres.
    unfold bind at 1. unfold nowSeconds at 1. cbn [world]. rewrite Hnow.
    rewrite Hnan. cbn. rewrite <- app_assoc. reflexivity.
  - intros params w2 ms amountWei minOutWei <- Hpass Hset Hnow Ha Hm.
    apply tradeParamsPass_true in Hpass as (P1 & P2 & P3).
    unfold buyTokens. cbn zeta. rewrite P1, P2, P3.
    unfold bind at 1. unfold await at 1. rewrite Hinfo.
    unfold bind at 1. unfold nowSeconds at 1. cbn [world]. rewrite Hnow.
    rewrite Hnan, Hset. cbn [JS.geNaN].
    unfold bind at 1. unfold parseUnitsOrThrow at 1. rewrite Ha.
    unfold ret at 1.
    unfold bind at 1. unfold parseUnitsOrThrow at 1. rewrite Hm.
    unfold ret at 1.
    unfold bind at 1. unfold await at 1. cbn [world files trace].
    destruct (trading_buy _ _ _ _ w2) as [[reason|txHash] w3].
    + cbn [snd trace]. apply in_or_app. right. now left.
    + unfold bind at 1. unfold await at 1. cbn [world files trace].
      destruct (market_getMarketPrices _ w3) as [[reason|prices] w4];
        cbn [snd trace]; apply in_or_app; left; apply in_or_app; right;
        now left.
Qed.

End TradeMore.

(** ** settle.ts *)

Section SettleMore.

Context {W : Type} `{Env W}.

Lemma time_left_bounds (e now : Z) :
  now < e ->
  let remaining := e - now in
  let h := remaining / 3600 in
  let m := Z.rem remaining 3600 / 60 in
  0 <= h /\ 0 <= m < 60
  /\ h * 3600 + m * 60 <= remaining < h * 3600 + m * 60 + 60.
Proof.
  intros Hlt. cbn zeta.
  rewrite Z.rem_mod_nonneg by lia.
  pose proof (Z.div_mod (e - now) 3600 ltac:(lia)) as Hd.
  pose proof (Z.mod_pos_bound (e - now) 3600 ltac:(lia)) as Hb.
  pose proof (Z.div_mod ((e - now) mod 3600) 60 ltac:(lia)) as Hd'.
  pose proof (Z.mod_pos_bound ((e - now) mod 3600) 60 ltac:(lia)) as Hb'.
  assert (0 <= (e - now) / 3600) by (apply Z.div_pos; lia).
  assert (0 <= (e - now) mod 3600 / 60) by (apply Z.div_pos; lia).
  lia.
Qed.

(** X6: the status that [getSettlementStatus] returns, after reads only
    and with the disk untouched.  It repeats the question and the end
    time of the market as [getMarketInfo] answered it and the answer of
    [isResolved], and has one of four shapes.  Settled: the market cannot
    be settled and the winner is YES exactly when the winning token is the
    decimal text of the YES token id.  Due: not settled, [canSettle], the
    end time at or before the clock that was read after the two answers.
    Waiting: not settled, not [canSettle], the end time after that clock,
    and the time left from that clock to the end time in hours and
    minutes, with minutes below 60 and the two together at most one minute
    short of what is left.  Unreadable end time: not settled, not
    [canSettle], nothing else. *)
Theorem getSettlementStatus_shapes (cid : string) (s : State W) (st : Status.t) :
  fst (getSettlementStatus cid s) = Ok st ->
  files (snd (getSettlementStatus cid s)) = files s
  /\ (exists evs, emitted s (snd (getSettlementStatus cid s)) evs /\ forallb isChainRead evs = true)
  /\ exists info resolved w1 w2 ms w3,
       market_getMarketInfo cid (world s) = (Fulfilled info, w1)
       /\ redemption_isResolved cid w1 = (Fulfilled resolved, w2)
       /\ Date_now w2 = (ms, w3)
       /\ Status.question st = Info.question info
       /\ Status.endTime st = JS.parseInt (Info.endTime info)
       /\ Status.isSettled st = resolved
       /\ let now := ms / 1000 in
          (resolved = true /\ Status.canSettle st = false
           /\ (exists token yesId w4,
                 redemption_getWinningToken cid w3 = (Fulfilled token, w4)
                 /\ trading_getTokenId cid "YES" w4
                    = (Fulfilled yesId, world (snd (getSettlementStatus cid s)))
                 /\ Status.winner st
                    = Some (if String.eqb token (bigintToString yesId)
                            then YES else NO))
           /\ Status.timeLeftHours st = None
           /\ Status.timeLeftMinutes st = None)
          \/ (resolved = false /\ Status.winner st = None
              /\ world (snd (getSettlementStatus cid s)) = w3
              /\ ((Status.canSettle st = true
                   /\ (exists e, Status.endTime st = Some e /\ e <= now)
                   /\ Status.timeLeftHours st = None
                   /\ Status.timeLeftMinutes st = None)
                  \/ (Status.canSettle st = false
                      /\ exists e h m,
                           Status.endTime st = Some e /\ now < e
                           /\ Status.timeLeftHours st = Some h
                           /\ Status.timeLeftMinutes st = Some m
                           /\ 0 <= h /\ 0 <= m < 60
                           /\ h * 3600 + m * 60 <= e - now
                              < h * 3600 + m * 60 + 60)
                  \/ (Status.canSettle st = false
                      /\ Status.endTime st = None
                      /\ Status.timeLeftHours st = None
                      /\ Status.timeLeftMinutes st = None))).
Proof.
  change (wp (getSettlementStatus cid) s (fun r s' =>
    r = Ok st ->
    files s' = files s
    /\ (exists evs, emitted s s' evs /\ forallb isChainRead evs = true)
    /\ exists info resolved w1 w2 ms w3,
         market_getMarketInfo cid (world s) = (Fulfilled info, w1)
         /\ redemption_isResolved cid w1 = (Fulfilled resolved, w2)
         /\ Date_now w2 = (ms, w3)
         /\ Status.question st = Info.question info
         /\ Status.endTime st = JS.parseInt (Info.endTime info)
         /\ Status.isSettled st = resolved
         /\ let now := ms / 1000 in
            (resolved = true /\ Status.canSettle st = false
             /\ (exists token yesId w4,
                   redemption_getWinningToken cid w3 = (Fulfilled token, w4)
                   /\ trading_getTokenId cid "YES" w4
                      = (Fulfilled yesId, world s')
                   /\ Status.winner st
                      = Some (if String.eqb token (bigintToString yesId)
                              then YES else NO))
             /\ Status.timeLeftHours st = None
             /\ Status.timeLeftMinutes st = None)
            \/ (resolved = false /\ Status.winner st = None
                /\ world s' = w3
                /\ ((Status.canSettle st = true
                     /\ (exists e, Status.endTime st = Some e /\ e <= now)
                     /\ Status.timeLeftHours st = None
                     /\ Status.timeLeftMinutes st = None)
                    \/ (Status.canSettle st = false
                        /\ exists e h m,
                             Status.endTime st = Some e /\ now < e
                             /\ Status.timeLeftHours st = Some h
                             /\ Status.timeLeftMinutes st = Some m
                             /\ 0 <= h /\ 0 <= m < 60
                             /\ h * 3600 + m * 60 <= e - now
                                < h * 3600 + m * 60 + 60)
                    \/ (Status.canSettle st = false
                        /\ Status.endTime st = None
                        /\ Status.timeLeftHours st = None
                        /\ Status.timeLeftMinutes st = None))))).
  unfold getSettlementStatus.
  wp_run; intros Hst; try discriminate Hst; injection Hst as <-.
  all: (split; [reflexivity|]);
       (split; [eexists; split; [emitted_now|reflexivity]|]).
  all: cbn [Status.isSettled Status.canSettle Status.winner Status.endTime
            Status.timeLeftHours Status.timeLeftMinutes Status.question
            world] in *.
  - exists r, true, w, w0, ms, w1.
    do 6 (split; [first [eassumption | reflexivity]|]).
    left. split; [reflexivity|]. split; [apply andb_false_r|].
    split; [|split; reflexivity].
    exists r1, r2, w2. now repeat split.
  - exists r, false, w, w0, ms, w1.
    do 6 (split; [first [eassumption | reflexivity]|]).
    right. do 3 (split; [reflexivity|]). right. left.
    match goal with E : JS.ltNaN _ _ = true |- _ => rename E into Hlt end.
    destruct (JS.parseInt (Info.endTime r)) as [e|]; [|discriminate Hlt].
    cbn [JS.ltNaN JS.geNaN default] in *.
    apply Z.ltb_lt in Hlt.
    split; [rewrite andb_true_r; apply Z.leb_gt; lia|].
    exists e, ((e - ms / 1000) / 3600), (Z.rem (e - ms / 1000) 3600 / 60).
    split; [reflexivity|]. split; [exact Hlt|].
    split; [reflexivity|]. split; [reflexivity|].
    now apply time_left_bounds.
  - exists r, false, w, w0, ms, w1.
    do 6 (split; [first [eassumption | reflexivity]|]).
    right. do 3 (split; [reflexivity|]).
    match goal with E : JS.ltNaN _ _ = false |- _ => rename E into Hlt end.
    destruct (JS.parseInt (Info.endTime r)) as [e|].
    + left. cbn [JS.ltNaN JS.geNaN] in *.
      apply Z.ltb_ge in Hlt.
      split; [rewrite andb_true_r; now apply Z.leb_le|].
      split; [now exists e|]. split; reflexivity.
    + right. right. repeat split.
Qed.

Lemma settleMarket_submits (params : SettleParams) (s : State W)
    (info : Info.t) (w1 w2 w3 w4 w5 : W) (ms endTime tokenId : Z)
    (txHash : string) :
  let cid := s_conditionId params in
  cid <> EmptyString ->
  outcomeInvalid (s_outcome params) = false ->
  market_getMarketInfo cid (world s) = (Fulfilled info, w1) ->
  redemption_isResolved cid w1 = (Fulfilled false, w2) ->
  Date_now w2 = (ms, w3) ->
  JS.parseInt (Info.endTime info) = Some endTime ->
  endTime <= ms / 1000 ->
  trading_getTokenId cid (s_outcome params) w3 = (Fulfilled tokenId, w4) ->
  market_settleMarket cid tokenId w4 = (Fulfilled txHash, w5) ->
  settleMarket params s
  = (Ok (mkSettled txHash (s_outcome params) cid),
     mkState w5 (files s)
       (trace s ++ [GetMarketInfo cid; IsResolved cid;
                    GetTokenId cid (s_outcome params);
                    SettleMarket cid tokenId])).
Proof.
  intros cid Hcid Hout Hinfo Hres Hnow Hend Hle Htok Hsettle. subst cid.
  unfold settleMarket, getSettlementStatus.
  rewrite (falsy_false _ Hcid), Hout.
  unfold bind at 1. unfold bind at 1. unfold await at 1. rewrite Hinfo.
  unfold bind at 1. unfold await at 1. cbn [world]. rewrite Hres.
  unfold bind at 1. unfold nowSeconds at 1. cbn [world]. rewrite Hnow.
  rewrite Hend. cbn [JS.geNaN JS.ltNaN negb andb].
  replace (endTime <=? ms / 1000) with true by (symmetry; now apply Z.leb_le).
  replace (ms / 1000 <? endTime) with false by (symmetry; apply Z.ltb_ge; lia).
  cbn [andb]. unfold ret at 1.
  cbn [Status.isSettled Status.canSettle negb].
  unfold bind at 1. unfold await at 1. cbn [world]. rewrite Htok.
  unfold bind at 1. unfold await at 1. cbn [world]. rewrite Hsettle.
  cbn. rewrite <- !app_assoc. reflexivity.
Qed.

(** X7: the settlement that [settleMarket] sends.  For a market that the
    chain reports as not resolved, with an end time at or before the
    clock, [settleMarket] asks the token id of the outcome it was given
    and settles with that id; it makes four calls in all and returns the
    hash the chain gave, the outcome and the condition id. *)
Theorem settleMarket_settles (params : SettleParams) (s : State W)
    (info : Info.t) (w1 w2 w3 w4 w5 : W) (ms endTime tokenId : Z)
    (txHash : string) :
  let cid := s_conditionId params in
  cid <> EmptyString ->
  outcomeInvalid (s_outcome params) = false ->
  market_getMarketInfo cid (world s) = (Fulfilled info, w1) ->
  redemption_isResolved cid w1 = (Fulfilled false, w2) ->
  Date_now w2 = (ms, w3) ->
  JS.parseInt (Info.endTime info) = Some endTime ->
  endTime <= ms / 1000 ->
  trading_getTokenId cid (s_outcome params) w3 = (Fulfilled tokenId, w4) ->
  market_settleMarket cid tokenId w4 = (Fulfilled txHash, w5) ->
  settleMarket params s
  = (Ok (mkSettled txHash (s_outcome params) cid),
     mkState w5 (files s)
       (trace s ++ [GetMarketInfo cid; IsResolved cid;
                    GetTokenId cid (s_outcome params);
                    SettleMarket cid tokenId])).
Proof.
  intros cid. subst cid. apply settleMarket_submits.
Qed.

(** X8: [settleMarket] and [getSettlementStatus] refuse bad parameters
    before they call anything: an empty condition id gives "conditionId is
    required" from both, and an outcome other than YES and NO gives
    "outcome must be YES or NO" from [settleMarket]; chain, disk and trace
    stay as they were. *)
Theorem settle_rejects_invalid_params (params : SettleParams) (s : State W) :
  (s_conditionId params = EmptyString ->
   settleMarket params s = (Throw ConditionIdRequired, s)
   /\ getSettlementStatus (s_conditionId params) s
      = (Throw ConditionIdRequired, s))
  /\ (s_conditionId params <> EmptyString ->
      outcomeInvalid (s_outcome params) = true ->
      settleMarket params s = (Throw OutcomeInvalid, s)).
Proof.
  unfold settleMarket, getSettlementStatus. split.
  - intros ->. split; reflexivity.
  - intros Hcid Hout. now rewrite (falsy_false _ Hcid), Hout.
Qed.

End SettleMore.

(** ** create-market.ts *)

Lemma lookupToken_cases (key : string) (entry : string * Z) :
  lookupToken TOKENS key = Some entry ->
  (key = "USDC"
   /\ entry = ("0x833589fCD6eDb6E08f4c7C32D4f71b54bdA02913", 6))
  \/ (key = "WETH"
      /\ entry = ("0x4200000000000000000000000000000000000006", 18))
  \/ (key = "cbETH"
      /\ entry = ("0x2Ae3F1Ec7F1F5012CFEab0185bfc7aa3cf0DEc22", 18)).
Proof.
  cbn [lookupToken TOKENS].
  destruct (String.eqb_spec "USDC" key) as [<-|_];
    [intros [= <-]; left; auto|].
  destruct (String.eqb_spec "WETH" key) as [<-|_];
    [intros [= <-]; right; left; auto|].
  destruct (String.eqb_spec "cbETH" key) as [<-|_];
    [intros [= <-]; right; right; auto | discriminate].
Qed.

Lemma toUpperCase_neq_cbETH (c : string) : JS.toUpperCase c <> "cbETH".
Proof.
  intros Heq. pose proof (toUpperCase_not_cbETH c) as Hne.
  rewrite Heq in Hne. discriminate Hne.
Qed.

Section CreateMore.

Context {W : Type} `{Env W}.

Lemma createMarket_ok (params : CreateMarketParams) (s : State W)
    (res : CreateMarketResult) :
  fst (createMarket params s) = Ok res ->
  exists ms w1 collateralAddress dec liquidityWei,
    p_question params <> EmptyString
    /\ 0 < p_durationHours params
    /\ Date_now (world s) = (ms, w1)
    /\ r_endTime res = ms / 1000 + p_durationHours params * 3600
    /\ ms / 1000 < r_endTime res
    /\ resolvesTo (collateralOf params) (p_decimals params)
                  collateralAddress dec
    /\ parseUnits (p_liquidity params) dec = Some liquidityWei
    /\ let args := CreateArgs.mk (p_question params) (r_endTime res)
                                 liquidityWei collateralAddress in
       market_createMarket args w1
       = (Fulfilled (r_conditionId res, r_hash res),
          world (snd (createMarket params s)))
       /\ files (snd (createMarket params s)) = files s
       /\ emitted s (snd (createMarket params s)) [CreateMarket args].
Proof.
  change (wp (createMarket params) s (fun r s' =>
    r = Ok res ->
    exists ms w1 collateralAddress dec liquidityWei,
      p_question params <> EmptyString
      /\ 0 < p_durationHours params
      /\ Date_now (world s) = (ms, w1)
      /\ r_endTime res = ms / 1000 + p_durationHours params * 3600
      /\ ms / 1000 < r_endTime res
      /\ resolvesTo (collateralOf params) (p_decimals params)
                    collateralAddress dec
      /\ parseUnits (p_liquidity params) dec = Some liquidityWei
      /\ let args := CreateArgs.mk (p_question params) (r_endTime res)
                                   liquidityWei collateralAddress in
         market_createMarket args w1 = (Fulfilled (r_conditionId res, r_hash res), world s')
         /\ files s' = files s
         /\ emitted s s' [CreateMarket args])).
  unfold createMarket. fold (collateralOf params).
  destruct (JS.falsy (p_question params)) eqn:Hq; [intros [=]|].
  destruct ((p_durationHours params =? 0) || (p_durationHours params <=? 0))
    eqn:Hd; [intros [=]|].
  destruct (JS.falsy (p_liquidity params)
            || JS.le0 (JS.parseFloat (p_liquidity params))); [intros [=]|].
  apply orb_false_elim in Hd as [_ Hd]. apply Z.leb_gt in Hd.
  assert (Hq' : p_question params <> EmptyString)
    by (intros Heq; rewrite Heq in Hq; discriminate Hq).
  assert (Hsubmit : forall addr dec,
    resolvesTo (collateralOf params) (p_decimals params) addr dec ->
    wp (submitMarket params addr dec) s (fun r s' =>
      r = Ok res ->
      exists ms w1 collateralAddress dec liquidityWei,
        p_question params <> EmptyString
        /\ 0 < p_durationHours params
        /\ Date_now (world s) = (ms, w1)
        /\ r_endTime res = ms / 1000 + p_durationHours params * 3600
        /\ ms / 1000 < r_endTime res
        /\ resolvesTo (collateralOf params) (p_decimals params)
                      collateralAddress dec
        /\ parseUnits (p_liquidity params) dec = Some liquidityWei
        /\ let args := CreateArgs.mk (p_question params) (r_endTime res)
                                     liquidityWei collateralAddress in
           market_createMarket args w1
           = (Fulfilled (r_conditionId res, r_hash res), world s')
           /\ files s' = files s
           /\ emitted s s' [CreateMarket args])).
  { intros addr dec Hres. unfold submitMarket, parseUnitsOrThrow.
    wp_run; intros Hr; try discriminate Hr. injection Hr as <-.
    cbn [world files] in *.
    exists ms, w, addr, dec, z. cbn [r_endTime r_conditionId r_hash].
    split; [assumption|]. split; [assumption|]. split; [assumption|].
    split; [reflexivity|]. split; [lia|]. split; [assumption|].
    split; [assumption|]. cbn zeta.
    split; [destruct r; assumption|]. split; [reflexivity|emitted_now]. }
  destruct (lookupToken TOKENS (JS.toUpperCase (collateralOf params)))
    as [[addr dec]|] eqn:Hlook.
  - apply Hsubmit. cbn [fst snd].
    apply lookupToken_cases in Hlook as [[Hk [= -> ->]] | [[Hk [= -> ->]] | [Hk _]]].
    + left. auto.
    + right. left. auto.
    + now apply toUpperCase_neq_cbETH in Hk.
  - destruct (JS.startsWith (collateralOf params) "0x") eqn:Hx;
      [|intros [=]].
    apply Hsubmit. right. right. auto.
Qed.

(** X9: what a creation that returns has done.  The question was not
    empty and the duration positive; the end time is the clock in seconds
    plus 3600 for each hour, so strictly after the clock; the collateral
    was resolved to the address of USDC or WETH, named in any case, or
    was a [0x] address passed as it is, with the explicit decimals or the
    default of that token (18 for an address); the liquidity was scaled
    by those decimals; and the trace gained one call, [createMarket] of
    the chain with those arguments, whose answer is the result. *)
Theorem createMarket_returns (params : CreateMarketParams) (s : State W)
    (res : CreateMarketResult) :
  fst (createMarket params s) = Ok res ->
  exists ms w1 collateralAddress dec liquidityWei,
    p_question params <> EmptyString
    /\ 0 < p_durationHours params
    /\ Date_now (world s) = (ms, w1)
    /\ r_endTime res = ms / 1000 + p_durationHours params * 3600
    /\ ms / 1000 < r_endTime res
    /\ resolvesTo (collateralOf params) (p_decimals params)
                  collateralAddress dec
    /\ parseUnits (p_liquidity params) dec = Some liquidityWei
    /\ let args := CreateArgs.mk (p_question params) (r_endTime res)
                                 liquidityWei collateralAddress in
       market_createMarket args w1
       = (Fulfilled (r_conditionId res, r_hash res),
          world (snd (createMarket params s)))
       /\ files (snd (createMarket params s)) = files s
       /\ emitted s (snd (createMarket params s)) [CreateMarket args].
Proof. apply createMarket_ok. Qed.

(** X10: no spelling of the symbol cbETH is accepted.  For a collateral
    argument that upper-cases to CBETH, whatever the case of its letters
    and with the rest of the input valid, [createMarket] throws "Unknown
    token" and calls nothing: the table is read at the upper-cased
    argument, and its key for this token is in mixed case. *)
Theorem createMarket_refuses_cbETH (params : CreateMarketParams) (s : State W) :
  JS.toUpperCase (collateralOf params) = "CBETH" ->
  p_question params <> EmptyString ->
  0 < p_durationHours params ->
  p_liquidity params <> EmptyString ->
  JS.le0 (JS.parseFloat (p_liquidity params)) = false ->
  createMarket params s = (Throw (UnknownToken (collateralOf params)), s).
Proof.
  intros Hup Hq Hd Hl Hp. unfold createMarket. fold (collateralOf params).
  rewrite (falsy_false _ Hq), (falsy_false _ Hl), Hp, Hup.
  replace ((p_durationHours params =? 0) || (p_durationHours params <=? 0))
    with false
    by (symmetry; apply orb_false_intro; [apply Z.eqb_neq | apply Z.leb_gt]; lia).
  cbn [orb lookupToken TOKENS String.eqb Ascii.eqb Bool.eqb].
  destruct (collateralOf params) as [|a c]; [discriminate Hup|].
  cbn [JS.toUpperCase] in Hup. injection Hup as Ha _.
  unfold JS.startsWith. cbn [String.prefix].
  destruct (ascii_dec "0" a) as [<-|Hne]; [discriminate Ha|reflexivity].
Qed.

Lemma lookupToken_address (c : string) :
  JS.startsWith c "0x" = true -> lookupToken TOKENS (JS.toUpperCase c) = None.
Proof.
  unfold JS.startsWith. destruct c as [|a c]; [discriminate|].
  cbn [String.prefix]. destruct (ascii_dec "0" a) as [<-|]; [|discriminate].
  intros _. reflexivity.
Qed.

Lemma createMarket_resolved (params : CreateMarketParams) (s : State W)
    (collateralAddress : string) (dec : Z) :
  p_question params <> EmptyString ->
  0 < p_durationHours params ->
  p_liquidity params <> EmptyString ->
  JS.le0 (JS.parseFloat (p_liquidity params)) = false ->
  resolvesTo (collateralOf params) (p_decimals params) collateralAddress dec ->
  createMarket params s = submitMarket params collateralAddress dec s.
Proof.
  intros Hq Hd Hl Hp Hres. unfold createMarket. fold (collateralOf params).
  rewrite (falsy_false _ Hq), (falsy_false _ Hl), Hp.
  replace ((p_durationHours params =? 0) || (p_durationHours params <=? 0))
    with false
    by (symmetry; apply orb_false_intro; [apply Z.eqb_neq | apply Z.leb_gt]; lia).
  cbn [orb].
  destruct Hres as [(Hup & -> & ->) | [(Hup & -> & ->) | (Hx & -> & ->)]].
  - rewrite Hup. reflexivity.
  - rewrite Hup. reflexivity.
  - now rewrite (lookupToken_address _ Hx), Hx.
Qed.

(** X23: a liquidity that is not a number is not caught by the check
    "liquidity must be positive".  For such a text [parseFloat] gives NaN,
    and [NaN <= 0] is false: with the rest of the input valid,
    [createMarket] reads the clock and throws where [ethers.parseUnits]
    refuses the text, before the chain is called. *)
Theorem createMarket_unparsable_liquidity (params : CreateMarketParams)
    (s : State W) (collateralAddress : string) (dec ms : Z) (w1 : W) :
  p_question params <> EmptyString ->
  0 < p_durationHours params ->
  p_liquidity params <> EmptyString ->
  JS.parseFloat (p_liquidity params) = JS.NaN ->
  resolvesTo (collateralOf params) (p_decimals params) collateralAddress dec ->
  Date_now (world s) = (ms, w1) ->
  parseUnits (p_liquidity params) dec = None ->
  createMarket params s
  = (Throw (ParseUnitsFailed (p_liquidity params)),
     mkState w1 (files s) (trace s)).
Proof.
  intros Hq Hd Hl Hnan Hres Hnow Hunits.
  rewrite (createMarket_resolved params s collateralAddress dec Hq Hd Hl
             ltac:(now rewrite Hnan) Hres).
  unfold submitMarket, bind, nowSeconds, parseUnitsOrThrow.
  now rewrite Hnow, Hunits.
Qed.

End CreateMore.

(** ** SKILL.md: [checkAndSettleDueMarkets] *)

Section ScanMore.

Context {W : Type} `{Env W}.

(** The scan over an index on the disk, with the client made: the loop,
    then the write of the index if the loop completed. *)
Lemma scan_unfold decide (s : State W) (markets : list RegistryEntry) :
  keyPresent ->
  registryFile (files s) = Some (Whole markets) ->
  checkAndSettleDueMarkets decide s
  = match scanLoop decide (fst (Date_now (world s)) / 1000) markets
            (mkState (snd (Date_now (world s))) (files s) (trace s)) with
    | (Ok markets', s1) =>
        (Ok tt, mkState (world s1) (fillRegistry markets' (files s1))
                        (trace s1 ++ [WriteFile RegistryPath]))
    | (Throw e, s1) => (Throw e, s1)
    end.
Proof.
  intros (key & Hkey & Hfalsy) Hreg.
  unfold checkAndSettleDueMarkets, bind, existsRegistry, readRegistry,
    nowSeconds, initClient, writeRegistry, writeSteps.
  rewrite Hreg.
  rewrite bool_decide_eq_true_2 by (eexists; reflexivity).
  cbn beta iota zeta delta [negb]. rewrite Hreg. cbn beta iota zeta.
  destruct (Date_now (world s)) as [ms w]. cbn [fst snd].
  rewrite Hkey, Hfalsy. unfold ret. cbn beta iota zeta.
  destruct (scanLoop decide (ms / 1000) markets
              (mkState w (files s) (trace s))) as [[l|e] s1]; reflexivity.
Qed.

Lemma fillRegistry_same (fs : FS) (markets : list RegistryEntry) :
  registryFile fs = Some (Whole markets) -> fillRegistry markets fs = fs.
Proof. destruct fs as [reg mf]. cbn. now intros ->. Qed.

Lemma scanLoop_nothing_due decide now (markets : list RegistryEntry)
    (s : State W) :
  findDue markets now = [] -> scanLoop decide now markets s = (Ok markets, s).
Proof.
  induction markets as [|entry rest IH]; [reflexivity|].
  cbn [findDue scanLoop]. unfold scanEntry.
  destruct (isSettled entry);
    [|destruct (endTimeUnix entry >? now); [|discriminate]].
  all: intros Hrest; unfold bind, ret; now rewrite (IH Hrest).
Qed.

(** X11: where the scan needs the private key.  Without the key in the
    environment, a scan over an index that is on the disk throws
    "PRIVATE_KEY environment variable is required" after reading the index
    and the clock, before any call or write, even over an empty index; a
    scan with no index on the disk returns without asking for the key and
    changes nothing. *)
Theorem scan_without_key decide (s : State W) :
  ~ keyPresent ->
  (forall markets,
      registryFile (files s) = Some (Whole markets) ->
      checkAndSettleDueMarkets decide s
      = (Throw PrivateKeyRequired,
         mkState (snd (Date_now (world s))) (files s) (trace s)))
  /\ (registryFile (files s) = None ->
      checkAndSettleDueMarkets decide s = (Ok tt, s)).
Proof.
  intros Hkey. split; [|apply scan_no_index].
  intros markets Hreg.
  unfold checkAndSettleDueMarkets, bind, existsRegistry, readRegistry,
    nowSeconds, initClient.
  rewrite Hreg.
  rewrite bool_decide_eq_true_2 by (eexists; reflexivity).
  cbn beta iota zeta delta [negb]. rewrite Hreg. cbn beta iota zeta.
  destruct (Date_now (world s)) as [ms w]. cbn [fst snd].
  destruct PRIVATE_KEY as [key|] eqn:Hk; [|reflexivity].
  destruct (JS.falsy key) eqn:Hf; [reflexivity|].
  exfalso. apply Hkey. exists key. split; assumption.
Qed.

(** X12: a scan that finds nothing due saves the index as it loaded it.
    When every entry is settled or ends after the clock, the scan returns
    after one write of [registry.json] and no call to the chain; the
    disk, index included, is what it was. *)
Theorem scan_nothing_due decide (s : State W) (markets : list RegistryEntry) :
  keyPresent ->
  registryFile (files s) = Some (Whole markets) ->
  findDue markets (fst (Date_now (world s)) / 1000) = [] ->
  checkAndSettleDueMarkets decide s
  = (Ok tt, mkState (snd (Date_now (world s))) (files s)
                    (trace s ++ [WriteFile RegistryPath])).
Proof.
  intros Hkey Hreg Hdue.
  rewrite (scan_unfold decide s markets Hkey Hreg).
  rewrite (scanLoop_nothing_due _ _ _ _ Hdue).
  cbn [world files trace]. now rewrite (fillRegistry_same _ _ Hreg).
Qed.

Lemma turned_same now (markets markets' : list RegistryEntry) :
  Forall2 (turned now) markets markets' ->
  sameMarkets markets markets'
  /\ forall now', now' <= now -> findDue markets' now' = [].
Proof.
  induction 1 as [|entry entry' rest rest' Hturn _ [IHsame IHdue]].
  { split; [constructor|reflexivity]. }
  unfold turned, isDue in Hturn.
  destruct (isSettled entry) eqn:Hset; cbn [negb andb] in Hturn.
  - subst entry'. split; [constructor; auto|].
    intros now' Hle. cbn [findDue]. rewrite Hset. now apply IHdue.
  - destruct (endTimeUnix entry <=? now) eqn:Hend.
    + destruct Hturn as [winner ->]. split.
      * constructor; [|assumption]. cbn. repeat split. congruence.
      * intros now' Hle. cbn [findDue settledEntry isSettled].
        now apply IHdue.
    + subst entry'. split; [constructor; auto|].
      intros now' Hle. cbn [findDue]. rewrite Hset.
      apply Z.leb_gt in Hend.
      replace (endTimeUnix entry >? now') with true
        by (symmetry; apply Z.gtb_lt; lia).
      now apply IHdue.
Qed.

(** X13: a scan that completes leaves nothing due.  The index it writes
    has the entries of the index it read, in the same order, with the
    same condition ids, questions and end times, the entries that were
    settled unchanged; and no entry of it is due at the clock of the scan
    or at any earlier time. *)
Theorem scan_leaves_nothing_due decide (s : State W)
    (markets : list RegistryEntry) :
  registryFile (files s) = Some (Whole markets) ->
  fst (checkAndSettleDueMarkets decide s) = Ok tt ->
  exists markets',
    registryFile (files (snd (checkAndSettleDueMarkets decide s)))
    = Some (Whole markets')
    /\ sameMarkets markets markets'
    /\ forall now', now' <= fst (Date_now (world s)) / 1000 ->
                    findDue markets' now' = [].
Proof.
  intros Hreg Hok.
  destruct (scan_run decide s markets Hreg) as [Hrun | (rl & s1 & Hrun & Heq)];
    rewrite ?Hrun, ?Heq in *; [discriminate Hok|].
  destruct rl as [markets'|e]; [|discriminate Hok].
  destruct Hrun as (_ & _ & _ & _ & Hres & _).
  exists markets'. split; [reflexivity|].
  now apply turned_same, Hres.
Qed.

(** X14: a due entry without a readable market file stops the scan at
    once.  When the first entry the scan takes up has no market file, or
    a torn one, the scan throws the error of the read ([ENOENT] or the
    syntax error of [JSON.parse]) before any call to the chain; nothing is
    written, and the entries after it are not reached. *)
Theorem scan_unreadable_record decide (s : State W)
    (markets rest : list RegistryEntry) (entry : RegistryEntry) :
  keyPresent ->
  registryFile (files s) = Some (Whole markets) ->
  findDue markets (fst (Date_now (world s)) / 1000) = entry :: rest ->
  Z.abs (endTimeUnix entry * 1000) <= 8640000000000000 ->
  let s0 := mkState (snd (Date_now (world s))) (files s) (trace s) in
  (marketFiles (files s) !! conditionId entry = None ->
   checkAndSettleDueMarkets decide s
   = (Throw (NoSuchFile (MarketPath (conditionId entry))), s0))
  /\ (marketFiles (files s) !! conditionId entry = Some Torn ->
      checkAndSettleDueMarkets decide s
      = (Throw (JsonSyntaxError (MarketPath (conditionId entry))), s0)).
Proof.
  intros Hkey Hreg Hdue Hrange s0.
  rewrite (scan_unfold decide s markets Hkey Hreg). fold s0.
  pose proof (scanLoop_findDue decide (fst (Date_now (world s)) / 1000)
                markets s0) as Hlink.
  rewrite Hdue in Hlink. apply Z.leb_le in Hrange.
  split; intros Hfile.
  - assert (Hall : settleAll decide (entry :: rest) s0
                   = (Throw (NoSuchFile (MarketPath (conditionId entry))), s0)).
    { cbn [settleAll]. unfold settleDue, toISOString. rewrite Hrange.
      unfold bind, ret, readMarket. cbn [files s0]. now rewrite Hfile. }
    rewrite Hall in Hlink. unfold bind, ret in Hlink.
    destruct (scanLoop decide (fst (Date_now (world s)) / 1000) markets s0)
      as [[l|e] s1]; congruence.
  - assert (Hall : settleAll decide (entry :: rest) s0
                   = (Throw (JsonSyntaxError (MarketPath (conditionId entry))),
                      s0)).
    { cbn [settleAll]. unfold settleDue, toISOString. rewrite Hrange.
      unfold bind, ret, readMarket. cbn [files s0]. now rewrite Hfile. }
    rewrite Hall in Hlink. unfold bind, ret in Hlink.
    destruct (scanLoop decide (fst (Date_now (world s)) / 1000) markets s0)
      as [[l|e] s1]; congruence.
Qed.

Lemma outcomeName_valid (o : Outcome) : outcomeInvalid (outcomeName o) = false.
Proof. now destruct o. Qed.

(** X15: what the turn of a due entry writes.  When the reads of the
    chain allow the settlement and the chain fulfils it, the turn settles
    with the token of the outcome the agent decided from the market file,
    and right after stores in that file the hash the chain returned, the
    winner and the time, with [isSettled] true and the rest of the record
    as it was; the entry it hands to the index has the same winner. *)
Theorem settleDue_records_settlement decide (entry : RegistryEntry)
    (s : State W) (m : Market.t) (info : Info.t) (w1 w2 w3 w4 w5 w6 : W)
    (ms endTime tokenId at_ : Z) (txHash : string) :
  let cid := conditionId entry in
  let winner := decide m in
  Z.abs (endTimeUnix entry * 1000) <= 8640000000000000 ->
  marketFiles (files s) !! cid = Some (Whole m) ->
  cid <> EmptyString ->
  market_getMarketInfo cid (world s) = (Fulfilled info, w1) ->
  redemption_isResolved cid w1 = (Fulfilled false, w2) ->
  Date_now w2 = (ms, w3) ->
  JS.parseInt (Info.endTime info) = Some endTime ->
  endTime <= ms / 1000 ->
  trading_getTokenId cid (outcomeName winner) w3 = (Fulfilled tokenId, w4) ->
  market_settleMarket cid tokenId w4 = (Fulfilled txHash, w5) ->
  Date_now w5 = (at_, w6) ->
  settleDue decide entry s
  = (Ok (settledEntry entry winner),
     mkState w6
       (fillMarket cid (settledRecord m txHash winner at_) (files s))
       (trace s ++ [GetMarketInfo cid; IsResolved cid;
                    GetTokenId cid (outcomeName winner);
                    SettleMarket cid tokenId;
                    WriteFile (MarketPath cid)])).
Proof.
  intros cid winner Hrange Hfile Hcid Hinfo Hres Hnow Hend Hle Htok Hsettle Hat.
  subst cid winner.
  unfold settleDue, toISOString.
  apply Z.leb_le in Hrange. rewrite Hrange.
  unfold bind at 1. unfold ret at 1.
  unfold bind at 1. unfold readMarket at 1. rewrite Hfile.
  unfold bind at 1.
  rewrite (settleMarket_submits
             (mkSettle (conditionId entry) (outcomeName (decide m))) s info
             w1 w2 w3 w4 w5 ms endTime tokenId txHash Hcid
             (outcomeName_valid _) Hinfo Hres Hnow Hend Hle Htok Hsettle).
  unfold bind at 1. unfold isoNow at 1. cbn [world]. rewrite Hat.
  unfold bind at 1. unfold writeMarket, writeSteps. cbn [world files trace].
  rewrite runSteps_writeMarket. unfold ret. cbn [s_conditionId s_outcome sr_hash].
  rewrite <- !app_assoc. reflexivity.
Qed.

Lemma settleAll_frame decide (due : list RegistryEntry) (s : State W) :
  wp (settleAll decide due) s (fun _ s' =>
    registryFile (files s') = registryFile (files s)
    /\ forall c, (forall entry, In entry due -> conditionId entry <> c) ->
                 marketFiles (files s') !! c = marketFiles (files s) !! c).
Proof.
  revert s. induction due as [|entry rest IH]; intros s.
  { apply wp_ret. auto. }
  cbn [settleAll]. apply wp_bind.
  eapply wp_mono; [apply settleDue_cases|].
  intros [entry'|e] s1 (_ & evs & _ & Hcases).
  - destruct Hcases as [(Hthrow & _) |
      (pre & tok & m & txHash & at_ & _ & _ & _ & _ & _ & Hfiles)];
      [discriminate Hthrow|].
    eapply wp_mono; [apply IH|].
    intros r s' [Hreg Hframe]. rewrite Hreg, Hfiles. split; [reflexivity|].
    intros c Hc. rewrite Hframe by (intros e He; apply Hc; now right).
    rewrite Hfiles. cbn. apply lookup_insert_ne. apply Hc. now left.
  - destruct Hcases as [(_ & Hfiles & _) | (? & ? & ? & ? & ? & Hr & _)];
      [|discriminate Hr].
    rewrite Hfiles. auto.
Qed.

(** X16: the scan touches no market file but those of the entries it
    takes up.  Whatever the index on the disk and however the run ends,
    the file of a condition id that no due entry of the index carries is
    after the scan what it was before: a market file without a row in the
    index is never read, settled or repaired. *)
Theorem scan_touches_due_only decide (s : State W) (c : string) :
  (forall markets entry,
      registryFile (files s) = Some (Whole markets) ->
      In entry (findDue markets (fst (Date_now (world s)) / 1000)) ->
      conditionId entry <> c) ->
  marketFiles (files (snd (checkAndSettleDueMarkets decide s))) !! c
  = marketFiles (files s) !! c.
Proof.
  intros Hc.
  destruct (registryFile (files s)) as [[|markets]|] eqn:Hreg.
  - now rewrite (scan_torn_index decide s Hreg).
  - set (s0 := mkState (snd (Date_now (world s))) (files s) (trace s)).
    set (now := fst (Date_now (world s)) / 1000).
    assert (Hloop : marketFiles
              (files (snd (scanLoop decide now markets s0))) !! c
            = marketFiles (files s) !! c).
    { pose proof (scanLoop_findDue decide now markets s0) as Hlink.
      pose proof (settleAll_frame decide (findDue markets now) s0) as Hframe.
      unfold wp in Hframe. rewrite <- Hlink in Hframe.
      destruct Hframe as [_ Hframe].
      specialize (Hframe c (fun entry Hin => Hc markets entry eq_refl Hin)).
      unfold bind, ret in Hframe.
      destruct (scanLoop decide now markets s0) as [[l|e] s1]; exact Hframe. }
    unfold checkAndSettleDueMarkets, bind, existsRegistry, readRegistry,
      nowSeconds, initClient, writeRegistry, writeSteps.
    rewrite Hreg.
    rewrite bool_decide_eq_true_2 by (eexists; reflexivity).
    cbn beta iota zeta delta [negb]. rewrite Hreg. cbn beta iota zeta.
    subst s0 now. destruct (Date_now (world s)) as [ms w]. cbn [fst snd] in *.
    destruct PRIVATE_KEY as [key|]; [destruct (JS.falsy key)|];
      try reflexivity.
    unfold ret. cbn beta iota zeta.
    destruct (scanLoop decide (ms / 1000) markets
                (mkState w (files s) (trace s))) as [[l|e] s1];
      exact Hloop.
  - now rewrite (scan_no_index decide s Hreg).
Qed.

(** X22: the scan settles the due markets in the order of the index.  In
    a scan that completes, the settlements sent to the chain are, one for
    each due entry and in the order of the index, those of the due
    entries; a scan that throws sent them for the first entries of that
    list only. *)
Theorem scan_settles_in_index_order decide (s : State W)
    (markets : list RegistryEntry) :
  registryFile (files s) = Some (Whole markets) ->
  let run := checkAndSettleDueMarkets decide s in
  let due := findDue markets (fst (Date_now (world s)) / 1000) in
  exists evs,
    emitted s (snd run) evs
    /\ match fst run with
       | Ok _ => settledIds evs = map conditionId due
       | Throw _ => exists k, settledIds evs = firstn k (map conditionId due)
       end.
Proof.
  intros Hreg. cbn zeta.
  set (s0 := mkState (snd (Date_now (world s))) (files s) (trace s)).
  set (now := fst (Date_now (world s)) / 1000).
  pose proof (scanLoop_findDue decide now markets s0) as Hlink.
  pose proof (settleAll_order decide (findDue markets now) s0) as Horder.
  unfold wp in Horder. rewrite <- Hlink in Horder.
  destruct Horder as (evs & Hev & Hids).
  remember (checkAndSettleDueMarkets decide s) as run eqn:Erun.
  unfold checkAndSettleDueMarkets, bind, existsRegistry, readRegistry,
    nowSeconds, initClient, writeRegistry, writeSteps in Erun.
  rewrite Hreg in Erun.
  rewrite bool_decide_eq_true_2 in Erun by (eexists; reflexivity).
  cbn beta iota zeta delta [negb] in Erun. rewrite Hreg in Erun.
  cbn beta iota zeta in Erun.
  subst s0 now. destruct (Date_now (world s)) as [ms w]. cbn [fst snd] in *.
  unfold throw, ret in Erun.
  assert (Hnone : exists evs0,
            emitted s (mkState w (files s) (trace s)) evs0
            /\ exists k, settledIds evs0
                         = firstn k (map conditionId (findDue markets (ms / 1000)))).
  { exists []. split; [unfold emitted; cbn; now rewrite app_nil_r|].
    now exists 0%nat. }
  destruct PRIVATE_KEY as [key|]; [destruct (JS.falsy key)|];
    try (subst run; exact Hnone).
  cbn beta iota zeta in Erun.
  unfold bind, ret in Hev, Hids.
  destruct (scanLoop decide (ms / 1000) markets
              (mkState w (files s) (trace s))) as [[l|e] s1];
    subst run; cbn [fst snd] in *.
  - exists (evs ++ [WriteFile RegistryPath]).
    split; [unfold emitted in *; cbn [trace] in *; now rewrite Hev, app_assoc|].
    rewrite settledIds_app. cbn. now rewrite app_nil_r.
  - now exists evs.
Qed.

End ScanMore.

(** ** SKILL.md: the workflow after a creation *)

Section WorkflowMore.

Context {W : Type} `{Env W}.

(** X17: what the workflow leaves on the disk when it returns.  The file
    of the new market holds its record: the id, hash and end time that
    [createMarket] returned, the question and liquidity of the
    parameters, [isSettled] false and no winner.  The index is the index
    that was there (empty if there was no file) with one more row at the
    end, the projection of that record; this row is not due at the clock
    of the creation.  The trace gained the creation on the chain and the
    two writes, in that order. *)
Theorem createAndRecord_returns (params : CreateMarketParams)
    (coll : Collateral) (rules : TradingRules) (s : State W)
    (res : CreateMarketResult) :
  fst (createAndRecord params coll rules s) = Ok res ->
  let s' := snd (createAndRecord params coll rules s) in
  exists createdAt old args,
    fst (createMarket params s) = Ok res
    /\ marketFiles (files s') !! r_conditionId res
       = Some (Whole (createdRecord res params coll rules createdAt))
    /\ (registryFile (files s) = Some (Whole old)
        \/ (registryFile (files s) = None /\ old = []))
    /\ registryFile (files s')
       = Some (Whole (old ++ [createdEntry res params]))
    /\ isDue (fst (Date_now (world s)) / 1000) (createdEntry res params)
       = false
    /\ emitted s s' [CreateMarket args;
                     WriteFile (MarketPath (r_conditionId res));
                     WriteFile RegistryPath].
Proof.
  cbn zeta.
  change (wp (createAndRecord params coll rules) s (fun r s' =>
    r = Ok res ->
    exists createdAt old args,
      fst (createMarket params s) = Ok res
      /\ marketFiles (files s') !! r_conditionId res
         = Some (Whole (createdRecord res params coll rules createdAt))
      /\ (registryFile (files s) = Some (Whole old)
          \/ (registryFile (files s) = None /\ old = []))
      /\ registryFile (files s')
         = Some (Whole (old ++ [createdEntry res params]))
      /\ isDue (fst (Date_now (world s)) / 1000) (createdEntry res params)
         = false
      /\ emitted s s' [CreateMarket args;
                       WriteFile (MarketPath (r_conditionId res));
                       WriteFile RegistryPath])).
  unfold createAndRecord, initClient.
  wp_run; try (intros [=]).
  apply wp_eqn. intros [result|e] s1 Hcreate; [|intros [=]].
  pose proof (createMarket_ok params s result) as Hok.
  rewrite Hcreate in Hok.
  destruct (Hok eq_refl)
    as (ms0 & w0 & addr & dec & wei & _ & _ & Hnow0 & Hend & Hafter & _ & _
        & _ & Hfiles & Hev).
  cbn [snd] in Hfiles, Hev.
  assert (Hdue : isDue (fst (Date_now (world s)) / 1000)
                       (createdEntry result params) = false).
  { rewrite Hnow0. unfold isDue, createdEntry. cbn.
    apply Z.leb_gt. exact Hafter. }
  unfold writeMarketRecord, updateRegistry.
  wp_run; intros Hr; try discriminate Hr; injection Hr as <-.
  - exists ms, markets, (CreateArgs.mk (p_question params) (r_endTime result)
                                      wei addr).
    cbn [files world trace] in *.
    split; [now rewrite Hcreate|].
    split; [rewrite runSteps_writeMarket; cbn; apply lookup_insert_eq|].
    split; [left; rewrite runSteps_writeMarket in Eindex; cbn in Eindex;
            now rewrite <- Hfiles|].
    split; [reflexivity|]. split; [exact Hdue|].
    unfold emitted in *. cbn [trace]. rewrite Hev, <- !app_assoc. reflexivity.
  - exists ms, [], (CreateArgs.mk (p_question params) (r_endTime result)
                                 wei addr).
    cbn [files world trace] in *.
    split; [now rewrite Hcreate|].
    split; [rewrite runSteps_writeMarket; cbn; apply lookup_insert_eq|].
    split.
    { right. split; [|reflexivity].
      rewrite runSteps_writeMarket in Heqb1. cbn in Heqb1.
      rewrite Hfiles in Heqb1.
      destruct (registryFile (files s)); [|reflexivity].
      rewrite bool_decide_eq_true_2 in Heqb1 by (eexists; reflexivity).
      discriminate Heqb1. }
    split; [reflexivity|]. split; [exact Hdue|].
    unfold emitted in *. cbn [trace]. rewrite Hev, <- !app_assoc. reflexivity.
Qed.

(** X18: a creation is not undone when the index cannot be read.  Over
    a torn [registry.json], once [createMarket] has returned, the workflow
    writes the file of the new market and then throws the syntax error of
    [JSON.parse]: the market is on the chain and in its file, and the
    index is still the torn file, without a row for it. *)
Theorem createAndRecord_torn_index (params : CreateMarketParams)
    (coll : Collateral) (rules : TradingRules) (s s1 : State W)
    (res : CreateMarketResult) (createdAt : Z) (w2 : W) :
  keyPresent ->
  registryFile (files s) = Some Torn ->
  createMarket params s = (Ok res, s1) ->
  Date_now (world s1) = (createdAt, w2) ->
  Z.abs (r_endTime res * 1000) <= 8640000000000000 ->
  let s' := snd (createAndRecord params coll rules s) in
  fst (createAndRecord params coll rules s)
  = Throw (JsonSyntaxError RegistryPath)
  /\ marketFiles (files s') !! r_conditionId res
     = Some (Whole (createdRecord res params coll rules createdAt))
  /\ registryFile (files s') = Some Torn
  /\ trace s' = trace s1 ++ [WriteFile (MarketPath (r_conditionId res))].
Proof.
  intros (key & Hkey & Hfalsy) Hreg Hcreate Hnow Hrange. cbn zeta.
  pose proof (createMarket_files params s) as Hfiles.
  rewrite Hcreate in Hfiles. cbn [snd] in Hfiles.
  apply Z.leb_le in Hrange.
  assert (Hrun : createAndRecord params coll rules s
    = (Throw (JsonSyntaxError RegistryPath),
       mkState w2
         (fillMarket (r_conditionId res)
            (createdRecord res params coll rules createdAt) (files s))
         (trace s1 ++ [WriteFile (MarketPath (r_conditionId res))]))).
  { unfold createAndRecord, initClient. rewrite Hkey, Hfalsy.
    unfold bind at 1. unfold ret at 1.
    unfold bind at 1. rewrite Hcreate.
    unfold bind at 1. unfold writeMarketRecord.
    unfold bind at 1. unfold isoNow at 1. rewrite Hnow.
    unfold toISOString. rewrite Hrange.
    unfold bind at 1. unfold ret at 1.
    unfold bind at 1. unfold writeMarket, writeSteps.
    cbn [world files trace]. rewrite runSteps_writeMarket, Hfiles.
    unfold ret at 1.
    unfold updateRegistry, bind, existsRegistry, readRegistry.
    cbn [files fillMarket registryFile]. rewrite Hreg.
    rewrite bool_decide_eq_true_2 by (eexists; reflexivity).
    cbn [files fillMarket registryFile]. rewrite Hreg.
    reflexivity. }
  rewrite Hrun. cbn [fst snd files trace].
  split; [reflexivity|].
  split; [cbn; apply lookup_insert_eq|].
  split; [exact Hreg | reflexivity].
Qed.

End WorkflowMore.

(** ** redeem.ts *)

Section RedeemMore.

Context {W : Type} `{Env W} `{RedeemEnv W}.

Lemma redeemWinnings_run (cid : string) (rs : RState W) :
  let run := redeemWinnings cid rs in
  rfiles (snd run) = rfiles rs
  /\ exists evs,
       rtrace (snd run) = rtrace rs ++ evs
       /\ ((forallb (fun ev => negb (isRedeem ev)) evs = true
            /\ exists e, fst run = RThrow e)
           \/ (evs = [Base (IsResolved cid); Base (GetMarketInfo cid);
                      Base (GetWinningToken cid);
                      Base (GetTokenId cid "YES"); Redeem cid]
               /\ fst (redemption_isResolved cid (rworld rs))
                  = Fulfilled true)).
Proof.
  cbn zeta.
  unfold redeemWinnings, rbind, lift, await, awaitRedeem, rthrow, rret.
  destruct (JS.falsy cid).
  { split; [reflexivity|]. exists []. rewrite app_nil_r.
    split; [reflexivity|]. left. split; [reflexivity|eauto]. }
  cbn [world files trace].
  destruct (redemption_isResolved cid (rworld rs)) as [[reason|[|]] w1] eqn:E1;
    cbn [fst snd rworld rfiles rtrace world files trace app map negb].
  - split; [reflexivity|]. eexists. split; [reflexivity|].
    left. split; [reflexivity|eauto].
  - destruct (market_getMarketInfo cid w1) as [[reason|info] w2];
      cbn [fst snd rworld rfiles rtrace world files trace app map].
    { split; [reflexivity|]. eexists.
      split; [rewrite <- app_assoc; reflexivity|].
      left. split; [reflexivity|eauto]. }
    destruct (redemption_getWinningToken cid w2) as [[reason|token] w3];
      cbn [fst snd rworld rfiles rtrace world files trace app map].
    { split; [reflexivity|]. eexists.
      split; [rewrite <- !app_assoc; reflexivity|].
      left. split; [reflexivity|eauto]. }
    destruct (trading_getTokenId cid "YES" w3) as [[reason|yesId] w4];
      cbn [fst snd rworld rfiles rtrace world files trace app map].
    { split; [reflexivity|]. eexists.
      split; [rewrite <- !app_assoc; reflexivity|].
      left. split; [reflexivity|eauto]. }
    destruct (redemption_redeem cid w4) as [[reason|txHash] w5];
      cbn [fst snd rworld rfiles rtrace world files trace app map].
    all: split; [reflexivity|]; eexists;
         (split; [rewrite <- !app_assoc; reflexivity|]);
         right; split; reflexivity.
  - destruct (market_getMarketInfo cid w1) as [[reason|info] w2];
      cbn [fst snd rworld rfiles rtrace world files trace app map].
    all: split; [reflexivity|]; eexists;
         (split; [rewrite <- !app_assoc; reflexivity|]);
         left; split; [reflexivity|eauto].
Qed.

(** X19: [redeemWinnings] redeems only what the chain reports resolved.
    In every run the disk is untouched; a redemption is sent only after
    [isResolved] answered true, as the fifth and last call of the run,
    after the reads of the market, the winning token and the YES token;
    every other run throws without having sent one. *)
Theorem redeemWinnings_cases (cid : string) (rs : RState W) :
  let run := redeemWinnings cid rs in
  rfiles (snd run) = rfiles rs
  /\ exists evs,
       rtrace (snd run) = rtrace rs ++ evs
       /\ ((forallb (fun ev => negb (isRedeem ev)) evs = true
            /\ exists e, fst run = RThrow e)
           \/ (evs = [Base (IsResolved cid); Base (GetMarketInfo cid);
                      Base (GetWinningToken cid);
                      Base (GetTokenId cid "YES"); Redeem cid]
               /\ fst (redemption_isResolved cid (rworld rs))
                  = Fulfilled true)).
Proof. apply redeemWinnings_run. Qed.

(** X20: the two ways [redeemWinnings] ends on answered reads.  For a
    market that [isResolved] reports as not resolved it reads the market
    and throws "Market is not yet settled" with the question.  For a
    resolved market it names YES the winner exactly when the winning token
    is the decimal text of the YES token id, NO otherwise, sends the
    redemption and returns its hash with that winner. *)
Theorem redeemWinnings_ends (cid : string) (rs : RState W) (info : Info.t)
    (w1 w2 : W) :
  cid <> EmptyString ->
  (redemption_isResolved cid (rworld rs) = (Fulfilled false, w1) ->
   market_getMarketInfo cid w1 = (Fulfilled info, w2) ->
   redeemWinnings cid rs
   = (RThrow (NotYetSettled (Info.question info)),
      mkRState w2 (rfiles rs)
        (rtrace rs ++ [Base (IsResolved cid); Base (GetMarketInfo cid)])))
  /\ (forall w3 w4 w5 token yesId txHash,
        redemption_isResolved cid (rworld rs) = (Fulfilled true, w1) ->
        market_getMarketInfo cid w1 = (Fulfilled info, w2) ->
        redemption_getWinningToken cid w2 = (Fulfilled token, w3) ->
        trading_getTokenId cid "YES" w3 = (Fulfilled yesId, w4) ->
        redemption_redeem cid w4 = (Fulfilled txHash, w5) ->
        redeemWinnings cid rs
        = (ROk (mkRedeemed txHash cid
                  (if String.eqb token (bigintToString yesId) then YES else NO)
                  (Info.question info)),
           mkRState w5 (rfiles rs)
             (rtrace rs ++ [Base (IsResolved cid); Base (GetMarketInfo cid);
                            Base (GetWinningToken cid);
                            Base (GetTokenId cid "YES"); Redeem cid]))).
Proof.
  intros Hcid. split.
  - intros Hres Hinfo.
    unfold redeemWinnings, rbind, lift, await, rthrow.
    rewrite (falsy_false _ Hcid). cbn [world files trace]. rewrite Hres.
    cbn [negb rworld rfiles rtrace world files trace]. rewrite Hinfo.
    cbn [rworld rfiles rtrace world files trace app map].
    now rewrite <- app_assoc.
  - intros w3 w4 w5 token yesId txHash Hres Hinfo Hwin Hyes Hredeem.
    unfold redeemWinnings, rbind, lift, await, awaitRedeem, rret.
    rewrite (falsy_false _ Hcid). cbn [world files trace]. rewrite Hres.
    cbn [negb rworld rfiles rtrace world files trace]. rewrite Hinfo.
    cbn [negb rworld rfiles rtrace world files trace]. rewrite Hwin.
    cbn [negb rworld rfiles rtrace world files trace]. rewrite Hyes.
    cbn [negb rworld rfiles rtrace world files trace]. rewrite Hredeem.
    cbn [rworld rfiles rtrace world files trace app map].
    now rewrite <- !app_assoc.
Qed.

End RedeemMore.

(** ** lifecycle.ts *)

Lemma settledBeforeRedeem_base (evs : list Event) :
  settledBeforeRedeem (map Base evs).
Proof.
  intros cid Hin. apply in_map_iff in Hin as (ev & Hev & _). discriminate Hev.
Qed.

Lemma settledBeforeRedeem_more (evs : list RedeemEvent) (more : list Event) :
  settledBeforeRedeem evs -> settledBeforeRedeem (evs ++ map Base more).
Proof.
  intros Hevs cid [Hin|Hin]%in_app_or.
  - destruct (Hevs cid Hin) as (pre & tok & post & -> & Hpost).
    exists pre, tok, (post ++ map Base more).
    split; [now rewrite <- app_assoc|]. apply in_or_app. now left.
  - apply in_map_iff in Hin as (ev & Hev & _). discriminate Hev.
Qed.

Section LifecycleMore.

Context {W : Type} `{Env W} `{RedeemEnv W}.

Lemma rwp_bind {A B} (m : RM W A) (k : A -> RM W B) (rs : RState W) Q :
  rwp m rs (fun r rs1 => match r with
                         | ROk a => rwp (k a) rs1 Q
                         | RThrow e => Q (RThrow e) rs1
                         end) ->
  rwp (rbind m k) rs Q.
Proof. unfold rwp, rbind. destruct (m rs) as [[a|e] rs1]; exact id. Qed.

Lemma rwp_lift {A} (m : M W A) (rs : RState W) Q :
  (forall r s', m (mkState (rworld rs) (rfiles rs) []) = (r, s') ->
     Q (match r with
        | Ok a => ROk a
        | Throw e => RThrow (ScriptError e)
        end)
       (mkRState (world s') (files s') (rtrace rs ++ map Base (trace s')))) ->
  rwp (lift m) rs Q.
Proof.
  intros HQ. unfold rwp, lift.
  destruct (m (mkState (rworld rs) (rfiles rs) [])) as [r s'] eqn:E.
  specialize (HQ r s' eq_refl). destruct r; exact HQ.
Qed.

Lemma baseSince_lift (rs0 rs : RState W) (s' : State W) :
  baseSince rs0 rs ->
  baseSince rs0 (mkRState (world s') (files s')
                          (rtrace rs ++ map Base (trace s'))).
Proof.
  intros [evs Hevs]. exists (evs ++ trace s'). cbn [rtrace].
  now rewrite Hevs, map_app, app_assoc.
Qed.

(** A lifted script whose result is not looked at. *)
Lemma rwp_lift_base {A} (m : M W A) (rs0 rs : RState W) Q :
  baseSince rs0 rs ->
  (forall r rs', baseSince rs0 rs' -> Q r rs') ->
  rwp (lift m) rs Q.
Proof.
  intros Hbase HQ. apply rwp_lift. intros r s' _.
  apply HQ. now apply baseSince_lift.
Qed.

Lemma baseSince_final (rs0 rs : RState W) :
  baseSince rs0 rs ->
  exists evs, rtrace rs = rtrace rs0 ++ evs /\ settledBeforeRedeem evs.
Proof.
  intros [evs Hevs]. exists (map Base evs).
  split; [exact Hevs | apply settledBeforeRedeem_base].
Qed.


End LifecycleMore.

(** ** The scripts on the small chain, continued *)

Ltac evaluated :=
  first [ reflexivity | discriminate | cbn; lia
        | vm_compute; first [reflexivity | discriminate] ].

Lemma demo_keyPresent : keyPresent (W := Chain).
Proof. exists "0xkey". split; reflexivity. Defined.

Lemma getMarketInfo_reads_witness :
  getMarketInfo "0xdef" fresh
  = (Ok (MarketInfo.mk "Q" "3000" false "50" "50" "100"
                       "0x833589fCD6eDb6E08f4c7C32D4f71b54bdA02913"),
     mkState chain0 disk0 [GetMarketInfo "0xdef"; GetMarketPrices "0xdef"]).
Proof.
  apply (proj2 (proj2 (getMarketInfo_reads "0xdef" fresh))
           ltac:(discriminate)
           (Info.mk "Q" "3000" false
                    "0x833589fCD6eDb6E08f4c7C32D4f71b54bdA02913" "100")
           (mkPrices "50" "50") chain0 chain0);
    reflexivity.
Defined.

Lemma trade_rejects_invalid_params_witness :
  buyTokens (mkTrade "0xdef" "YES" "0" None None) fresh
  = (Throw AmountNotPositive, fresh)
  /\ sellTokens (mkTrade "0xdef" "YES" "0" None None) fresh
     = (Throw AmountNotPositive, fresh).
Proof.
  apply (trade_rejects_invalid_params (mkTrade "0xdef" "YES" "0" None None)
           fresh).
  reflexivity.
Defined.

Lemma trade_sends_one_order_witness :
  exists amountWei minOutWei,
    emitted fresh (snd (buyTokens buy0 fresh))
      [GetMarketInfo "0xdef"; Buy "0xdef" amountWei "YES" minOutWei;
       GetMarketPrices "0xdef"].
Proof.
  assert (Hrun : fst (buyTokens buy0 fresh)
                 = Ok (mkTradeResult "0xbuy" buy "YES" "10" ("50", "50")))
    by (vm_compute; reflexivity).
  destruct (proj1 (trade_sends_one_order buy0 fresh) _ Hrun)
    as (amountWei & minOutWei & _ & _ & Hev & _).
  exists amountWei, minOutWei. exact Hev.
Defined.

Lemma trade_throws_after_order_witness :
  @buyTokens Chain noPricesEnv buy0 fresh
  = (Throw (ClientRejected "over rate limit"),
     mkState chain0 disk0
       [GetMarketInfo "0xdef"; Buy "0xdef" 10000000 "YES" 0;
        GetMarketPrices "0xdef"]).
Proof.
  apply (proj1 (@trade_throws_after_order Chain noPricesEnv buy0 fresh
                  (Info.mk "Q" "3000" false
                           "0x833589fCD6eDb6E08f4c7C32D4f71b54bdA02913" "100")
                  chain0 chain0 chain0 chain0 2000000 10000000 0 "0xbuy"
                  "over rate limit" eq_refl eq_refl eq_refl eq_refl eq_refl
                  eq_refl));
    reflexivity.
Defined.

Lemma unparsable_end_time_witness :
  settleMarket (mkSettle "0xbad" "YES") (mkState chainWord disk0 [])
  = (Throw (CannotSettleYet None None),
     mkState chainWord disk0 [GetMarketInfo "0xbad"; IsResolved "0xbad"]).
Proof.
  apply (proj1 (unparsable_end_time "0xbad" (mkState chainWord disk0 [])
                  (Info.mk "Q" "soon" false
                           "0x833589fCD6eDb6E08f4c7C32D4f71b54bdA02913" "100")
                  chainWord ltac:(discriminate) eq_refl eq_refl)
               "YES" chainWord chainWord 2000000);
    reflexivity.
Defined.

Lemma getSettlementStatus_shapes_witness :
  fst (getSettlementStatus "0xdef" fresh)
  = Ok (Status.mk "Q" (Some 3000) false false None (Some 0) (Some 16))
  /\ files (snd (getSettlementStatus "0xdef" fresh)) = files fresh.
Proof.
  split; [reflexivity|].
  exact (proj1 (getSettlementStatus_shapes "0xdef" fresh
                  (Status.mk "Q" (Some 3000) false false None (Some 0)
                             (Some 16)) eq_refl)).
Defined.

Lemma settleMarket_settles_witness :
  settleMarket (mkSettle "0xabc" "YES") fresh
  = (Ok (mkSettled "0xsettle" "YES" "0xabc"),
     mkState (mkChain 2000000 [("0xabc", "1000"); ("0xdef", "3000")]
                      [("0xabc", 1)])
             disk0
             [GetMarketInfo "0xabc"; IsResolved "0xabc";
              GetTokenId "0xabc" "YES"; SettleMarket "0xabc" 1]).
Proof.
  apply (settleMarket_settles (mkSettle "0xabc" "YES") fresh
           (Info.mk "Q" "1000" false
                    "0x833589fCD6eDb6E08f4c7C32D4f71b54bdA02913" "100")
           chain0 chain0 chain0 chain0
           (mkChain 2000000 [("0xabc", "1000"); ("0xdef", "3000")]
                    [("0xabc", 1)])
           2000000 1000 1 "0xsettle");
    [discriminate | reflexivity | reflexivity | reflexivity | reflexivity
    | reflexivity | evaluated | reflexivity | reflexivity].
Defined.

Lemma settle_rejects_invalid_params_witness :
  settleMarket (mkSettle "0xabc" "MAYBE") fresh = (Throw OutcomeInvalid, fresh).
Proof.
  apply (proj2 (settle_rejects_invalid_params (mkSettle "0xabc" "MAYBE") fresh));
    [discriminate | reflexivity].
Defined.

Lemma createMarket_returns_witness :
  fst (createMarket params0 fresh) = Ok created0
  /\ exists ms w1,
       Date_now (world fresh) = (ms, w1)
       /\ r_endTime created0 = ms / 1000 + p_durationHours params0 * 3600.
Proof.
  assert (Hrun : fst (createMarket params0 fresh) = Ok created0)
    by reflexivity.
  split; [exact Hrun|].
  destruct (createMarket_returns params0 fresh created0 Hrun)
    as (ms & w1 & _ & _ & _ & _ & _ & Hnow & Hend & _).
  exists ms, w1. split; assumption.
Defined.

Lemma createMarket_refuses_cbETH_witness :
  createMarket (mkCreateParams "Q1" 168 "100" (Some "CbEth") None) fresh
  = (Throw (UnknownToken "CbEth"), fresh).
Proof.
  apply (createMarket_refuses_cbETH
           (mkCreateParams "Q1" 168 "100" (Some "CbEth") None) fresh);
    [reflexivity | discriminate | evaluated | discriminate | reflexivity].
Defined.

Lemma createMarket_unparsable_liquidity_witness :
  createMarket (mkCreateParams "Q1" 168 "abc" None None) fresh
  = (Throw (ParseUnitsFailed "abc"), fresh).
Proof.
  apply (createMarket_unparsable_liquidity
           (mkCreateParams "Q1" 168 "abc" None None) fresh
           "0x833589fCD6eDb6E08f4c7C32D4f71b54bdA02913" 6 2000000 chain0);
    [discriminate | evaluated | discriminate | reflexivity
    | left; repeat split | reflexivity | reflexivity].
Defined.

Lemma scan_without_key_witness :
  @checkAndSettleDueMarkets Chain noKeyEnv alwaysYes fresh
  = (Throw PrivateKeyRequired, fresh).
Proof.
  apply (proj1 (@scan_without_key Chain noKeyEnv alwaysYes fresh
                  ltac:(intros (key & Hkey & _); discriminate Hkey))
               [entry0]).
  reflexivity.
Defined.

Lemma scan_nothing_due_witness :
  checkAndSettleDueMarkets alwaysYes scanned
  = (Ok tt, mkState (world scanned) (files scanned)
                    (trace scanned ++ [WriteFile RegistryPath])).
Proof.
  apply (scan_nothing_due alwaysYes scanned [settledEntry entry0 YES]
           demo_keyPresent);
    reflexivity.
Defined.

Lemma scan_leaves_nothing_due_witness :
  exists markets',
    registryFile (files scanned) = Some (Whole markets')
    /\ sameMarkets [entry0] markets'.
Proof.
  assert (Hrun : fst (checkAndSettleDueMarkets alwaysYes fresh) = Ok tt)
    by reflexivity.
  destruct (scan_leaves_nothing_due alwaysYes fresh [entry0] eq_refl Hrun)
    as (markets' & Hreg & Hsame & _).
  exists markets'. split; assumption.
Defined.

Lemma scan_unreadable_record_witness :
  checkAndSettleDueMarkets alwaysYes orphanIndex
  = (Throw (NoSuchFile (MarketPath "0xabc")), orphanIndex).
Proof.
  apply (proj1 (scan_unreadable_record alwaysYes orphanIndex [entry0] []
                  entry0 demo_keyPresent eq_refl eq_refl
                  ltac:(evaluated))).
  reflexivity.
Defined.

Lemma settleDue_records_settlement_witness :
  fst (settleDue alwaysYes entry0 fresh) = Ok (settledEntry entry0 YES).
Proof.
  rewrite (settleDue_records_settlement alwaysYes entry0 fresh
             (demoRecord "0xabc" 1000 unsettled)
             (Info.mk "Q" "1000" false
                      "0x833589fCD6eDb6E08f4c7C32D4f71b54bdA02913" "100")
             chain0 chain0 chain0 chain0
             (mkChain 2000000 [("0xabc", "1000"); ("0xdef", "3000")]
                      [("0xabc", 1)])
             (mkChain 2000000 [("0xabc", "1000"); ("0xdef", "3000")]
                      [("0xabc", 1)])
             2000000 1000 1 2000000 "0xsettle");
    [reflexivity | evaluated | reflexivity | discriminate | reflexivity
    | reflexivity | reflexivity | reflexivity | evaluated | reflexivity
    | reflexivity | reflexivity].
Defined.

Lemma scan_touches_due_only_witness :
  marketFiles (files scanned) !! "0xorphan"
  = marketFiles (files fresh) !! "0xorphan".
Proof.
  apply (scan_touches_due_only alwaysYes fresh "0xorphan").
  intros markets entry [= <-] [<-|[]]. discriminate.
Defined.

Lemma scan_settles_in_index_order_witness :
  exists evs, emitted fresh scanned evs /\ settledIds evs = ["0xabc"].
Proof.
  destruct (scan_settles_in_index_order alwaysYes fresh [entry0] eq_refl)
    as (evs & Hev & Hids).
  exists evs. split; [exact Hev | exact Hids].
Defined.

Lemma createAndRecord_returns_witness :
  fst (createAndRecord params0 usdc demoRules fresh) = Ok created0
  /\ exists createdAt,
       marketFiles (files (snd (createAndRecord params0 usdc demoRules fresh)))
         !! "0x2"
       = Some (Whole (createdRecord created0 params0 usdc demoRules createdAt)).
Proof.
  assert (Hrun : fst (createAndRecord params0 usdc demoRules fresh)
                 = Ok created0) by reflexivity.
  split; [exact Hrun|].
  destruct (createAndRecord_returns params0 usdc demoRules fresh created0
              Hrun) as (createdAt & old & args & _ & Hfile & _).
  exists createdAt. exact Hfile.
Defined.

Lemma createAndRecord_torn_index_witness :
  fst (createAndRecord params0 usdc demoRules tornIndex)
  = Throw (JsonSyntaxError RegistryPath)
  /\ registryFile
       (files (snd (createAndRecord params0 usdc demoRules tornIndex)))
     = Some Torn.
Proof.
  assert (Hrun : createMarket params0 tornIndex
                 = (Ok created0, snd (createMarket params0 tornIndex)))
    by reflexivity.
  assert (Hnow : Date_now (world (snd (createMarket params0 tornIndex)))
                 = (2000000, world (snd (createMarket params0 tornIndex))))
    by reflexivity.
  destruct (createAndRecord_torn_index params0 usdc demoRules tornIndex
              (snd (createMarket params0 tornIndex)) created0 2000000
              (world (snd (createMarket params0 tornIndex)))
              demo_keyPresent eq_refl Hrun Hnow ltac:(evaluated))
    as (Hthrow & _ & Hreg & _).
  split; assumption.
Defined.

Lemma redeemWinnings_ends_witness :
  redeemWinnings "0xabc" rfresh
  = (RThrow (NotYetSettled "Q"),
     mkRState chain0 disk0
       [Base (IsResolved "0xabc"); Base (GetMarketInfo "0xabc")]).
Proof.
  apply (proj1 (redeemWinnings_ends "0xabc" rfresh
                  (Info.mk "Q" "1000" false
                           "0x833589fCD6eDb6E08f4c7C32D4f71b54bdA02913" "100")
                  chain0 chain0 ltac:(discriminate)));
    reflexivity.
Defined.
